(** * Time data for Nintendo DS RNG timers: a model of [time_data.hpp]

    The header computes, from a calibrated (delay, second) pair and a target
    (delay, second) pair, the boot time, the load time and the minute offset
    of a timer.  Everything is arithmetic on [ui32], [ui8] and [fp64].

    - [ui32] and [ui8] values are integers of [Z]; the wrap-around of the
      unsigned subtraction is written out.
    - [fp64] is the primitive binary64 type [float] of Rocq, whose operations
      are the IEEE-754 ones with rounding to nearest, ties to even.  Their
      specification ([Prim2SF], [SF64add], ...) is the one of the standard
      library.
    - [std::fmod] is exact in IEEE arithmetic; it is defined on the
      specification level and brought back to [float].
    - A conversion from [fp64] to an unsigned integer type truncates toward
      zero.  When the truncated value does not fit the type, C++ leaves the
      result undefined: the model then has no value for it ([None]), and the
      run goes on, as it does where the conversion is an instruction that
      does not trap.
    - [DEBUG] is a parameter of [get_time_data], and so is the fuel of its
      [while] loop, which counts its iterations. *)

From Stdlib Require Import ZArith Lia Bool List Floats Uint63.
Import ListNotations.

Set Warnings "-inexact-float".

Local Open Scope Z_scope.

(** ** Outcomes of a run *)

Inductive outcome (A : Type) : Type :=
| Ret (a : A)       (* normal return *)
| Trap              (* [__debugbreak()] was reached *)
| OutOfFuel.        (* the loop did not finish within the given fuel *)

Arguments Ret {A} a.
Arguments Trap {A}.
Arguments OutOfFuel {A}.

Definition bind {A B : Type} (c : outcome A) (k : A -> outcome B) : outcome B :=
  match c with
  | Ret a => k a
  | Trap => Trap
  | OutOfFuel => OutOfFuel
  end.

Notation "x <- c ;; k" := (bind c (fun x => k))
  (at level 61, c at next level, right associativity).

(** Whether a run returned normally. *)
Definition returns {A : Type} (o : outcome A) : bool :=
  match o with
  | Ret _ => true
  | _ => false
  end.

(** ** Unsigned integers *)

Definition ui8_range (z : Z) : Prop := 0 <= z < 2 ^ 8.
Definition ui32_range (z : Z) : Prop := 0 <= z < 2 ^ 32.

(** [a - b] on [ui32] operands: the result is reduced modulo [2^32]. *)
Definition sub_ui32 (a b : Z) : Z := (a - b) mod 2 ^ 32.

(** ** Conversions between integers and [fp64] *)

(** [static_cast<fp64>(n)] for an unsigned [n] below [2^63]. *)
Definition fp64_of_uint (n : Z) : float := of_uint63 (Uint63.of_Z n).

(** The integer part of a finite value, rounded toward zero. *)
Definition SFtrunc (x : spec_float) : option Z :=
  match x with
  | S754_zero _ => Some 0
  | S754_finite s m e =>
      Some (cond_Zopp s
              match e with
              | Zneg p => Zpos m / 2 ^ Zpos p
              | _ => Zpos m * 2 ^ e
              end)
  | S754_infinity _ | S754_nan => None
  end.

(** [static_cast<T>(x)] for an unsigned type [T] of [bits] bits: the
    truncated value when it fits, no value otherwise. *)
Definition fp64_to_uint (bits : Z) (x : float) : option Z :=
  match SFtrunc (Prim2SF x) with
  | Some z => if (0 <=? z) && (z <? 2 ^ bits) then Some z else None
  | None => None
  end.

(** [!x] on an [fp64]: [x] is converted to [bool] ([x != 0]) and negated. *)
Definition lnot_fp64 (x : float) : bool := (x =? 0)%float.

(** A [bool] operand of an [fp64] comparison is converted to [1.0] or [0.0]. *)
Definition fp64_of_bool (b : bool) : float := if b then 1%float else 0%float.

(** ** [std::fmod] *)

Definition SFfmod (x y : spec_float) : spec_float :=
  match x, y with
  | S754_nan, _ | _, S754_nan => S754_nan
  | S754_infinity _, _ => S754_nan
  | _, S754_zero _ => S754_nan
  | S754_zero _, _ => x
  | S754_finite _ _ _, S754_infinity _ => x
  | S754_finite sx mx ex, S754_finite _ my ey =>
      let ez := Z.min ex ey in
      let r := (Zpos mx * 2 ^ (ex - ez)) mod (Zpos my * 2 ^ (ey - ez)) in
      binary_normalize prec emax (cond_Zopp sx r) ez sx
  end.

Definition fmod (x y : float) : float := SF2Prim (SFfmod (Prim2SF x) (Prim2SF y)).

(** ** The constants of the header *)

Definition S_PER_MIN : float := 60%float.
Definition NDS_FPS : float := 59.8261%float.
Definition MIN_BOOT_TIME : float := 14%float.

(** ** The program *)

(** The [offset] has no value when the conversion to [ui8] that computes it
    is out of range. *)
Record TimeData : Type := mkTimeData {
  boot_time : float;
  load_time : float;
  offset : option Z
}.

Definition delay_to_second (t_delay : Z) : float :=
  (fp64_of_uint t_delay / NDS_FPS)%float.

Definition second_to_delay (t_second : float) : option Z :=
  fp64_to_uint 32 (t_second * NDS_FPS)%float.

(** [ASSERT(exp)] is [if(!exp) { __debugbreak(); }] when [DEBUG] is defined
    and nothing otherwise.  The parameter is not parenthesised in the macro:
    [ASSERT(time_data.load_time > 0.0)] is
    [if(!time_data.load_time > 0.0) { __debugbreak(); }], and [!] binds
    tighter than [>]. *)
Definition ASSERT_load_time (debug : bool) (t_load_time : float) : outcome unit :=
  if debug then
    if (0 <? fp64_of_bool (lnot_fp64 t_load_time))%float then Trap else Ret tt
  else Ret tt.

(** Line 106. *)
Definition calc_load_time (t_calibrated_delay t_calibrated_second t_target_delay : Z) : float :=
  (delay_to_second (sub_ui32 t_target_delay t_calibrated_delay)
   + fp64_of_uint t_calibrated_second)%float.

(** Line 112. *)
Definition calc_boot_time (t_target_second : Z) (t_load_time : float) : float :=
  (fmod (fp64_of_uint t_target_second - t_load_time) S_PER_MIN + 0.2)%float.

(** Line 115: [while (boot_time < MIN_BOOT_TIME) { boot_time += S_PER_MIN; }].
    The result carries the number of iterations that were executed. *)
Fixpoint adjust_boot_time (fuel : nat) (t_boot_time : float) (iters : nat)
  : option (float * nat) :=
  if (t_boot_time <? MIN_BOOT_TIME)%float then
    match fuel with
    | O => None
    | S fuel' => adjust_boot_time fuel' (t_boot_time + S_PER_MIN)%float (S iters)
    end
  else Some (t_boot_time, iters).

(** Line 118. *)
Definition calc_offset (t_boot_time t_load_time : float) : option Z :=
  fp64_to_uint 8 ((t_boot_time + t_load_time) / S_PER_MIN)%float.

Definition get_time_data (debug : bool) (fuel : nat)
  (t_calibrated_delay t_calibrated_second t_target_delay t_target_second : Z)
  : outcome TimeData :=
  let lt := calc_load_time t_calibrated_delay t_calibrated_second t_target_delay in
  _ <- ASSERT_load_time debug lt ;;
  bt <- match adjust_boot_time fuel (calc_boot_time t_target_second lt) O with
        | Some (bt, _) => Ret bt
        | None => OutOfFuel
        end ;;
  Ret (mkTimeData bt lt (calc_offset bt lt)).

(** * Binary64 arithmetic on scaled integers

    Every finite binary64 value is an integer multiple of [2^-1074].  The
    proofs below work with the value of a float in units of [2^-1074]: an
    integer, so that [lia] and [nia] apply. *)

(** The value of a finite float, in units of [2^-1074]. *)
Definition SFval (x : spec_float) : Z :=
  match x with
  | S754_finite s m e => cond_Zopp s (Zpos m * 2 ^ (e + 1074))
  | _ => 0
  end.

Definition SFfinite (x : spec_float) : bool :=
  match x with
  | S754_zero _ | S754_finite _ _ _ => true
  | _ => false
  end.

Definition fval (x : float) : Z := SFval (Prim2SF x).

Definition finite (x : float) : bool := SFfinite (Prim2SF x).

(** Scaled by [2^1074], the format is the set of integers [m * 2^j] with
    [m < 2^53]. *)
Definition fmt (a : Z) : Prop :=
  exists m j, 0 <= j /\ 0 <= m < 2 ^ 53 /\ Z.abs a = m * 2 ^ j.

(** Bits dropped when [v] is rounded to 53 significant bits. *)
Definition ndrop (v : Z) : Z := Z.max 0 (Zdigits2 v - 53).

(** Rounding toward zero to 53 significant bits. *)
Definition rdown (v : Z) : Z := v / 2 ^ ndrop v * 2 ^ ndrop v.

(** [faithful N D R]: [R] is the rational [N / D] rounded to a neighbouring
    format number, and is [N / D] itself when that is a format number.  It is
    stated through the format numbers on either side. *)
Definition faithful (N D R : Z) : Prop :=
  forall a, fmt a -> (a * D <= N -> a <= R) /\ (N <= a * D -> R <= a).

(** The shift performed by [shr_fexp]. *)
Definition shift_of (m e : Z) : Z := Z.max 0 (fexp prec emax (Zdigits2 m + e) - e).

(** The mantissa of [NDS_FPS]: the constant is [NDS_FPS_mantissa * 2^-47]. *)
Definition NDS_FPS_mantissa : Z := 8419775052094688.

(** The fudge constant [0.2] of the boot time in units of [2^-40], rounded
    down. *)
Definition fifth : Z := 219902325555.

(** No delay [d] has [d / NDS_FPS] within [10 * 2^-40] of [j + 0.2]: the
    multiples of [2^87] miss the interval of the products with
    [NDS_FPS_mantissa]. *)
Definition delay_far_from_fifth (j : Z) : bool :=
  let lo := (j * 2 ^ 40 + fifth - 10) * NDS_FPS_mantissa in
  let hi := (j * 2 ^ 40 + fifth + 10) * NDS_FPS_mantissa in
  hi <=? (lo / 2 ^ 87 + 1) * 2 ^ 87.

(** ** Tactics *)

(** Positivity of a power of two. *)
Ltac pow2_pos := apply Z.pow_pos_nonneg; lia.

(** * Binary64 arithmetic: proofs *)

(** ** Powers of two and binary digits *)

Lemma pow2_1074_pos : 0 < 2 ^ 1074.
Proof. apply Z.pow_pos_nonneg; lia. Qed.

Lemma lt_cancel_r (a b w : Z) : 0 < w -> a * w < b * w -> a < b.
Proof. intros Hw H. nia. Qed.

Lemma pow2_lt_inv (a b : Z) : 0 <= b -> 2 ^ a < 2 ^ b -> a < b.
Proof.
  intros Hb H. destruct (Z_lt_le_dec a b) as [|Hle]; [assumption|].
  pose proof (Z.pow_le_mono_r 2 b a ltac:(lia) Hle). lia.
Qed.

Lemma div_pow2_bounds (m k n : Z) :
  0 <= n -> n < k -> 2 ^ (k - 1) <= m < 2 ^ k ->
  2 ^ (k - n - 1) <= m / 2 ^ n < 2 ^ (k - n).
Proof.
  intros Hn Hk [Hlo Hhi].
  pose proof (Z.pow_pos_nonneg 2 n ltac:(lia) Hn) as Hp.
  split.
  - apply Z.div_le_lower_bound; [lia|].
    rewrite <- Z.pow_add_r by lia. replace (n + (k - n - 1)) with (k - 1) by lia. assumption.
  - apply Z.div_lt_upper_bound; [lia|].
    rewrite <- Z.pow_add_r by lia. replace (n + (k - n)) with k by lia. assumption.
Qed.

Lemma digits2_pos_bounds (p : positive) :
  2 ^ (Zpos (digits2_pos p) - 1) <= Zpos p < 2 ^ Zpos (digits2_pos p).
Proof.
  induction p as [p IH | p IH |]; cbn [digits2_pos].
  - rewrite Pos2Z.inj_succ.
    replace (Z.succ (Zpos (digits2_pos p)) - 1) with (Z.succ (Zpos (digits2_pos p) - 1)) by lia.
    rewrite !Z.pow_succ_r by lia. lia.
  - rewrite Pos2Z.inj_succ.
    replace (Z.succ (Zpos (digits2_pos p)) - 1) with (Z.succ (Zpos (digits2_pos p) - 1)) by lia.
    rewrite !Z.pow_succ_r by lia. lia.
  - cbn. lia.
Qed.

Lemma Zdigits2_bounds (v : Z) :
  0 < v -> 2 ^ (Zdigits2 v - 1) <= v < 2 ^ Zdigits2 v.
Proof.
  destruct v as [| p | p]; try lia. intros _. apply digits2_pos_bounds.
Qed.

Lemma Zdigits2_pos (v : Z) : 0 < v -> 0 < Zdigits2 v.
Proof. destruct v; cbn; lia. Qed.

Lemma Zdigits2_unique (v k : Z) :
  0 < k -> 2 ^ (k - 1) <= v < 2 ^ k -> Zdigits2 v = k.
Proof.
  intros Hk [Hlo Hhi].
  assert (Hv : 0 < v) by (pose proof (Z.pow_pos_nonneg 2 (k - 1)); lia).
  pose proof (Zdigits2_bounds v Hv) as [Dlo Dhi].
  pose proof (Zdigits2_pos v Hv) as Dp.
  assert (Zdigits2 v - 1 < k) by (apply pow2_lt_inv; lia).
  assert (k - 1 < Zdigits2 v) by (apply pow2_lt_inv; lia).
  lia.
Qed.

Lemma Zdigits2_mul_pow2 (v t : Z) :
  0 < v -> 0 <= t -> Zdigits2 (v * 2 ^ t) = Zdigits2 v + t.
Proof.
  intros Hv Ht.
  pose proof (Zdigits2_bounds v Hv) as [Dlo Dhi].
  pose proof (Zdigits2_pos v Hv) as Dp.
  apply Zdigits2_unique; [lia|].
  replace (Zdigits2 v + t - 1) with ((Zdigits2 v - 1) + t) by lia.
  rewrite !Z.pow_add_r by lia.
  pose proof (Z.pow_pos_nonneg 2 t). nia.
Qed.

Lemma Zdigits2_le (a b : Z) : 0 < a -> a <= b -> Zdigits2 a <= Zdigits2 b.
Proof.
  intros Ha Hab.
  pose proof (Zdigits2_bounds a Ha) as [Alo Ahi].
  pose proof (Zdigits2_bounds b ltac:(lia)) as [Blo Bhi].
  pose proof (Zdigits2_pos b ltac:(lia)).
  assert (Zdigits2 a - 1 < Zdigits2 b) by (apply pow2_lt_inv; lia).
  lia.
Qed.

(** ** Integers with at most 53 significant bits *)

Lemma ndrop_nonneg v : 0 <= ndrop v.
Proof. unfold ndrop; lia. Qed.

Lemma rdown_le v : rdown v <= v.
Proof.
  unfold rdown. pose proof (ndrop_nonneg v).
  pose proof (Z.pow_pos_nonneg 2 (ndrop v) ltac:(lia) H).
  pose proof (Z.mul_div_le v (2 ^ ndrop v) ltac:(lia)). lia.
Qed.

Lemma rdown_gt v : v < rdown v + 2 ^ ndrop v.
Proof.
  unfold rdown. pose proof (ndrop_nonneg v).
  pose proof (Z.pow_pos_nonneg 2 (ndrop v) ltac:(lia) H).
  pose proof (Z.mod_pos_bound v (2 ^ ndrop v) ltac:(lia)).
  pose proof (Z.div_mod v (2 ^ ndrop v) ltac:(lia)). lia.
Qed.

(** Rounding down only looks at the leading 53 bits. *)
Lemma rdown_same (q t w : Z) :
  0 <= t -> 53 <= Zdigits2 q -> 0 < q ->
  q * 2 ^ t <= w < q * 2 ^ t + 2 ^ t ->
  ndrop w = ndrop (q * 2 ^ t) /\ rdown w = rdown (q * 2 ^ t).
Proof.
  intros Ht Hd Hq [Hlo Hhi].
  pose proof (Z.pow_pos_nonneg 2 t ltac:(lia) Ht) as Pt.
  pose proof (Zdigits2_bounds q Hq) as [B1 B2]. set (k := Zdigits2 q) in *.
  assert (Dv : Zdigits2 (q * 2 ^ t) = k + t) by (apply Zdigits2_mul_pow2; lia).
  assert (Dw : Zdigits2 w = k + t).
  { apply Zdigits2_unique; [lia|].
    replace (k + t - 1) with ((k - 1) + t) by lia. rewrite !Z.pow_add_r by lia.
    split; nia. }
  assert (En : ndrop w = ndrop (q * 2 ^ t)) by (unfold ndrop; rewrite Dv, Dw; reflexivity).
  split; [assumption|]. unfold rdown. rewrite En. f_equal.
  assert (Ed : ndrop (q * 2 ^ t) = (k - 53) + t) by (unfold ndrop; rewrite Dv; lia).
  rewrite Ed. rewrite (Z.add_comm (k - 53) t), Z.pow_add_r by lia.
  rewrite <- !Z.div_div by (try apply Z.pow_pos_nonneg; lia).
  f_equal. rewrite Z.div_mul by lia.
  symmetry. apply Z.div_unique_pos with (w - q * 2 ^ t); lia.
Qed.

Lemma fmt_opp a : fmt a -> fmt (- a).
Proof. unfold fmt. rewrite Z.abs_opp. trivial. Qed.

Lemma fmt_0 : fmt 0.
Proof. exists 0, 0. cbn. lia. Qed.

Lemma fmt_small_mul (n t : Z) : 0 <= n < 2 ^ 53 -> 0 <= t -> fmt (n * 2 ^ t).
Proof.
  intros Hn Ht. exists n, t. split; [assumption|]. split; [assumption|].
  apply Z.abs_eq. pose proof (Z.pow_pos_nonneg 2 t ltac:(lia) Ht). nia.
Qed.

Lemma fmt_dyadic (n t : Z) : - 2 ^ 53 < n < 2 ^ 53 -> 0 <= t -> fmt (n * 2 ^ t).
Proof.
  intros Hn Ht. destruct (Z_le_gt_dec 0 n).
  - apply fmt_small_mul; lia.
  - replace (n * 2 ^ t) with (- (- n * 2 ^ t)) by lia.
    apply fmt_opp, fmt_small_mul; lia.
Qed.

Lemma fmt_int (n : Z) : - 2 ^ 53 < n < 2 ^ 53 -> fmt (n * 2 ^ 1074).
Proof. intros Hn. apply fmt_dyadic; lia. Qed.

(** A positive format number of at least [k] digits is a multiple of
    [2^(k-53)]. *)
Lemma fmt_multiple (a k : Z) :
  fmt a -> 0 <= k -> 2 ^ (k + 52) <= Z.abs a -> (2 ^ k | a).
Proof.
  intros (m & j & Hj & Hm & Ha) Hk Hlo.
  apply Z.divide_abs_r. rewrite Ha.
  assert (k <= j).
  { destruct (Z_le_gt_dec k j) as [|Hgt]; [assumption|exfalso].
    assert (2 ^ j * 2 ^ 53 <= 2 ^ (k + 52)).
    { rewrite <- Z.pow_add_r by lia. apply Z.pow_le_mono_r; lia. }
    pose proof (Z.pow_pos_nonneg 2 j ltac:(lia) Hj). nia. }
  exists (m * 2 ^ (j - k)). rewrite <- Z.mul_assoc, <- Z.pow_add_r by lia.
  do 2 f_equal. lia.
Qed.

(** No format number lies strictly between [rdown v] and its successor. *)
Lemma fmt_gap (v a : Z) :
  0 < v -> fmt a -> rdown v < a -> rdown v + 2 ^ ndrop v <= a.
Proof.
  intros Hv Fa Hlt.
  pose proof (ndrop_nonneg v) as Hn.
  pose proof (Z.pow_pos_nonneg 2 (ndrop v) ltac:(lia) Hn) as Hp.
  assert (Hdiv : (2 ^ ndrop v | a)).
  { destruct (Z.eq_dec (ndrop v) 0) as [E|NE].
    - rewrite E. apply Z.divide_1_l.
    - apply fmt_multiple; [assumption|lia|].
      assert (Hd : ndrop v = Zdigits2 v - 53) by (unfold ndrop in *; lia).
      pose proof (Zdigits2_bounds v Hv) as [Dlo Dhi].
      replace (ndrop v + 52) with (Zdigits2 v - 1) by lia.
      (* rdown v >= 2^(digits-1) since that power is a multiple of 2^ndrop *)
      assert (2 ^ (Zdigits2 v - 1) <= rdown v).
      { unfold rdown.
        replace (2 ^ (Zdigits2 v - 1)) with (2 ^ 52 * 2 ^ ndrop v)
          by (rewrite <- Z.pow_add_r by lia; f_equal; lia).
        apply Z.mul_le_mono_nonneg_r; [lia|].
        apply Z.div_le_lower_bound; [lia|].
        replace (2 ^ ndrop v * 2 ^ 52) with (2 ^ (Zdigits2 v - 1))
          by (rewrite <- Z.pow_add_r by lia; f_equal; lia).
        assumption. }
      lia. }
  destruct Hdiv as [c Hc]. unfold rdown in *.
  set (q := v / 2 ^ ndrop v) in *. set (P := 2 ^ ndrop v) in *.
  assert (q < c) by nia. nia.
Qed.

Lemma fmt_gap_le (v a : Z) :
  0 < v -> fmt a -> a < rdown v + 2 ^ ndrop v -> a <= rdown v.
Proof.
  intros Hv Fa Hlt. destruct (Z_le_gt_dec a (rdown v)) as [|Hgt]; [assumption|].
  pose proof (fmt_gap v a Hv Fa ltac:(lia)). lia.
Qed.

(** ** Faithful rounding *)

Lemma faithful_pos (N D R : Z) :
  0 < D -> D <= N ->
  rdown (N / D) <= R <= rdown (N / D) + 2 ^ ndrop (N / D) ->
  (N = rdown (N / D) * D -> R = rdown (N / D)) ->
  faithful N D R.
Proof.
  intros HD HN [Rlo Rhi] Hex a Fa.
  set (V := N / D) in *.
  assert (HV : 0 < V) by (apply Z.div_str_pos; lia).
  pose proof (rdown_le V) as Hle. pose proof (rdown_gt V) as Hgt.
  assert (HVD : V * D <= N) by (unfold V; rewrite Z.mul_comm; apply Z.mul_div_le; lia).
  split; intros H.
  - assert (a <= V) by (apply Z.div_le_lower_bound; lia).
    pose proof (fmt_gap_le V a HV Fa ltac:(lia)). lia.
  - destruct (Z.eq_dec N (rdown V * D)) as [E|NE].
    + rewrite (Hex E). nia.
    + assert (rdown V < a) by nia.
      pose proof (fmt_gap V a HV Fa ltac:(lia)). lia.
Qed.

Lemma faithful_opp (N D R : Z) : faithful N D R -> faithful (- N) D (- R).
Proof.
  intros H a Fa. destruct (H (- a) (fmt_opp a Fa)) as [H1 H2].
  split; intros; [ assert (R <= - a) by (apply H2; lia) | assert (- a <= R) by (apply H1; lia) ]; lia.
Qed.

Lemma faithful_0 (D : Z) : 0 < D -> faithful 0 D 0.
Proof. intros HD a _. split; intros; nia. Qed.

Lemma faithful_refl (N : Z) : faithful N 1 N.
Proof. intros a _. lia. Qed.

Lemma faithful_ge (N D R a : Z) : faithful N D R -> fmt a -> a * D <= N -> a <= R.
Proof. intros H Fa. apply (H a Fa). Qed.

Lemma faithful_le (N D R a : Z) : faithful N D R -> fmt a -> N <= a * D -> R <= a.
Proof. intros H Fa. apply (H a Fa). Qed.

(** A format number is its own faithful rounding. *)
Lemma faithful_exact (D R R' : Z) : 0 < D -> fmt R -> faithful (R * D) D R' -> R' = R.
Proof.
  intros HD FR H. destruct (H R FR) as [H1 H2].
  pose proof (H1 ltac:(lia)). pose proof (H2 ltac:(lia)). lia.
Qed.

Lemma faithful_scale (N D R c : Z) : 0 < c -> faithful (N * c) (D * c) R -> faithful N D R.
Proof.
  intros Hc H a Fa. destruct (H a Fa) as [H1 H2].
  split; intros H0; [apply H1 | apply H2]; nia.
Qed.

Lemma faithful_gt_inv (N D R a : Z) : faithful N D R -> fmt a -> a < R -> a * D < N.
Proof.
  intros H Fa Hlt. destruct (Z_lt_le_dec (a * D) N) as [|Hle]; [assumption|].
  pose proof (faithful_le _ _ _ _ H Fa Hle). lia.
Qed.

Lemma faithful_lt_inv (N D R a : Z) : faithful N D R -> fmt a -> R < a -> N < a * D.
Proof.
  intros H Fa Hlt. destruct (Z_lt_le_dec N (a * D)) as [|Hle]; [assumption|].
  pose proof (faithful_ge _ _ _ _ H Fa Hle). lia.
Qed.

(** ** Shifting a mantissa *)

Lemma shr_1_m (r : shr_record) : 0 <= shr_m r -> shr_m (shr_1 r) = shr_m r / 2.
Proof.
  destruct r as [m r s]; cbn [shr_m]. intros Hm.
  destruct m as [|[p|p|]|p]; try lia; cbn [shr_1 shr_m].
  - reflexivity.
  - rewrite Pos2Z.inj_xI. apply Z.div_unique_pos with 1; lia.
  - rewrite Pos2Z.inj_xO. apply Z.div_unique_pos with 0; lia.
  - reflexivity.
Qed.

Lemma shr_1_exact (r : shr_record) :
  0 <= shr_m r -> shr_r r = false -> shr_s r = false -> (2 | shr_m r) ->
  shr_r (shr_1 r) = false /\ shr_s (shr_1 r) = false.
Proof.
  destruct r as [m r s]; cbn [shr_m shr_r shr_s]. intros Hm -> -> [c Hc].
  destruct m as [|[p|p|]|p]; try lia; cbn; auto.
Qed.

Lemma iter_shr_1 (p : positive) : forall r : shr_record,
  0 <= shr_m r ->
  shr_m (iter_pos shr_1 p r) = shr_m r / 2 ^ Zpos p /\
  (shr_r r = false -> shr_s r = false -> (2 ^ Zpos p | shr_m r) ->
   shr_r (iter_pos shr_1 p r) = false /\ shr_s (iter_pos shr_1 p r) = false).
Proof.
  assert (Hdd : forall m a b, 0 <= m -> 0 < a -> 0 < b -> (a * b | m) -> (a | m) /\ (b | m / a)).
  { intros m a b Hm Ha Hb [c Hc]. split.
    - exists (c * b). lia.
    - exists c. subst m. replace (c * (a * b)) with (c * b * a) by lia.
      rewrite Z.div_mul by lia. reflexivity. }
  induction p as [p IH | p IH |]; intros r Hm; cbn [iter_pos].
  - pose proof (shr_1_m r Hm) as H1.
    assert (Hm1 : 0 <= shr_m (shr_1 r)) by (rewrite H1; apply Z.div_pos; lia).
    destruct (IH _ Hm1) as [H2 E2].
    assert (Hm2 : 0 <= shr_m (iter_pos shr_1 p (shr_1 r))).
    { rewrite H2. apply Z.div_pos; [lia|]. apply Z.pow_pos_nonneg; lia. }
    destruct (IH _ Hm2) as [H3 E3].
    pose proof (Z.pow_pos_nonneg 2 (Zpos p) ltac:(lia) ltac:(lia)) as Hp.
    assert (Epow : 2 ^ Zpos p~1 = 2 * (2 ^ Zpos p * 2 ^ Zpos p)).
    { rewrite (Pos2Z.inj_xI p), Z.pow_add_r, Z.pow_mul_r by lia.
      change (2 ^ 2) with 4. change (2 ^ 1) with 2.
      replace 4 with (2 * 2) by lia. rewrite Z.pow_mul_l. lia. }
    split.
    + rewrite H3, H2, H1, Epow. rewrite !Z.div_div; lia.
    + intros Hr Hs Hd. rewrite Epow in Hd.
      assert (Hpp : 0 < 2 ^ Zpos p * 2 ^ Zpos p) by nia.
      destruct (Hdd (shr_m r) 2 (2 ^ Zpos p * 2 ^ Zpos p) Hm eq_refl Hpp Hd) as [D1 D2].
      rewrite <- H1 in D2.
      destruct (Hdd _ _ _ Hm1 Hp Hp D2) as [D3 D4]. rewrite <- H2 in D4.
      destruct (shr_1_exact r Hm Hr Hs D1) as [R1 S1].
      destruct (E2 R1 S1 D3) as [R2 S2].
      exact (E3 R2 S2 D4).
  - destruct (IH _ Hm) as [H2 E2].
    assert (Hm2 : 0 <= shr_m (iter_pos shr_1 p r)).
    { rewrite H2. apply Z.div_pos; [lia|]. apply Z.pow_pos_nonneg; lia. }
    destruct (IH _ Hm2) as [H3 E3].
    pose proof (Z.pow_pos_nonneg 2 (Zpos p) ltac:(lia) ltac:(lia)) as Hp.
    assert (Epow : 2 ^ Zpos p~0 = 2 ^ Zpos p * 2 ^ Zpos p).
    { rewrite (Pos2Z.inj_xO p), Z.pow_mul_r by lia.
      change (2 ^ 2) with 4. replace 4 with (2 * 2) by lia. rewrite Z.pow_mul_l. lia. }
    split.
    + rewrite H3, H2, Epow. rewrite !Z.div_div; lia.
    + intros Hr Hs Hd. rewrite Epow in Hd.
      destruct (Hdd _ _ _ Hm Hp Hp Hd) as [D3 D4]. rewrite <- H2 in D4.
      destruct (E2 Hr Hs D3) as [R2 S2].
      exact (E3 R2 S2 D4).
  - split.
    + apply shr_1_m; assumption.
    + intros Hr Hs Hd. apply shr_1_exact; assumption.
Qed.

Lemma round_nearest_even_range (m : Z) (l : location) :
  m <= round_nearest_even m l <= m + 1.
Proof.
  destruct l as [|[]]; cbn; try lia. destruct (Z.even m); lia.
Qed.

Lemma loc_of_shr_record_exact (r : shr_record) :
  shr_r r = false -> shr_s r = false -> loc_of_shr_record r = loc_Exact.
Proof. destruct r as [m [] []]; cbn; congruence. Qed.

Lemma shr_fexp_spec (m e : Z) (l : location) :
  0 <= m ->
  exists r,
    shr_fexp prec emax m e l = (r, e + shift_of m e) /\
    shr_m r = m / 2 ^ shift_of m e /\
    (l = loc_Exact -> (2 ^ shift_of m e | m) -> loc_of_shr_record r = loc_Exact).
Proof.
  intros Hm. unfold shr_fexp, shift_of, shr.
  destruct (fexp prec emax (Zdigits2 m + e) - e) as [|p|p] eqn:En.
  - eexists; split; [rewrite Z.add_0_r; reflexivity|]. cbn [Z.max].
    split.
    + destruct l as [|[]]; cbn; rewrite Z.div_1_r; reflexivity.
    + intros -> _. reflexivity.
  - replace (Z.max 0 (Zpos p)) with (Zpos p) by lia.
    assert (Hr : 0 <= shr_m (shr_record_of_loc m l)) by (destruct l as [|[]]; cbn; lia).
    destruct (iter_shr_1 p _ Hr) as [H1 E1].
    eexists; split; [reflexivity|]. split.
    + rewrite H1. destruct l as [|[]]; reflexivity.
    + intros -> Hd. apply loc_of_shr_record_exact; apply E1; auto.
  - replace (Z.max 0 (Zneg p)) with 0 by lia.
    eexists; split; [rewrite Z.add_0_r; reflexivity|].
    split.
    + destruct l as [|[]]; cbn; rewrite Z.div_1_r; reflexivity.
    + intros -> _. reflexivity.
Qed.

Lemma fexp_eq (z : Z) : fexp prec emax z = Z.max (z - 53) (-1074).
Proof. reflexivity. Qed.

Lemma shift_of_eq (m e : Z) :
  -1074 <= e -> shift_of m e = Z.max 0 (Zdigits2 m - 53).
Proof. intros He. unfold shift_of. rewrite fexp_eq. lia. Qed.

Lemma iter_xO (d m : positive) : Zpos (Pos.iter xO m d) = Zpos m * 2 ^ Zpos d.
Proof.
  induction d as [|d IH] using Pos.peano_ind.
  - cbn. lia.
  - rewrite Pos.iter_succ, Pos2Z.inj_xO, IH, Pos2Z.inj_succ, Z.pow_succ_r by lia. lia.
Qed.

Lemma shl_align_spec (mx : positive) (ex ex' : Z) :
  exists mz ez,
    shl_align mx ex ex' = (mz, ez) /\ ez = Z.min ex ex' /\
    Zpos mz = Zpos mx * 2 ^ (ex - ez).
Proof.
  unfold shl_align. destruct (ex' - ex) as [|d|d] eqn:E.
  - exists mx, ex. repeat split; [lia|]. rewrite Z.sub_diag. cbn. lia.
  - exists mx, ex. repeat split; [lia|]. rewrite Z.sub_diag. cbn. lia.
  - eexists _, ex'. split; [reflexivity|]. split; [lia|].
    rewrite iter_xO. do 2 f_equal. lia.
Qed.

(** ** Rounding a mantissa

    [binary_round_aux] returns one of the two format numbers around its
    argument, and the argument itself when that is a format number. *)

Lemma binary_round_aux_spec (s : bool) (M e : Z) (l : location) :
  0 < M -> -1074 <= e -> M * 2 ^ (e + 1074) < 2 ^ 2097 ->
  53 <= Zdigits2 M \/ e = -1074 ->
  exists m e',
    binary_round_aux prec emax s M e l = S754_finite s m e' /\
    valid_binary (S754_finite s m e') = true /\
    -1074 <= e' /\
    rdown (M * 2 ^ (e + 1074)) <= Zpos m * 2 ^ (e' + 1074)
      <= rdown (M * 2 ^ (e + 1074)) + 2 ^ ndrop (M * 2 ^ (e + 1074)) /\
    (l = loc_Exact -> rdown (M * 2 ^ (e + 1074)) = M * 2 ^ (e + 1074) ->
     Zpos m * 2 ^ (e' + 1074) = M * 2 ^ (e + 1074)).
Proof.
  intros HM He Hov Hnorm.
  set (k := Zdigits2 M) in *. set (t := e + 1074) in *.
  pose proof (Zdigits2_bounds M HM) as HMb. fold k in HMb.
  pose proof (Zdigits2_pos M HM) as Hk. fold k in Hk.
  assert (Ht : 0 <= t) by (unfold t; lia).
  pose proof (Z.pow_pos_nonneg 2 t ltac:(lia) Ht) as Hpt.
  assert (HdV : Zdigits2 (M * 2 ^ t) = k + t) by (apply Zdigits2_mul_pow2; lia).
  assert (Hkt : k + t <= 2097).
  { assert (HV : 0 < M * 2 ^ t) by nia.
    pose proof (Zdigits2_bounds _ HV) as [B1 _]. rewrite HdV in B1.
    assert (k + t - 1 < 2097) by (apply pow2_lt_inv; lia). lia. }
  set (n1 := Z.max 0 (k - 53)).
  assert (Hn1 : 0 <= n1) by (unfold n1; lia).
  pose proof (Z.pow_pos_nonneg 2 n1 ltac:(lia) Hn1) as Hpn1.
  (* first shift *)
  destruct (shr_fexp_spec M e l ltac:(lia)) as (r1 & E1 & Hm1 & Hx1).
  rewrite shift_of_eq in E1, Hm1, Hx1 by assumption. fold k n1 in E1, Hm1, Hx1.
  set (k1 := k - n1).
  assert (Hk1 : 0 < k1 <= 53) by (unfold k1, n1; lia).
  assert (Hm1b : 2 ^ (k1 - 1) <= shr_m r1 < 2 ^ k1).
  { rewrite Hm1. unfold k1.
    apply div_pow2_bounds; unfold n1; lia. }
  pose proof (Z.pow_pos_nonneg 2 (k1 - 1) ltac:(lia) ltac:(lia)) as Hpk1.
  set (mr := round_nearest_even (shr_m r1) (loc_of_shr_record r1)).
  pose proof (round_nearest_even_range (shr_m r1) (loc_of_shr_record r1)) as Hmr. fold mr in Hmr.
  assert (Hmr0 : 0 < mr) by lia.
  (* second shift *)
  destruct (shr_fexp_spec mr (e + n1) loc_Exact ltac:(lia)) as (r2 & E2 & Hm2 & _).
  rewrite shift_of_eq in E2, Hm2 by lia.
  set (n2 := Z.max 0 (Zdigits2 mr - 53)) in *.
  assert (Hcases : (n2 = 0 /\ Zdigits2 mr <= 53 /\ k1 <= Zdigits2 mr /\ shr_m r2 = mr)
                \/ (n2 = 1 /\ k1 = 53 /\ mr = 2 ^ 53 /\ shr_m r2 = 2 ^ 52)).
  { destruct (Z_lt_le_dec mr (2 ^ k1)) as [Hlt|Hge].
    - left. assert (Zdigits2 mr = k1) by (apply Zdigits2_unique; lia).
      assert (n2 = 0) by (unfold n2; lia).
      repeat split; try lia. rewrite Hm2, H0. apply Z.div_1_r.
    - assert (Emr : mr = 2 ^ k1) by lia.
      assert (Zdigits2 mr = k1 + 1).
      { apply Zdigits2_unique; [lia|]. rewrite Emr.
        replace (k1 + 1 - 1) with k1 by lia. rewrite Z.pow_add_r by lia. lia. }
      destruct (Z.eq_dec k1 53) as [E53|N53].
      + right. assert (n2 = 1) by (unfold n2; lia).
        repeat split; try lia.
        * rewrite Emr, E53. reflexivity.
        * rewrite Hm2, H0, Emr, E53. reflexivity.
      + left. assert (n2 = 0) by (unfold n2; lia).
        repeat split; try lia. rewrite Hm2, H0. apply Z.div_1_r. }
  (* the result *)
  assert (Hres : exists m, shr_m r2 = Zpos m).
  { destruct Hcases as [(_ & _ & _ & ->) | (_ & _ & _ & ->)].
    - destruct mr; try lia. eauto.
    - eexists. reflexivity. }
  destruct Hres as [m Hm].
  assert (He2 : e + n1 + n2 <= 971).
  { destruct Hcases as [(-> & _) | (-> & ? & _)]; unfold n1, k1 in *; lia. }
  exists m, (e + n1 + n2).
  assert (Eval : Zpos m * 2 ^ (e + n1 + n2 + 1074) = mr * 2 ^ (n1 + t)).
  { rewrite <- Hm. destruct Hcases as [(-> & _ & _ & ->) | (-> & _ & -> & ->)].
    - f_equal. f_equal. unfold t. lia.
    - replace (e + n1 + 1 + 1074) with (1 + (n1 + t)) by (unfold t; lia).
      rewrite Z.pow_add_r by lia. change (2 ^ 1) with 2. change (2 ^ 53) with (2 ^ 52 * 2). lia. }
  assert (Hrd : rdown (M * 2 ^ t) = shr_m r1 * 2 ^ (n1 + t) /\ ndrop (M * 2 ^ t) = n1 + t
                \/ (k < 53 /\ t = 0 /\ n1 = 0 /\ rdown (M * 2 ^ t) = M /\ ndrop (M * 2 ^ t) = 0
                    /\ shr_m r1 = M)).
  { destruct (Z_lt_le_dec k 53) as [Hlt|Hge].
    - right. assert (t = 0) by (unfold t; lia). assert (n1 = 0) by (unfold n1; lia).
      assert (En : ndrop (M * 2 ^ t) = 0) by (unfold ndrop; rewrite HdV; lia).
      repeat split; try assumption.
      + unfold rdown. rewrite En, H. cbn. rewrite Z.mul_1_r, Z.div_1_r. lia.
      + rewrite Hm1, H0. apply Z.div_1_r.
    - left. assert (En : ndrop (M * 2 ^ t) = n1 + t) by (unfold ndrop, n1; rewrite HdV; lia).
      split; [|assumption]. unfold rdown. rewrite En, Hm1.
      rewrite (Z.pow_add_r 2 n1 t) at 1 by lia.
      rewrite Z.div_mul_cancel_r by lia. reflexivity. }
  split; [|split; [|split; [|split]]].
  - unfold binary_round_aux. rewrite E1. fold mr. rewrite E2, Hm.
    replace (e + n1 + n2 <=? emax - prec) with true
      by (symmetry; apply Z.leb_le; unfold emax, prec; lia).
    reflexivity.
  - cbn [valid_binary]. unfold bounded, canonical_mantissa.
    apply andb_true_intro; split; [|apply Z.leb_le; unfold emax, prec; lia].
    apply Z.eqb_eq. rewrite fexp_eq.
    change (Zpos (digits2_pos m)) with (Zdigits2 (Zpos m)). rewrite <- Hm.
    destruct Hcases as [(E0 & D1 & D2 & ->) | (E0 & _ & _ & ->)].
    + unfold k1, n1 in *. lia.
    + change (Zdigits2 (2 ^ 52)) with 53. lia.
  - lia.
  - rewrite Eval. fold t.
    destruct Hrd as [[-> ->] | (_ & T0 & N0 & -> & -> & <-)].
    + pose proof (Z.pow_pos_nonneg 2 (n1 + t) ltac:(lia) ltac:(lia)) as Hp.
      clear - Hmr Hp. nia.
    + rewrite N0, T0. cbn. lia.
  - intros -> Hexact. fold t in Hexact |- *. rewrite Eval.
    assert (Hdiv : (2 ^ n1 | M)).
    { destruct Hrd as [[Erd _] | (_ & _ & N0 & _)].
      - rewrite Erd in Hexact. rewrite Z.pow_add_r, Z.mul_assoc in Hexact by lia.
        exists (shr_m r1). clear - Hexact Hpt. nia.
      - rewrite N0. apply Z.divide_1_l. }
    assert (Emr : mr = shr_m r1) by (unfold mr; rewrite (Hx1 eq_refl Hdiv); reflexivity).
    rewrite Emr.
    destruct Hrd as [[Erd _] | (_ & T0 & N0 & _ & _ & ->)].
    + congruence.
    + rewrite N0, T0. reflexivity.
Qed.

Lemma binary_round_aux_sign (s : bool) (M e : Z) (l : location) :
  0 <= M ->
  match binary_round_aux prec emax s M e l with
  | S754_zero s' | S754_infinity s' | S754_finite s' _ _ => s' = s
  | S754_nan => False
  end.
Proof.
  intros HM. unfold binary_round_aux.
  destruct (shr_fexp_spec M e l HM) as (r1 & -> & Hm1 & _).
  pose proof (round_nearest_even_range (shr_m r1) (loc_of_shr_record r1)) as Hr.
  assert (H1 : 0 <= shr_m r1).
  { rewrite Hm1. apply Z.div_pos; [assumption|]. apply Z.pow_pos_nonneg; [lia|].
    unfold shift_of. lia. }
  destruct (shr_fexp_spec (round_nearest_even (shr_m r1) (loc_of_shr_record r1))
              (e + shift_of M e) loc_Exact ltac:(lia)) as (r2 & -> & Hm2 & _).
  assert (H2 : 0 <= shr_m r2).
  { rewrite Hm2. apply Z.div_pos; [lia|]. apply Z.pow_pos_nonneg; [lia|].
    unfold shift_of. lia. }
  destruct (shr_m r2) as [|p|p]; try lia; [reflexivity|].
  destruct (_ <=? _); reflexivity.
Qed.

Lemma binary_round_spec (s : bool) (mx : positive) (ex : Z) :
  -1074 <= ex -> Zpos mx * 2 ^ (ex + 1074) < 2 ^ 2097 ->
  exists m e',
    binary_round prec emax s mx ex = S754_finite s m e' /\
    valid_binary (S754_finite s m e') = true /\
    -1074 <= e' /\
    rdown (Zpos mx * 2 ^ (ex + 1074)) <= Zpos m * 2 ^ (e' + 1074)
      <= rdown (Zpos mx * 2 ^ (ex + 1074)) + 2 ^ ndrop (Zpos mx * 2 ^ (ex + 1074)) /\
    (rdown (Zpos mx * 2 ^ (ex + 1074)) = Zpos mx * 2 ^ (ex + 1074) ->
     Zpos m * 2 ^ (e' + 1074) = Zpos mx * 2 ^ (ex + 1074)).
Proof.
  intros He Hov. unfold binary_round.
  destruct (shl_align_spec mx ex (fexp prec emax (Zpos (digits2_pos mx) + ex)))
    as (mz & ez & -> & Hez & Hmz).
  rewrite fexp_eq in Hez.
  change (Zpos (digits2_pos mx)) with (Zdigits2 (Zpos mx)) in Hez.
  assert (Hval : Zpos mz * 2 ^ (ez + 1074) = Zpos mx * 2 ^ (ex + 1074)).
  { rewrite Hmz, <- Z.mul_assoc, <- Z.pow_add_r by lia. do 2 f_equal. lia. }
  assert (Hdig : Zdigits2 (Zpos mz) = Zdigits2 (Zpos mx) + (ex - ez)).
  { rewrite Hmz. apply Zdigits2_mul_pow2; lia. }
  pose proof (Zdigits2_pos (Zpos mx) ltac:(lia)).
  destruct (binary_round_aux_spec s (Zpos mz) ez loc_Exact) as (m & e' & E & Hv & He' & Hb & Hx);
    try lia.
  exists m, e'. rewrite <- Hval. repeat split; try assumption; try lia. auto.
Qed.

Lemma binary_normalize_spec (M e : Z) (sz : bool) :
  -1074 <= e -> Z.abs M * 2 ^ (e + 1074) < 2 ^ 2097 ->
  SFfinite (binary_normalize prec emax M e sz) = true /\
  valid_binary (binary_normalize prec emax M e sz) = true /\
  faithful (M * 2 ^ (e + 1074)) 1 (SFval (binary_normalize prec emax M e sz)).
Proof.
  intros He Hov.
  pose proof (Z.pow_pos_nonneg 2 (e + 1074) ltac:(lia) ltac:(lia)) as Hp.
  destruct M as [|mx|mx]; cbn [binary_normalize].
  - split; [reflexivity|split; [reflexivity|]]. cbn [SFval]. apply faithful_0. lia.
  - destruct (binary_round_spec false mx e He Hov) as (m & e' & -> & Hv & He' & Hb & Hx).
    split; [reflexivity|split; [assumption|]]. cbn [SFval cond_Zopp].
    assert (0 < Zpos mx * 2 ^ (e + 1074)) by nia.
    apply faithful_pos; rewrite ?Z.div_1_r; try lia.
  - change (Z.abs (Zneg mx)) with (Zpos mx) in Hov.
    destruct (binary_round_spec true mx e He Hov) as (m & e' & -> & Hv & He' & Hb & Hx).
    split; [reflexivity|split; [assumption|]]. cbn [SFval cond_Zopp].
    replace (Zneg mx * 2 ^ (e + 1074)) with (- (Zpos mx * 2 ^ (e + 1074))) by lia.
    apply faithful_opp.
    assert (0 < Zpos mx * 2 ^ (e + 1074)) by nia.
    apply faithful_pos; rewrite ?Z.div_1_r; try lia.
Qed.

(** ** Valid floats *)

Lemma valid_finite_inv (s : bool) (m : positive) (e : Z) :
  valid_binary (S754_finite s m e) = true ->
  -1074 <= e <= 971 /\ Zdigits2 (Zpos m) <= 53 /\ (-1074 < e -> Zdigits2 (Zpos m) = 53).
Proof.
  cbn [valid_binary]. unfold bounded, canonical_mantissa. intros H.
  apply andb_prop in H. destruct H as [H1 H2].
  apply Z.eqb_eq in H1. apply Z.leb_le in H2. rewrite fexp_eq in H1.
  change (Zpos (digits2_pos m)) with (Zdigits2 (Zpos m)) in H1.
  unfold emax, prec in H2. lia.
Qed.

Lemma valid_exponent (x : spec_float) s m e :
  x = S754_finite s m e -> valid_binary x = true -> -1074 <= e.
Proof. intros -> H. apply valid_finite_inv in H. lia. Qed.

Lemma valid_mantissa (s : bool) (m : positive) (e : Z) :
  valid_binary (S754_finite s m e) = true -> Zpos m < 2 ^ 53.
Proof.
  intros V. apply valid_finite_inv in V. destruct V as (_ & Hd & _).
  pose proof (Zdigits2_bounds (Zpos m) ltac:(lia)) as [_ B].
  pose proof (Z.pow_le_mono_r 2 _ 53 ltac:(lia) Hd). lia.
Qed.

Lemma valid_normal (s : bool) (m : positive) (e : Z) :
  valid_binary (S754_finite s m e) = true ->
  2 ^ 53 <= Zpos m * 2 ^ (e + 1074) ->
  Zdigits2 (Zpos m) = 53.
Proof.
  intros V H. apply valid_finite_inv in V. destruct V as (He & Hd & Hn).
  destruct (Z.eq_dec e (-1074)) as [E|NE]; [|apply Hn; lia].
  subst e. change (2 ^ (-1074 + 1074)) with 1 in H.
  pose proof (Zdigits2_bounds (Zpos m) ltac:(lia)) as [_ B].
  pose proof (Z.pow_le_mono_r 2 _ 53 ltac:(lia) Hd). lia.
Qed.

Lemma normal_mantissa (m : positive) :
  Zdigits2 (Zpos m) = 53 -> 2 ^ 52 <= Zpos m < 2 ^ 53.
Proof.
  intros H. pose proof (Zdigits2_bounds (Zpos m) ltac:(lia)) as B.
  rewrite H in B. exact B.
Qed.

Lemma SFval_abs (s : bool) (m : positive) (e : Z) :
  -1074 <= e -> Z.abs (SFval (S754_finite s m e)) = Zpos m * 2 ^ (e + 1074).
Proof.
  intros He. pose proof (Z.pow_pos_nonneg 2 (e + 1074) ltac:(lia) ltac:(lia)).
  cbn [SFval]. destruct s; cbn [cond_Zopp]; nia.
Qed.

Lemma SFval_fmt (x : spec_float) : valid_binary x = true -> fmt (SFval x).
Proof.
  destruct x as [s|s| |s m e]; cbn [SFval]; try (intros _; apply fmt_0).
  intros H. apply valid_finite_inv in H. destruct H as (He & Hd & _).
  assert (fmt (Zpos m * 2 ^ (e + 1074))).
  { exists (Zpos m), (e + 1074). split; [lia|]. split; [split; [lia|]|].
    - pose proof (Zdigits2_bounds (Zpos m) ltac:(lia)) as [_ B].
      pose proof (Z.pow_le_mono_r 2 _ 53 ltac:(lia) Hd). lia.
    - apply Z.abs_eq. pose proof (Z.pow_pos_nonneg 2 (e + 1074) ltac:(lia) ltac:(lia)). nia. }
  destruct s; cbn [cond_Zopp]; [apply fmt_opp|]; assumption.
Qed.

Lemma SFval_bound (x : spec_float) : valid_binary x = true -> Z.abs (SFval x) < 2 ^ 2098.
Proof.
  destruct x as [s|s| |s m e]; cbn [SFval]; try (intros _; cbn; lia).
  intros H. apply valid_finite_inv in H. destruct H as (He & Hd & _).
  pose proof (Zdigits2_bounds (Zpos m) ltac:(lia)) as [_ B].
  pose proof (Z.pow_le_mono_r 2 _ 53 ltac:(lia) Hd).
  pose proof (Z.pow_le_mono_r 2 (e + 1074) 2045 ltac:(lia) ltac:(lia)).
  pose proof (Z.pow_pos_nonneg 2 (e + 1074) ltac:(lia) ltac:(lia)).
  assert (Zpos m * 2 ^ (e + 1074) < 2 ^ 53 * 2 ^ 2045) by nia.
  rewrite <- Z.pow_add_r in H2 by lia. change (53 + 2045) with 2098 in H2.
  destruct s; cbn [cond_Zopp]; lia.
Qed.

Lemma SFval_align (s : bool) (m : positive) (e ez : Z) :
  -1074 <= ez -> ez <= e ->
  cond_Zopp s (Zpos (fst (shl_align m e ez))) * 2 ^ (ez + 1074)
  = SFval (S754_finite s m e).
Proof.
  intros Hez Hle.
  destruct (shl_align_spec m e ez) as (mz & ez' & -> & E1 & E2). cbn [fst SFval].
  rewrite E2. replace ez' with ez by lia.
  replace (e + 1074) with ((e - ez) + (ez + 1074)) by lia.
  rewrite (Z.pow_add_r 2 (e - ez) (ez + 1074)) by lia. destruct s; cbn [cond_Zopp]; lia.
Qed.

(** ** The operations round faithfully *)

Lemma SFadd_spec (x y : spec_float) :
  valid_binary x = true -> valid_binary y = true ->
  SFfinite x = true -> SFfinite y = true ->
  Z.abs (SFval x + SFval y) < 2 ^ 2097 ->
  SFfinite (SFadd prec emax x y) = true /\
  faithful (SFval x + SFval y) 1 (SFval (SFadd prec emax x y)).
Proof.
  intros Vx Vy Fx Fy Hov.
  destruct x as [sx|sx| |sx mx ex], y as [sy|sy| |sy my ey]; try discriminate; cbn [SFadd].
  - destruct sx, sy; cbn; split; try reflexivity; apply faithful_0; lia.
  - split; [reflexivity|]. cbn [SFval]. rewrite Z.add_0_l. apply faithful_refl.
  - split; [reflexivity|]. cbn [SFval]. rewrite Z.add_0_r. apply faithful_refl.
  - pose proof (valid_exponent _ _ _ _ eq_refl Vx) as Hex.
    pose proof (valid_exponent _ _ _ _ eq_refl Vy) as Hey.
    set (ez := Z.min ex ey).
    set (M := cond_Zopp sx (Zpos (fst (shl_align mx ex ez)))
              + cond_Zopp sy (Zpos (fst (shl_align my ey ez)))).
    assert (EM : M * 2 ^ (ez + 1074) = SFval (S754_finite sx mx ex) + SFval (S754_finite sy my ey)).
    { unfold M. rewrite Z.mul_add_distr_r, !SFval_align by (unfold ez; lia). reflexivity. }
    destruct (binary_normalize_spec M ez false) as (H1 & _ & H3).
    + unfold ez; lia.
    + pose proof (Z.pow_pos_nonneg 2 (ez + 1074) ltac:(lia) ltac:(unfold ez; lia)).
      rewrite <- (Z.abs_eq (2 ^ (ez + 1074))), <- Z.abs_mul, EM by lia. assumption.
    + rewrite EM in H3. split; assumption.
Qed.

Lemma SFsub_spec (x y : spec_float) :
  valid_binary x = true -> valid_binary y = true ->
  SFfinite x = true -> SFfinite y = true ->
  Z.abs (SFval x - SFval y) < 2 ^ 2097 ->
  SFfinite (SFsub prec emax x y) = true /\
  faithful (SFval x - SFval y) 1 (SFval (SFsub prec emax x y)).
Proof.
  intros Vx Vy Fx Fy Hov.
  destruct x as [sx|sx| |sx mx ex], y as [sy|sy| |sy my ey]; try discriminate; cbn [SFsub].
  - destruct sx, sy; cbn; split; try reflexivity; apply faithful_0; lia.
  - split; [reflexivity|]. cbn [SFval]. rewrite Z.sub_0_l.
    replace (cond_Zopp (negb sy) (Zpos my * 2 ^ (ey + 1074)))
      with (- cond_Zopp sy (Zpos my * 2 ^ (ey + 1074))) by (destruct sy; cbn; lia).
    apply faithful_refl.
  - split; [reflexivity|]. cbn [SFval]. rewrite Z.sub_0_r. apply faithful_refl.
  - pose proof (valid_exponent _ _ _ _ eq_refl Vx) as Hex.
    pose proof (valid_exponent _ _ _ _ eq_refl Vy) as Hey.
    set (ez := Z.min ex ey).
    set (M := cond_Zopp sx (Zpos (fst (shl_align mx ex ez)))
              - cond_Zopp sy (Zpos (fst (shl_align my ey ez)))).
    assert (EM : M * 2 ^ (ez + 1074) = SFval (S754_finite sx mx ex) - SFval (S754_finite sy my ey)).
    { unfold M. rewrite Z.mul_sub_distr_r, !SFval_align by (unfold ez; lia). reflexivity. }
    destruct (binary_normalize_spec M ez false) as (H1 & _ & H3).
    + unfold ez; lia.
    + pose proof (Z.pow_pos_nonneg 2 (ez + 1074) ltac:(lia) ltac:(unfold ez; lia)).
      rewrite <- (Z.abs_eq (2 ^ (ez + 1074))), <- Z.abs_mul, EM by lia. assumption.
    + rewrite EM in H3. split; assumption.
Qed.

Lemma SFmul_spec (x y : spec_float) :
  valid_binary x = true -> valid_binary y = true ->
  SFfinite x = true -> SFfinite y = true ->
  (SFval x = 0 \/ SFval y = 0 \/
   (2 ^ 53 <= Z.abs (SFval x) /\ 2 ^ 53 <= Z.abs (SFval y) /\
    2 ^ 1180 <= Z.abs (SFval x) * Z.abs (SFval y))) ->
  Z.abs (SFval x) * Z.abs (SFval y) < 2 ^ 2097 * 2 ^ 1074 ->
  SFfinite (SFmul prec emax x y) = true /\
  faithful (SFval x * SFval y) (2 ^ 1074) (SFval (SFmul prec emax x y)).
Proof.
  intros Vx Vy Fx Fy Hn Hov.
  assert (HU : 0 < 2 ^ 1074) by pow2_pos.
  destruct x as [sx|sx| |sx mx ex], y as [sy|sy| |sy my ey]; try discriminate; cbn [SFmul];
    try (split; [reflexivity|]; cbn [SFval]; rewrite ?Z.mul_0_l, ?Z.mul_0_r; apply faithful_0; lia).
  pose proof (valid_finite_inv _ _ _ Vx) as (Hex & _).
  pose proof (valid_finite_inv _ _ _ Vy) as (Hey & _).
  rewrite !SFval_abs in Hn, Hov by lia.
  pose proof (Z.pow_pos_nonneg 2 (ex + 1074) ltac:(lia) ltac:(lia)) as Px.
  pose proof (Z.pow_pos_nonneg 2 (ey + 1074) ltac:(lia) ltac:(lia)) as Py.
  destruct Hn as [H0|[H0|(Nx & Ny & Hlo)]];
    [cbn [SFval] in H0; destruct sx, sy; cbn [cond_Zopp] in H0; nia ..|].
  pose proof (normal_mantissa _ (valid_normal _ _ _ Vx Nx)) as Bx.
  pose proof (normal_mantissa _ (valid_normal _ _ _ Vy Ny)) as By.
  set (X := Zpos mx * 2 ^ (ex + 1074)) in *. set (Y := Zpos my * 2 ^ (ey + 1074)) in *.
  assert (EXY : X * Y = Zpos (mx * my) * 2 ^ (ex + ey + 2148)).
  { unfold X, Y. rewrite Pos2Z.inj_mul.
    replace (ex + ey + 2148) with ((ex + 1074) + (ey + 1074)) by lia.
    rewrite (Z.pow_add_r 2 (ex + 1074) (ey + 1074)) by lia. ring. }
  assert (Hm : 2 ^ 104 <= Zpos (mx * my) < 2 ^ 106).
  { rewrite Pos2Z.inj_mul. change (2 ^ 104) with (2 ^ 52 * 2 ^ 52).
    change (2 ^ 106) with (2 ^ 53 * 2 ^ 53). clear - Bx By. nia. }
  assert (He : -1074 < ex + ey).
  { assert (2 ^ 1180 < 2 ^ (ex + ey + 2148 + 106)).
    { rewrite (Z.pow_add_r 2 (ex + ey + 2148) 106) by lia.
      pose proof (Z.pow_pos_nonneg 2 (ex + ey + 2148) ltac:(lia) ltac:(lia)) as Pz.
      rewrite EXY in Hlo. clear - Hlo Hm Pz. nia. }
    apply pow2_lt_inv in H; lia. }
  assert (EV : X * Y = Zpos (mx * my) * 2 ^ (ex + ey + 1074) * 2 ^ 1074).
  { rewrite EXY, <- Z.mul_assoc, <- Z.pow_add_r by lia. do 2 f_equal. lia. }
  set (V := Zpos (mx * my) * 2 ^ (ex + ey + 1074)) in *.
  pose proof (Z.pow_pos_nonneg 2 (ex + ey + 1074) ltac:(lia) ltac:(lia)) as Pe.
  assert (HV : 0 < V) by (apply Z.mul_pos_pos; lia).
  destruct (binary_round_aux_spec (xorb sx sy) (Zpos (mx * my)) (ex + ey) loc_Exact)
    as (m & e' & E & _ & He' & Hb & Hx); try lia.
  - left. apply (Zdigits2_le (2 ^ 52)); [reflexivity|]. change (2 ^ 104) with (2 ^ 52 * 2 ^ 52) in Hm. lia.
  - rewrite E. split; [reflexivity|]. fold V in Hb, Hx.
    assert (Fpos : faithful (V * 2 ^ 1074) (2 ^ 1074) (Zpos m * 2 ^ (e' + 1074))).
    { apply faithful_pos; rewrite ?Z.div_mul by lia.
      - assumption.
      - replace (2 ^ 1074) with (1 * 2 ^ 1074) at 1 by lia.
        apply Z.mul_le_mono_nonneg_r; lia.
      - assumption.
      - intros H. apply Z.mul_cancel_r in H; [|lia].
        rewrite <- H. apply Hx; [reflexivity|congruence]. }
    cbn [SFval]. fold X Y.
    destruct sx, sy; cbn [xorb cond_Zopp].
    + replace (- X * - Y) with (V * 2 ^ 1074) by lia. assumption.
    + replace (- X * Y) with (- (V * 2 ^ 1074)) by lia. apply faithful_opp. assumption.
    + replace (X * - Y) with (- (V * 2 ^ 1074)) by lia. apply faithful_opp. assumption.
    + rewrite EV. assumption.
Qed.

Lemma new_location_0 (n : Z) : new_location n 0 = loc_Exact.
Proof. unfold new_location. destruct (Z.even n); reflexivity. Qed.

Lemma SFdiv_core_normal (mx my : positive) (ex ey : Z) :
  Zdigits2 (Zpos mx) = 53 -> Zdigits2 (Zpos my) = 53 -> -1074 <= ex - ey - 53 ->
  SFdiv_core_binary prec emax (Zpos mx) ex (Zpos my) ey
  = (Zpos mx * 2 ^ 53 / Zpos my, ex - ey - 53,
     new_location (Zpos my) ((Zpos mx * 2 ^ 53) mod Zpos my)).
Proof.
  intros Dx Dy He. unfold SFdiv_core_binary. rewrite Dx, Dy, fexp_eq.
  replace (Z.min (Z.max (53 + ex - (53 + ey) - 53) (-1074)) (ex - ey)) with (ex - ey - 53) by lia.
  replace (ex - ey - (ex - ey - 53)) with 53 by lia.
  rewrite Z.shiftl_mul_pow2 by lia.
  unfold Z.div, Z.modulo.
  destruct (Z.div_eucl (Zpos mx * 2 ^ 53) (Zpos my)) as [q r]. reflexivity.
Qed.

Lemma SFdiv_spec (x y : spec_float) :
  valid_binary x = true -> valid_binary y = true ->
  SFfinite x = true -> SFfinite y = true -> 0 < SFval y ->
  (SFval x = 0 \/
   (2 ^ 53 <= Z.abs (SFval x) /\ 2 ^ 53 <= SFval y /\
    2 ^ 54 * SFval y <= Z.abs (SFval x) * 2 ^ 1074)) ->
  Z.abs (SFval x) * 2 ^ 1074 < 2 ^ 2097 * SFval y ->
  SFfinite (SFdiv prec emax x y) = true /\
  faithful (SFval x * 2 ^ 1074) (SFval y) (SFval (SFdiv prec emax x y)).
Proof.
  intros Vx Vy Fx Fy Hy Hn Hov.
  assert (HU : 0 < 2 ^ 1074) by pow2_pos.
  destruct x as [sx|sx| |sx mx ex], y as [sy|sy| |sy my ey]; try discriminate;
    try (cbn [SFval] in Hy; lia); cbn [SFdiv].
  { split; [reflexivity|]. cbn [SFval]. apply faithful_0. assumption. }
  pose proof (valid_finite_inv _ _ _ Vx) as (Hex & _).
  pose proof (valid_finite_inv _ _ _ Vy) as (Hey & _).
  pose proof (Z.pow_pos_nonneg 2 (ex + 1074) ltac:(lia) ltac:(lia)) as Px.
  pose proof (Z.pow_pos_nonneg 2 (ey + 1074) ltac:(lia) ltac:(lia)) as Py.
  assert (Esy : sy = false).
  { destruct sy; [|reflexivity]. cbn [SFval cond_Zopp] in Hy. nia. }
  subst sy. rewrite xorb_false_r.
  rewrite SFval_abs in Hn, Hov by lia.
  cbn [SFval cond_Zopp] in Hy, Hn, Hov |- *.
  destruct Hn as [H0|(Nx & Ny & Hlo)]; [destruct sx; cbn [cond_Zopp] in H0; nia|].
  pose proof (valid_normal _ _ _ Vx Nx) as Dx. pose proof (normal_mantissa _ Dx) as Bx.
  pose proof (valid_normal _ _ _ Vy Ny) as Dy. pose proof (normal_mantissa _ Dy) as By.
  set (X := Zpos mx * 2 ^ (ex + 1074)) in *. set (Y := Zpos my * 2 ^ (ey + 1074)) in *.
  (* the exponent of the quotient *)
  assert (He : -1074 <= ex - ey - 53).
  { destruct (Z_le_gt_dec (-1074) (ex - ey - 53)) as [|Hgt]; [assumption|exfalso].
    assert (H : 2 ^ 53 * (2 ^ (ex + 1074) * 2 ^ 1074) <= 2 ^ 106 * 2 ^ (ey + 1074)).
    { rewrite <- (Z.pow_add_r 2 (ex + 1074) 1074), <- !Z.pow_add_r by lia.
      apply Z.pow_le_mono_r; lia. }
    unfold X, Y in Hlo.
    set (A := 2 ^ (ex + 1074) * 2 ^ 1074) in *.
    assert (HA : 0 < A) by (apply Z.mul_pos_pos; assumption).
    assert (H1 : Zpos mx * A < 2 ^ 53 * A) by (apply Z.mul_lt_mono_pos_r; lia).
    assert (H2 : 2 ^ 54 * (2 ^ 52 * 2 ^ (ey + 1074)) <= 2 ^ 54 * (Zpos my * 2 ^ (ey + 1074))).
    { apply Z.mul_le_mono_nonneg_l; [lia|]. apply Z.mul_le_mono_nonneg_r; lia. }
    change (2 ^ 106) with (2 ^ 54 * 2 ^ 52) in H.
    rewrite <- Z.mul_assoc in Hlo. fold A in Hlo. lia. }
  rewrite (SFdiv_core_normal mx my ex ey Dx Dy He).
  set (t := ex - ey - 53 + 1074).
  assert (Ht : 0 <= t) by (unfold t; lia).
  pose proof (Z.pow_pos_nonneg 2 t ltac:(lia) Ht) as Pt.
  set (q := Zpos mx * 2 ^ 53 / Zpos my).
  set (r := (Zpos mx * 2 ^ 53) mod Zpos my).
  pose proof (Z.div_mod (Zpos mx * 2 ^ 53) (Zpos my) ltac:(lia)) as Edm. fold q r in Edm.
  pose proof (Z.mod_pos_bound (Zpos mx * 2 ^ 53) (Zpos my) ltac:(lia)) as Hr. fold r in Hr.
  assert (Hq : 2 ^ 52 <= q).
  { unfold q. apply Z.div_le_lower_bound; [lia|]. change (2 ^ 53) with (2 * 2 ^ 52). nia. }
  assert (Dq : 53 <= Zdigits2 q) by (apply (Zdigits2_le (2 ^ 52)); [reflexivity|assumption]).
  (* numerator and denominator, with the common power of two removed *)
  assert (EN : X * 2 ^ 1074 = (Zpos mx * 2 ^ 53 * 2 ^ t) * 2 ^ (ey + 1074)).
  { unfold X. rewrite <- !Z.mul_assoc, <- !Z.pow_add_r by lia. do 2 f_equal. unfold t. lia. }
  assert (EQ : X * 2 ^ 1074 / Y = (Zpos mx * 2 ^ 53 * 2 ^ t) / Zpos my).
  { rewrite EN. unfold Y. apply Z.div_mul_cancel_r; lia. }
  assert (Hbr : q * 2 ^ t <= X * 2 ^ 1074 / Y < q * 2 ^ t + 2 ^ t).
  { rewrite EQ, Edm. split.
    - apply Z.div_le_lower_bound; [lia|]. nia.
    - apply Z.div_lt_upper_bound; [lia|]. nia. }
  destruct (rdown_same q t _ Ht Dq ltac:(lia) Hbr) as [En Erd].
  assert (Hov' : q * 2 ^ t < 2 ^ 2097).
  { destruct Hbr as [Hbr _]. apply Z.le_lt_trans with (1 := Hbr).
    apply Z.div_lt_upper_bound; lia. }
  assert (Hq0 : 0 < q) by lia.
  destruct (binary_round_aux_spec sx q (ex - ey - 53) (new_location (Zpos my) r)
              Hq0 He Hov' (or_introl Dq))
    as (m & e' & E & _ & He' & Hb & Hx).
  rewrite E. split; [reflexivity|]. fold t in Hb, Hx. cbn [SFval].
  assert (Fpos : faithful (X * 2 ^ 1074) Y (Zpos m * 2 ^ (e' + 1074))).
  { apply faithful_pos.
    - assumption.
    - apply Z.le_trans with (2 ^ 54 * Y); [|assumption].
      replace Y with (1 * Y) at 1 by lia. apply Z.mul_le_mono_nonneg_r; lia.
    - rewrite En, Erd. assumption.
    - rewrite Erd. intros HNe.
      pose proof (rdown_le (q * 2 ^ t)) as Hle.
      assert (Hc : Zpos mx * 2 ^ 53 * 2 ^ t = rdown (q * 2 ^ t) * Zpos my).
      { rewrite EN in HNe. unfold Y in HNe. rewrite Z.mul_assoc in HNe.
        apply Z.mul_cancel_r in HNe; [assumption|lia]. }
      rewrite Edm in Hc.
      assert (Hr0 : r = 0) by (clear - Hc Hle Hr Pt; nia).
      assert (Hrd : rdown (q * 2 ^ t) = q * 2 ^ t).
      { rewrite Hr0 in Hc. clear - Hc By. nia. }
      rewrite Hrd. apply Hx; [|assumption].
      rewrite Hr0. apply new_location_0. }
  destruct sx; cbn [cond_Zopp].
  - replace (- X * 2 ^ 1074) with (- (X * 2 ^ 1074)) by lia. apply faithful_opp. assumption.
  - assumption.
Qed.

Lemma rem_cond_Zopp (sx sy : bool) (a b : Z) :
  0 <= a -> 0 < b ->
  Z.rem (cond_Zopp sx a) (cond_Zopp sy b) = cond_Zopp sx (a mod b).
Proof.
  intros Ha Hb.
  destruct sx, sy; cbn [cond_Zopp];
    rewrite ?Z.rem_opp_r, ?Z.rem_opp_l, ?Z.rem_mod_nonneg by lia; reflexivity.
Qed.

Lemma SFfmod_spec (x y : spec_float) :
  valid_binary x = true -> valid_binary y = true ->
  SFfinite x = true -> SFfinite y = true ->
  SFval y <> 0 -> Z.abs (SFval y) < 2 ^ 2097 ->
  valid_binary (SFfmod x y) = true /\
  SFfinite (SFfmod x y) = true /\
  SFval (SFfmod x y) = Z.rem (SFval x) (SFval y).
Proof.
  intros Vx Vy Fx Fy Hy Hov.
  destruct x as [sx|sx| |sx mx ex], y as [sy|sy| |sy my ey]; try discriminate;
    try (cbn [SFval] in Hy; congruence); cbn [SFfmod].
  { split; [reflexivity|]. split; [reflexivity|]. cbn [SFval]. symmetry. apply Z.rem_0_l.
    assumption. }
  pose proof (valid_finite_inv _ _ _ Vx) as (Hex & _).
  pose proof (valid_finite_inv _ _ _ Vy) as (Hey & _).
  pose proof (valid_mantissa _ _ _ Vx) as Bx.
  pose proof (valid_mantissa _ _ _ Vy) as By.
  rewrite SFval_abs in Hov by lia. clear Hy.
  set (ez := Z.min ex ey) in *.
  assert (Hez : -1074 <= ez) by (unfold ez; lia).
  set (P := 2 ^ (ez + 1074)).
  assert (HP : 0 < P) by pow2_pos.
  set (A := Zpos mx * 2 ^ (ex - ez)). set (B := Zpos my * 2 ^ (ey - ez)).
  assert (HA : 0 < A) by (apply Z.mul_pos_pos; [lia|apply Z.pow_pos_nonneg; unfold ez; lia]).
  assert (HB : 0 < B) by (apply Z.mul_pos_pos; [lia|apply Z.pow_pos_nonneg; unfold ez; lia]).
  assert (EA : Zpos mx * 2 ^ (ex + 1074) = A * P).
  { unfold A, P. rewrite <- Z.mul_assoc, <- Z.pow_add_r by (unfold ez; lia).
    do 2 f_equal. lia. }
  assert (EB : Zpos my * 2 ^ (ey + 1074) = B * P).
  { unfold B, P. rewrite <- Z.mul_assoc, <- Z.pow_add_r by (unfold ez; lia).
    do 2 f_equal. lia. }
  pose proof (Z.mod_pos_bound A B HB) as Hr.
  assert (Hr53 : A mod B < 2 ^ 53).
  { destruct (Z_le_gt_dec ex ey).
    - assert (A = Zpos mx).
      { unfold A. replace (ex - ez) with 0 by (unfold ez; lia). cbn. lia. }
      pose proof (Z.mod_le A B ltac:(lia) HB). lia.
    - assert (B = Zpos my).
      { unfold B. replace (ey - ez) with 0 by (unfold ez; lia). cbn. lia. }
      lia. }
  destruct (binary_normalize_spec (cond_Zopp sx (A mod B)) ez sx Hez) as (F & V & H).
  { fold P. replace (Z.abs (cond_Zopp sx (A mod B))) with (A mod B)
      by (destruct sx; cbn [cond_Zopp]; lia).
    rewrite EB in Hov. nia. }
  split; [assumption|]. split; [assumption|].
  cbn [SFval]. rewrite EA, EB.
  rewrite rem_cond_Zopp by nia. rewrite Z.mul_mod_distr_r by lia.
  fold P in H.
  apply (faithful_exact 1); [lia| |].
  - destruct sx; cbn [cond_Zopp]; [apply fmt_opp|]; apply fmt_small_mul; lia.
  - rewrite Z.mul_1_r.
    replace (cond_Zopp sx (A mod B * P)) with (cond_Zopp sx (A mod B) * P)
      by (destruct sx; cbn [cond_Zopp]; lia).
    assumption.
Qed.

(** ** Comparison *)

Lemma valid_lt_exp (m1 m2 : positive) (e1 e2 : Z) (s1 s2 : bool) :
  valid_binary (S754_finite s1 m1 e1) = true ->
  valid_binary (S754_finite s2 m2 e2) = true ->
  e1 < e2 -> Zpos m1 * 2 ^ (e1 + 1074) < Zpos m2 * 2 ^ (e2 + 1074).
Proof.
  intros V1 V2 Hlt.
  apply valid_finite_inv in V1, V2.
  destruct V1 as (He1 & Hd1 & _), V2 as (He2 & _ & Hd2).
  pose proof (Zdigits2_bounds (Zpos m1) ltac:(lia)) as [_ B1].
  pose proof (Zdigits2_bounds (Zpos m2) ltac:(lia)) as [B2 _].
  rewrite Hd2 in B2 by lia. change (2 ^ (53 - 1)) with (2 ^ 52) in B2.
  pose proof (Z.pow_le_mono_r 2 _ 53 ltac:(lia) Hd1) as B3.
  pose proof (Z.pow_pos_nonneg 2 (e1 + 1074) ltac:(lia) ltac:(lia)) as P1.
  pose proof (Z.pow_pos_nonneg 2 (e2 - e1 - 1) ltac:(lia) ltac:(lia)) as P2.
  assert (E2 : 2 ^ (e2 + 1074) = 2 ^ (e2 - e1 - 1) * 2 * 2 ^ (e1 + 1074)).
  { rewrite (Z.mul_comm _ 2), <- (Z.pow_succ_r 2 (e2 - e1 - 1)), <- Z.pow_add_r by lia.
    f_equal. lia. }
  rewrite E2.
  change (2 ^ 53) with (2 ^ 52 * 2) in B3.
  set (A := 2 ^ (e1 + 1074)) in *. set (B := 2 ^ (e2 - e1 - 1)) in *.
  assert (Zpos m1 * A < 2 ^ 52 * 2 * A) by nia.
  assert (2 ^ 52 * 2 * A <= 2 ^ 52 * (B * 2 * A)) by nia.
  assert (2 ^ 52 * (B * 2 * A) <= Zpos m2 * (B * 2 * A)) by nia.
  lia.
Qed.

Lemma SFcompare_pos (m1 m2 : positive) (e1 e2 : Z) (s1 s2 : bool) :
  valid_binary (S754_finite s1 m1 e1) = true ->
  valid_binary (S754_finite s2 m2 e2) = true ->
  match Z.compare e1 e2 with
  | Lt => Lt
  | Gt => Gt
  | Eq => Pos.compare_cont Eq m1 m2
  end = (Zpos m1 * 2 ^ (e1 + 1074) ?= Zpos m2 * 2 ^ (e2 + 1074)).
Proof.
  intros V1 V2. symmetry.
  destruct (Z.compare_spec e1 e2) as [E|L|G].
  - subst e2. pose proof (valid_finite_inv _ _ _ V1) as (He & _).
    pose proof (Z.pow_pos_nonneg 2 (e1 + 1074) ltac:(lia) ltac:(lia)) as P.
    change (Pos.compare_cont Eq m1 m2) with (Zpos m1 ?= Zpos m2).
    destruct (Z.compare_spec (Zpos m1) (Zpos m2)) as [E|L|G].
    + rewrite E. apply Z.compare_refl.
    + apply Z.compare_lt_iff. nia.
    + apply Z.compare_gt_iff. nia.
  - apply Z.compare_lt_iff. eapply valid_lt_exp; eassumption.
  - apply Z.compare_gt_iff. eapply valid_lt_exp; eassumption.
Qed.

Lemma SFcompare_spec (x y : spec_float) :
  valid_binary x = true -> valid_binary y = true ->
  SFfinite x = true -> SFfinite y = true ->
  SFcompare x y = Some (SFval x ?= SFval y).
Proof.
  intros Vx Vy Fx Fy.
  destruct x as [sx|sx| |sx mx ex], y as [sy|sy| |sy my ey]; try discriminate;
    cbn [SFcompare SFval].
  - reflexivity.
  - pose proof (valid_finite_inv _ _ _ Vy) as (He & _).
    pose proof (Z.pow_pos_nonneg 2 (ey + 1074) ltac:(lia) ltac:(lia)) as P.
    f_equal. symmetry. destruct sy; cbn [cond_Zopp];
      [apply Z.compare_gt_iff | apply Z.compare_lt_iff]; nia.
  - pose proof (valid_finite_inv _ _ _ Vx) as (He & _).
    pose proof (Z.pow_pos_nonneg 2 (ex + 1074) ltac:(lia) ltac:(lia)) as P.
    f_equal. symmetry. destruct sx; cbn [cond_Zopp];
      [apply Z.compare_lt_iff | apply Z.compare_gt_iff]; nia.
  - pose proof (valid_finite_inv _ _ _ Vx) as (Hex & _).
    pose proof (valid_finite_inv _ _ _ Vy) as (Hey & _).
    pose proof (Z.pow_pos_nonneg 2 (ex + 1074) ltac:(lia) ltac:(lia)) as Px.
    pose proof (Z.pow_pos_nonneg 2 (ey + 1074) ltac:(lia) ltac:(lia)) as Py.
    f_equal. destruct sx, sy; cbn [cond_Zopp].
    + rewrite Z.compare_opp, (Z.compare_antisym (Zpos mx * _)).
      rewrite <- (SFcompare_pos _ _ _ _ _ _ Vx Vy).
      destruct (ex ?= ey); reflexivity.
    + symmetry. apply Z.compare_lt_iff. nia.
    + symmetry. apply Z.compare_gt_iff. nia.
    + apply (SFcompare_pos _ _ _ _ _ _ Vx Vy).
Qed.

(** ** Primitive floats through their specification *)

Lemma fval_fmt (x : float) : fmt (fval x).
Proof. apply SFval_fmt, Prim2SF_valid. Qed.

Lemma compare_fval (x y : float) :
  finite x = true -> finite y = true ->
  SFcompare (Prim2SF x) (Prim2SF y) = Some (fval x ?= fval y).
Proof. intros Fx Fy. apply SFcompare_spec; auto using Prim2SF_valid. Qed.

Lemma ltb_fval (x y : float) :
  finite x = true -> finite y = true -> (x <? y)%float = (fval x <? fval y).
Proof.
  intros Fx Fy. rewrite FloatAxioms.ltb_spec. unfold SFltb. rewrite compare_fval by assumption.
  unfold Z.ltb. destruct (fval x ?= fval y); reflexivity.
Qed.

Lemma leb_fval (x y : float) :
  finite x = true -> finite y = true -> (x <=? y)%float = (fval x <=? fval y).
Proof.
  intros Fx Fy. rewrite FloatAxioms.leb_spec. unfold SFleb. rewrite compare_fval by assumption.
  unfold Z.leb. destruct (fval x ?= fval y); reflexivity.
Qed.

Lemma eqb_fval (x y : float) :
  finite x = true -> finite y = true -> (x =? y)%float = (fval x =? fval y).
Proof.
  intros Fx Fy. rewrite FloatAxioms.eqb_spec. unfold SFeqb. rewrite compare_fval by assumption.
  unfold Z.eqb at 1. destruct (fval x ?= fval y) eqn:E.
  - apply Z.compare_eq in E. rewrite E. symmetry. apply Z.eqb_refl.
  - symmetry. apply Z.eqb_neq. intros E'. rewrite E', Z.compare_refl in E. discriminate.
  - symmetry. apply Z.eqb_neq. intros E'. rewrite E', Z.compare_refl in E. discriminate.
Qed.

Lemma leb_true (x y : float) :
  finite x = true -> finite y = true -> ((x <=? y)%float = true <-> fval x <= fval y).
Proof. intros Fx Fy. rewrite leb_fval by assumption. apply Z.leb_le. Qed.

Lemma ltb_true (x y : float) :
  finite x = true -> finite y = true -> ((x <? y)%float = true <-> fval x < fval y).
Proof. intros Fx Fy. rewrite ltb_fval by assumption. apply Z.ltb_lt. Qed.

Lemma ltb_false (x y : float) :
  finite x = true -> finite y = true -> ((x <? y)%float = false <-> fval y <= fval x).
Proof. intros Fx Fy. rewrite ltb_fval by assumption. apply Z.ltb_ge. Qed.

Lemma eqb_true (x y : float) :
  finite x = true -> finite y = true -> ((x =? y)%float = true <-> fval x = fval y).
Proof. intros Fx Fy. rewrite eqb_fval by assumption. apply Z.eqb_eq. Qed.

Lemma add_faithful (x y : float) :
  finite x = true -> finite y = true -> Z.abs (fval x + fval y) < 2 ^ 2097 ->
  finite (x + y) = true /\ faithful (fval x + fval y) 1 (fval (x + y)).
Proof.
  intros Fx Fy Hov. unfold finite, fval. rewrite FloatAxioms.add_spec.
  apply SFadd_spec; auto using Prim2SF_valid.
Qed.

Lemma sub_faithful (x y : float) :
  finite x = true -> finite y = true -> Z.abs (fval x - fval y) < 2 ^ 2097 ->
  finite (x - y) = true /\ faithful (fval x - fval y) 1 (fval (x - y)).
Proof.
  intros Fx Fy Hov. unfold finite, fval. rewrite FloatAxioms.sub_spec.
  apply SFsub_spec; auto using Prim2SF_valid.
Qed.

Lemma mul_faithful (x y : float) :
  finite x = true -> finite y = true ->
  (fval x = 0 \/ fval y = 0 \/
   (2 ^ 53 <= Z.abs (fval x) /\ 2 ^ 53 <= Z.abs (fval y) /\
    2 ^ 1180 <= Z.abs (fval x) * Z.abs (fval y))) ->
  Z.abs (fval x) * Z.abs (fval y) < 2 ^ 2097 * 2 ^ 1074 ->
  finite (x * y) = true /\ faithful (fval x * fval y) (2 ^ 1074) (fval (x * y)).
Proof.
  intros Fx Fy Hn Hov. unfold finite, fval. rewrite FloatAxioms.mul_spec.
  apply SFmul_spec; auto using Prim2SF_valid.
Qed.

Lemma div_faithful (x y : float) :
  finite x = true -> finite y = true -> 0 < fval y ->
  (fval x = 0 \/
   (2 ^ 53 <= Z.abs (fval x) /\ 2 ^ 53 <= fval y /\
    2 ^ 54 * fval y <= Z.abs (fval x) * 2 ^ 1074)) ->
  Z.abs (fval x) * 2 ^ 1074 < 2 ^ 2097 * fval y ->
  finite (x / y) = true /\ faithful (fval x * 2 ^ 1074) (fval y) (fval (x / y)).
Proof.
  intros Fx Fy Hy Hn Hov. unfold finite, fval. rewrite FloatAxioms.div_spec.
  apply SFdiv_spec; auto using Prim2SF_valid.
Qed.

Lemma fmod_spec (x y : float) :
  finite x = true -> finite y = true -> fval y <> 0 -> Z.abs (fval y) < 2 ^ 2097 ->
  finite (fmod x y) = true /\ fval (fmod x y) = Z.rem (fval x) (fval y).
Proof.
  intros Fx Fy Hy Hov. unfold finite, fval, fmod in *.
  destruct (SFfmod_spec (Prim2SF x) (Prim2SF y)) as (V & F & E);
    auto using Prim2SF_valid.
  rewrite Prim2SF_SF2Prim by assumption. split; assumption.
Qed.

Lemma of_uint63_exact (n : Z) :
  0 <= n < 2 ^ 53 ->
  finite (of_uint63 (Uint63.of_Z n)) = true /\
  fval (of_uint63 (Uint63.of_Z n)) = n * 2 ^ 1074.
Proof.
  intros Hn. unfold finite, fval. rewrite of_uint63_spec.
  assert (E : Uint63.to_Z (Uint63.of_Z n) = n).
  { rewrite Uint63.of_Z_spec. apply Z.mod_small.
    change wB with (2 ^ 63). change (2 ^ 63) with (2 ^ 53 * 1024). lia. }
  change (Uint63Axioms.to_Z (Uint63.of_Z n)) with (Uint63.to_Z (Uint63.of_Z n)).
  rewrite E.
  destruct (binary_normalize_spec n 0 false) as (H1 & _ & H3); [lia| |].
  - change (2 ^ (0 + 1074)) with (2 ^ 1074). change (2 ^ 2097) with (2 ^ 53 * (2 ^ 970 * 2 ^ 1074)).
    rewrite Z.abs_eq by lia.
    assert (0 < 2 ^ 1074) by pow2_pos.
    assert (0 < 2 ^ 970) by pow2_pos.
    apply Z.lt_le_trans with (2 ^ 53 * 2 ^ 1074).
    + apply Z.mul_lt_mono_pos_r; lia.
    + apply Z.mul_le_mono_nonneg_l; [lia|].
      replace (2 ^ 1074) with (1 * 2 ^ 1074) at 1 by lia.
      apply Z.mul_le_mono_nonneg_r; lia.
  - split; [assumption|]. change (0 + 1074) with 1074 in H3.
    apply (faithful_exact 1); [lia| |].
    + apply fmt_small_mul; lia.
    + rewrite Z.mul_1_r. assumption.
Qed.

Lemma small_no_overflow (v : Z) : Z.abs v <= 2 ^ 40 * 2 ^ 1074 -> Z.abs v < 2 ^ 2097.
Proof.
  intros H. apply Z.le_lt_trans with (1 := H). apply Z.ltb_lt. vm_compute. reflexivity.
Qed.

Lemma add_bounds (x y : float) (lo hi : Z) :
  finite x = true -> finite y = true -> Z.abs (fval x + fval y) < 2 ^ 2097 ->
  fmt lo -> fmt hi -> lo <= fval x + fval y <= hi ->
  finite (x + y) = true /\ lo <= fval (x + y) <= hi.
Proof.
  intros Fx Fy Hov Flo Fhi [H1 H2].
  destruct (add_faithful x y Fx Fy Hov) as [F H].
  split; [assumption|]. split.
  - apply (faithful_ge _ _ _ _ H Flo). lia.
  - apply (faithful_le _ _ _ _ H Fhi). lia.
Qed.

Lemma sub_bounds (x y : float) (lo hi : Z) :
  finite x = true -> finite y = true -> Z.abs (fval x - fval y) < 2 ^ 2097 ->
  fmt lo -> fmt hi -> lo <= fval x - fval y <= hi ->
  finite (x - y) = true /\ lo <= fval (x - y) <= hi.
Proof.
  intros Fx Fy Hov Flo Fhi [H1 H2].
  destruct (sub_faithful x y Fx Fy Hov) as [F H].
  split; [assumption|]. split.
  - apply (faithful_ge _ _ _ _ H Flo). lia.
  - apply (faithful_le _ _ _ _ H Fhi). lia.
Qed.

(** * The program: lemmas *)

(** ** Conversions *)

Lemma fp64_of_uint_exact (n : Z) :
  0 <= n < 2 ^ 53 ->
  finite (fp64_of_uint n) = true /\ fval (fp64_of_uint n) = n * 2 ^ 1074.
Proof. apply of_uint63_exact. Qed.

Lemma SFtrunc_nonneg (m : positive) (e : Z) :
  -1074 <= e ->
  SFtrunc (S754_finite false m e) = Some (Zpos m * 2 ^ (e + 1074) / 2 ^ 1074).
Proof.
  intros He. cbn [SFtrunc cond_Zopp]. f_equal. destruct e as [|p|p].
  - cbn [Z.add]. rewrite Z.div_mul by (apply Z.pow_nonzero; lia).
    rewrite Z.pow_0_r. lia.
  - replace (Zpos p + 1074) with (1074 + Zpos p) by lia.
    rewrite (Z.pow_add_r 2 1074 (Zpos p)) by lia.
    rewrite (Z.mul_comm (2 ^ 1074)), Z.mul_assoc.
    rewrite Z.div_mul by (apply Z.pow_nonzero; lia). reflexivity.
  - assert (E : 2 ^ 1074 = 2 ^ Zpos p * 2 ^ (Zneg p + 1074)).
    { rewrite <- Z.pow_add_r by lia. f_equal. lia. }
    rewrite E. rewrite Z.div_mul_cancel_r; [reflexivity| |];
      apply Z.pow_nonzero; lia.
Qed.

Lemma fp64_to_uint_nonneg (bits : Z) (x : float) :
  finite x = true -> 0 <= fval x ->
  fp64_to_uint bits x
  = if fval x / 2 ^ 1074 <? 2 ^ bits then Some (fval x / 2 ^ 1074) else None.
Proof.
  unfold finite, fval, fp64_to_uint. intros F H.
  pose proof (Prim2SF_valid x) as V.
  destruct (Prim2SF x) as [s|s| |s m e]; try discriminate.
  - cbn [SFtrunc SFval]. rewrite Z.div_0_l by (apply Z.pow_nonzero; lia).
    reflexivity.
  - apply valid_finite_inv in V. destruct V as (He & _).
    assert (Hp : 0 < 2 ^ (e + 1074)) by pow2_pos.
    destruct s; cbn [SFval cond_Zopp] in H |- *; [exfalso; nia|].
    rewrite SFtrunc_nonneg by lia.
    replace (0 <=? Zpos m * 2 ^ (e + 1074) / 2 ^ 1074) with true; [reflexivity|].
    symmetry. apply Z.leb_le. apply Z.div_pos; [nia|]. apply Z.pow_pos_nonneg; lia.
Qed.

(** The value of a conversion that is defined. *)
Lemma fp64_to_uint_floor (bits n : Z) (x : float) :
  finite x = true -> 0 <= n < 2 ^ bits ->
  n * 2 ^ 1074 <= fval x < (n + 1) * 2 ^ 1074 ->
  fp64_to_uint bits x = Some n.
Proof.
  intros F Hn Hx. assert (HU : 0 < 2 ^ 1074) by pow2_pos.
  rewrite fp64_to_uint_nonneg by (assumption || nia).
  assert (E : fval x / 2 ^ 1074 = n).
  { symmetry. apply Z.div_unique with (fval x - n * 2 ^ 1074); lia. }
  rewrite E. replace (n <? 2 ^ bits) with true; [reflexivity|].
  symmetry. apply Z.ltb_lt. lia.
Qed.

Lemma mul_nonneg (x y : float) :
  (0 <=? x)%float = true -> finite y = true -> 0 < fval y ->
  (x * y <? 4294967296)%float = true ->
  finite (x * y) = true /\ 0 <= fval (x * y) < 2 ^ 32 * 2 ^ 1074.
Proof.
  intros Hx Fy Hy Hlt.
  assert (F32 : finite 4294967296%float = true /\ fval 4294967296%float = 2 ^ 32 * 2 ^ 1074).
  { replace 4294967296%float with (fp64_of_uint (2 ^ 32)) by reflexivity.
    apply fp64_of_uint_exact. lia. }
  destruct F32 as [F32 V32].
  assert (Fp : finite (x * y) = true /\ 0 <= fval (x * y)).
  { rewrite FloatAxioms.leb_spec in Hx. rewrite FloatAxioms.ltb_spec in Hlt.
    unfold finite, fval in *. rewrite FloatAxioms.mul_spec in *.
    pose proof (Prim2SF_valid y) as Vy.
    replace (Prim2SF 0) with (S754_zero false) in Hx by reflexivity.
    replace (Prim2SF 4294967296) with (S754_finite false 4503599627370496 (-20)) in Hlt
      by reflexivity.
    destruct (Prim2SF x) as [sx|sx| |sx mx ex], (Prim2SF y) as [sy|sy| |sy my ey];
      try discriminate; try (cbn [SFval] in Hy; lia);
      try (destruct sx; discriminate); try (split; [reflexivity|cbn; lia]).
    - destruct sx; [discriminate Hx|].
      destruct sy; [|discriminate Hlt].
      cbn [SFval cond_Zopp] in Hy. pose proof (Z.pow_nonneg 2 (ey + 1074) ltac:(lia)). nia.
    - apply valid_finite_inv in Vy. destruct Vy as (Hey & _).
      assert (0 < 2 ^ (ey + 1074)) by pow2_pos.
      assert (sy = false) by (destruct sy; [cbn [SFval cond_Zopp] in Hy; nia|reflexivity]).
      subst sy.
      assert (sx = false) by (destruct sx; [discriminate|reflexivity]). subst sx.
      unfold SF64mul, SFmul in *. cbn [xorb] in *.
      pose proof (binary_round_aux_sign false (Zpos (mx * my)) (ex + ey) loc_Exact ltac:(lia)) as Hs.
      destruct (binary_round_aux prec emax false (Zpos (mx * my)) (ex + ey) loc_Exact)
        as [s|s| |s m e]; try contradiction; subst s; try discriminate.
      + split; [reflexivity|cbn; lia].
      + split; [reflexivity|]. cbn [SFval cond_Zopp].
        pose proof (Z.pow_nonneg 2 (e + 1074) ltac:(lia)). nia. }
  destruct Fp as [Fp Hp]. split; [assumption|]. split; [assumption|].
  rewrite <- V32. apply ltb_true; assumption.
Qed.

(** ** The constants *)

Lemma finite_NDS_FPS : finite NDS_FPS = true.
Proof. reflexivity. Qed.

Lemma fval_NDS_FPS : fval NDS_FPS = NDS_FPS_mantissa * 2 ^ 1027.
Proof.
  unfold fval.
  replace (Prim2SF NDS_FPS) with (S754_finite false 8419775052094688 (-47)) by reflexivity.
  reflexivity.
Qed.

Lemma S_PER_MIN_of_uint : S_PER_MIN = fp64_of_uint 60.
Proof. reflexivity. Qed.

Lemma MIN_BOOT_TIME_of_uint : MIN_BOOT_TIME = fp64_of_uint 14.
Proof. reflexivity. Qed.

Lemma fval_S_PER_MIN : finite S_PER_MIN = true /\ fval S_PER_MIN = 60 * 2 ^ 1074.
Proof. rewrite S_PER_MIN_of_uint. apply fp64_of_uint_exact. lia. Qed.

Lemma fval_MIN_BOOT_TIME : finite MIN_BOOT_TIME = true /\ fval MIN_BOOT_TIME = 14 * 2 ^ 1074.
Proof. rewrite MIN_BOOT_TIME_of_uint. apply fp64_of_uint_exact. lia. Qed.

Lemma fval_74 : finite 74%float = true /\ fval 74%float = 74 * 2 ^ 1074.
Proof.
  replace 74%float with (fp64_of_uint 74) by reflexivity.
  apply fp64_of_uint_exact. lia.
Qed.

Lemma fval_fudge : finite 0.2%float = true /\ fval 0.2%float = 7205759403792794 * 2 ^ 1019.
Proof.
  unfold finite, fval.
  replace (Prim2SF 0.2%float) with (S754_finite false 7205759403792794 (-55)) by reflexivity.
  split; reflexivity.
Qed.

Lemma fudge_units :
  fifth * 2 ^ 1034 < 7205759403792794 * 2 ^ 1019 < (fifth + 1) * 2 ^ 1034.
Proof. split; apply Z.ltb_lt; vm_compute; reflexivity. Qed.

Lemma fval_zero : finite 0%float = true /\ fval 0%float = 0.
Proof. split; reflexivity. Qed.

(** ** Unsigned subtraction *)

Lemma sub_ui32_range (a b : Z) : ui32_range (sub_ui32 a b).
Proof. unfold ui32_range, sub_ui32. apply Z.mod_pos_bound. lia. Qed.

Lemma sub_ui32_ge (a b : Z) :
  ui32_range a -> ui32_range b -> b <= a -> sub_ui32 a b = a - b.
Proof. unfold ui32_range, sub_ui32. intros. apply Z.mod_small. lia. Qed.

Lemma sub_ui32_lt (a b : Z) :
  ui32_range a -> ui32_range b -> a < b -> sub_ui32 a b = a - b + 2 ^ 32.
Proof.
  unfold ui32_range, sub_ui32. intros.
  symmetry. apply Z.mod_unique with (-1); lia.
Qed.

Lemma sub_ui32_0 (a b : Z) :
  ui32_range a -> ui32_range b -> (sub_ui32 a b = 0 <-> a = b).
Proof.
  intros Ha Hb. destruct (Z_le_gt_dec b a).
  - rewrite sub_ui32_ge by assumption. lia.
  - rewrite sub_ui32_lt by (assumption || lia). unfold ui32_range in *. lia.
Qed.

(** ** [delay_to_second] *)

Lemma delay_to_second_faithful (d : Z) :
  ui32_range d ->
  finite (delay_to_second d) = true /\
  faithful (d * 2 ^ 47 * 2 ^ 1074) NDS_FPS_mantissa (fval (delay_to_second d)).
Proof.
  unfold ui32_range. intros Hd. unfold delay_to_second.
  destruct (fp64_of_uint_exact d) as [Fd Vd].
  { change (2 ^ 53) with (2 ^ 32 * 2 ^ 21). lia. }
  assert (HU : 0 < 2 ^ 1074) by pow2_pos.
  assert (HU' : 0 < 2 ^ 1027) by pow2_pos.
  destruct (div_faithful (fp64_of_uint d) NDS_FPS Fd finite_NDS_FPS) as [Fq Hq].
  - rewrite fval_NDS_FPS. unfold NDS_FPS_mantissa. lia.
  - rewrite Vd, fval_NDS_FPS. destruct (Z.eq_dec d 0) as [->|Hn]; [left; reflexivity|right].
    rewrite Z.abs_eq by nia. unfold NDS_FPS_mantissa.
    split; [|split].
    + apply Z.le_trans with (1 * 2 ^ 1074); [apply Z.leb_le; vm_compute; reflexivity|].
      apply Z.mul_le_mono_nonneg_r; lia.
    + apply Z.le_trans with (1 * 2 ^ 1027); [apply Z.leb_le; vm_compute; reflexivity|].
      apply Z.mul_le_mono_nonneg_r; lia.
    + apply Z.le_trans with (1 * 2 ^ 1074 * 2 ^ 1074); [apply Z.leb_le; vm_compute; reflexivity|].
      apply Z.mul_le_mono_nonneg_r; [lia|]. apply Z.mul_le_mono_nonneg_r; lia.
  - rewrite Vd, fval_NDS_FPS. rewrite Z.abs_eq by nia.
    apply Z.le_lt_trans with (2 ^ 32 * 2 ^ 1074 * 2 ^ 1074).
    + apply Z.mul_le_mono_nonneg_r; [lia|]. apply Z.mul_le_mono_nonneg_r; lia.
    + apply Z.ltb_lt. vm_compute. reflexivity.
  - split; [assumption|].
    rewrite Vd, fval_NDS_FPS in Hq.
    apply faithful_scale with (c := 2 ^ 1027); [assumption|].
    replace (d * 2 ^ 47 * 2 ^ 1074 * 2 ^ 1027) with (d * 2 ^ 1074 * 2 ^ 1074); [assumption|].
    change (2 ^ 1074) with (2 ^ 47 * 2 ^ 1027) at 2. ring.
Qed.

Lemma delay_to_second_bounds (d : Z) :
  ui32_range d ->
  finite (delay_to_second d) = true /\
  0 <= fval (delay_to_second d) <= 2 ^ 27 * 2 ^ 1074.
Proof.
  intros Hd. destruct (delay_to_second_faithful d Hd) as [F H].
  unfold ui32_range in Hd. pose proof pow2_1074_pos as HU.
  split; [assumption|]. split.
  - apply (faithful_ge _ _ _ 0 H fmt_0). nia.
  - apply (faithful_le _ _ _ _ H (fmt_int (2 ^ 27) ltac:(lia))).
    unfold NDS_FPS_mantissa.
    replace (2 ^ 27 * 2 ^ 1074 * 8419775052094688)
      with (2 ^ 27 * 8419775052094688 * 2 ^ 1074) by ring.
    apply Z.mul_le_mono_nonneg_r; [lia|]. lia.
Qed.

Lemma delay_to_second_pos (d : Z) :
  ui32_range d -> 0 < d -> 2 ^ 1068 <= fval (delay_to_second d).
Proof.
  intros Hd Hpos. destruct (delay_to_second_faithful d Hd) as [F H].
  apply (faithful_ge _ _ _ _ H (fmt_dyadic 1 1068 ltac:(lia) ltac:(lia))).
  unfold NDS_FPS_mantissa. change (2 ^ 1074) with (2 ^ 6 * 2 ^ 1068).
  assert (0 < 2 ^ 1068) by pow2_pos. nia.
Qed.

(** [d * 2^54 / NDS_FPS_mantissa] is [d / NDS_FPS] in units of [2^-7],
    rounded down. *)
Lemma delay_quotient (d : Z) :
  0 <= d ->
  let a := d * 2 ^ 54 / NDS_FPS_mantissa in
  a * NDS_FPS_mantissa <= d * 2 ^ 54 < (a + 1) * NDS_FPS_mantissa /\ 0 <= a <= 4 * d.
Proof.
  intros Hd a. unfold NDS_FPS_mantissa in *.
  pose proof (Z.mul_div_le (d * 2 ^ 54) 8419775052094688 ltac:(lia)) as H1.
  pose proof (Z.mul_succ_div_gt (d * 2 ^ 54) 8419775052094688 ltac:(lia)) as H2.
  fold a in H1, H2. split; [lia|]. split.
  - apply Z.div_pos; lia.
  - apply Z.div_le_upper_bound; lia.
Qed.

Lemma delay_to_second_bracket (d : Z) :
  ui32_range d ->
  let a := d * 2 ^ 54 / NDS_FPS_mantissa in
  a * 2 ^ 1067 <= fval (delay_to_second d) <= (a + 1) * 2 ^ 1067.
Proof.
  intros Hd a. destruct (delay_to_second_faithful d Hd) as [_ H].
  unfold ui32_range in Hd.
  destruct (delay_quotient d ltac:(lia)) as [[H1 H2] H3]. fold a in H1, H2, H3.
  assert (HP : 0 < 2 ^ 1067) by pow2_pos.
  assert (E : d * 2 ^ 47 * 2 ^ 1074 = d * 2 ^ 54 * 2 ^ 1067).
  { change (2 ^ 1074) with (2 ^ 7 * 2 ^ 1067). change (2 ^ 54) with (2 ^ 47 * 2 ^ 7). ring. }
  rewrite E in H. split.
  - apply (faithful_ge _ _ _ _ H (fmt_dyadic a 1067 ltac:(lia) ltac:(lia))). nia.
  - apply (faithful_le _ _ _ _ H (fmt_dyadic (a + 1) 1067 ltac:(lia) ltac:(lia))). nia.
Qed.

Lemma round_trip_ui32 (d : Z) :
  ui32_range d ->
  second_to_delay (delay_to_second d) = Some d \/
  second_to_delay (delay_to_second d) = Some (d - 1).
Proof.
  intros Hd. destruct (Z.eq_dec d 0) as [->|Hn]; [left; reflexivity|].
  pose proof (delay_to_second_bracket d Hd) as [B1 B2].
  destruct (delay_to_second_bounds d Hd) as [Fs Rs].
  pose proof (delay_to_second_pos d Hd ltac:(unfold ui32_range in Hd; lia)) as Ps.
  unfold ui32_range in Hd.
  destruct (delay_quotient d ltac:(lia)) as [[Q1 Q2] Q3].
  set (a := d * 2 ^ 54 / NDS_FPS_mantissa) in *.
  set (s := delay_to_second d) in *.
  pose proof pow2_1074_pos as HU.
  assert (HP : 0 < 2 ^ 1067) by pow2_pos.
  assert (HQ : 0 < 2 ^ 1027) by pow2_pos.
  assert (HMF : 2 ^ 52 <= NDS_FPS_mantissa < 2 ^ 53) by (unfold NDS_FPS_mantissa; lia).
  (* the product *)
  destruct (mul_faithful s NDS_FPS Fs finite_NDS_FPS) as [Fp Hp].
  - right. right. rewrite fval_NDS_FPS. rewrite !Z.abs_eq by nia.
    split; [|split].
    + apply Z.le_trans with (2 ^ 1068); [apply Z.pow_le_mono_r; lia|assumption].
    + apply Z.le_trans with (2 ^ 52 * 2 ^ 1027); [vm_compute; discriminate|].
      apply Z.mul_le_mono_nonneg_r; lia.
    + apply Z.le_trans with (2 ^ 1068 * (2 ^ 52 * 2 ^ 1027)); [vm_compute; discriminate|].
      apply Z.mul_le_mono_nonneg; try lia; apply Z.mul_le_mono_nonneg_r; lia.
  - rewrite fval_NDS_FPS. rewrite !Z.abs_eq by nia.
    apply Z.le_lt_trans with (2 ^ 27 * 2 ^ 1074 * (2 ^ 53 * 2 ^ 1027));
      [|apply Z.ltb_lt; vm_compute; reflexivity].
    apply Z.mul_le_mono_nonneg; try lia; apply Z.mul_le_mono_nonneg_r; lia.
  - rewrite fval_NDS_FPS in Hp.
    assert (Hp' : faithful (fval s * NDS_FPS_mantissa) (2 ^ 47) (fval (s * NDS_FPS))).
    { apply faithful_scale with (c := 2 ^ 1027); [assumption|].
      replace (2 ^ 47 * 2 ^ 1027) with (2 ^ 1074) by reflexivity.
      rewrite Z.mul_assoc in Hp. exact Hp. }
    assert (E47 : 2 ^ 1074 * 2 ^ 47 = 2 ^ 54 * 2 ^ 1067) by reflexivity.
    assert (Lo : (d - 1) * 2 ^ 1074 <= fval (s * NDS_FPS)).
    { apply (faithful_ge _ _ _ _ Hp' (fmt_int (d - 1) ltac:(lia))).
      rewrite <- Z.mul_assoc, E47.
      apply Z.le_trans with (a * 2 ^ 1067 * NDS_FPS_mantissa).
      - change (2 ^ 54) with 18014398509481984 in *. unfold NDS_FPS_mantissa in *. nia.
      - apply Z.mul_le_mono_nonneg_r; lia. }
    assert (Hi : fval (s * NDS_FPS) <= (2 * d + 1) * 2 ^ 1073).
    { apply (faithful_le _ _ _ _ Hp' (fmt_dyadic (2 * d + 1) 1073 ltac:(lia) ltac:(lia))).
      replace ((2 * d + 1) * 2 ^ 1073 * 2 ^ 47) with ((2 * d + 1) * 2 ^ 53 * 2 ^ 1067)
        by (change (2 ^ 1073) with (2 ^ 6 * 2 ^ 1067); change (2 ^ 53) with (2 ^ 6 * 2 ^ 47); ring).
      apply Z.le_trans with ((a + 1) * 2 ^ 1067 * NDS_FPS_mantissa).
      - apply Z.mul_le_mono_nonneg_r; lia.
      - change (2 ^ 54) with 18014398509481984 in *. change (2 ^ 53) with 9007199254740992.
        unfold NDS_FPS_mantissa in *. nia. }
    assert (E73 : 2 ^ 1074 = 2 * 2 ^ 1073) by reflexivity.
    unfold second_to_delay. fold s.
    destruct (Z_le_gt_dec (d * 2 ^ 1074) (fval (s * NDS_FPS))).
    + left. apply fp64_to_uint_floor; [assumption|lia|]. lia.
    + right. apply fp64_to_uint_floor; [assumption|lia|]. lia.
Qed.

(** ** The load time *)

Lemma calc_load_time_spec (cd cs td : Z) :
  ui32_range cd -> ui8_range cs -> ui32_range td ->
  finite (calc_load_time cd cs td) = true /\
  faithful (fval (delay_to_second (sub_ui32 td cd)) + cs * 2 ^ 1074) 1
           (fval (calc_load_time cd cs td)) /\
  cs * 2 ^ 1074 <= fval (calc_load_time cd cs td) <= (2 ^ 27 + 255) * 2 ^ 1074.
Proof.
  intros Hcd Hcs Htd. unfold calc_load_time.
  destruct (delay_to_second_bounds _ (sub_ui32_range td cd)) as [Fs Bs].
  unfold ui8_range in Hcs.
  destruct (fp64_of_uint_exact cs ltac:(lia)) as [Fc Vc].
  pose proof pow2_1074_pos as HU.
  assert (Hov : Z.abs (fval (delay_to_second (sub_ui32 td cd)) + fval (fp64_of_uint cs)) < 2 ^ 2097).
  { apply small_no_overflow. rewrite Vc. rewrite Z.abs_eq by nia. nia. }
  destruct (add_faithful _ _ Fs Fc Hov) as [F H]. rewrite Vc in H.
  split; [assumption|]. split; [assumption|]. split.
  - apply (faithful_ge _ _ _ _ H (fmt_int cs ltac:(lia))). lia.
  - apply (faithful_le _ _ _ _ H (fmt_int (2 ^ 27 + 255) ltac:(lia))). nia.
Qed.

Lemma calc_load_time_zero (cd cs td : Z) :
  ui32_range cd -> ui8_range cs -> ui32_range td ->
  (fval (calc_load_time cd cs td) = 0 <-> td = cd /\ cs = 0).
Proof.
  intros Hcd Hcs Htd.
  destruct (calc_load_time_spec cd cs td Hcd Hcs Htd) as (F & H & B).
  pose proof pow2_1074_pos as HU. pose proof (sub_ui32_range td cd) as Hd.
  split.
  - intros E. assert (cs = 0) by (unfold ui8_range in Hcs; nia). subst cs.
    split; [|reflexivity].
    apply sub_ui32_0; [assumption..|].
    destruct (Z.eq_dec (sub_ui32 td cd) 0) as [|Hn]; [assumption|exfalso].
    pose proof (delay_to_second_pos _ Hd ltac:(unfold ui32_range in Hd; lia)) as Hp.
    pose proof (faithful_ge _ _ _ _ H (fmt_dyadic 1 1068 ltac:(lia) ltac:(lia)) ltac:(lia)).
    assert (0 < 2 ^ 1068) by pow2_pos. lia.
  - intros [-> ->]. unfold calc_load_time.
    replace (sub_ui32 cd cd) with 0 by (symmetry; apply sub_ui32_0; auto).
    reflexivity.
Qed.

Lemma load_time_in_range (cd cs td : Z) :
  ui32_range cd -> ui8_range cs -> ui32_range td ->
  finite (calc_load_time cd cs td) = true /\
  0 <= fval (calc_load_time cd cs td) <= 2 ^ 28 * 2 ^ 1074.
Proof.
  intros Hcd Hcs Htd.
  destruct (calc_load_time_spec cd cs td Hcd Hcs Htd) as (F & _ & B).
  pose proof pow2_1074_pos. unfold ui8_range in Hcs. split; [assumption|]. nia.
Qed.

Lemma load_time_increasing (cs e1 e2 : Z) :
  ui8_range cs -> ui32_range e1 -> ui32_range e2 -> e1 < e2 ->
  fval (delay_to_second e1 + fp64_of_uint cs) < fval (delay_to_second e2 + fp64_of_uint cs).
Proof.
  intros Hcs H1 H2 Hlt. unfold ui8_range in Hcs.
  pose proof (delay_to_second_bracket e1 H1) as [_ B1].
  pose proof (delay_to_second_bracket e2 H2) as [B2 _].
  destruct (delay_to_second_bounds e1 H1) as [F1 R1].
  destruct (delay_to_second_bounds e2 H2) as [F2 R2].
  unfold ui32_range in H1, H2.
  destruct (delay_quotient e1 ltac:(lia)) as [[Q1 Q2] Q3].
  destruct (delay_quotient e2 ltac:(lia)) as [[Q4 Q5] Q6].
  set (a1 := e1 * 2 ^ 54 / NDS_FPS_mantissa) in *.
  set (a2 := e2 * 2 ^ 54 / NDS_FPS_mantissa) in *.
  assert (Ha : a1 + 2 <= a2).
  { unfold NDS_FPS_mantissa in *. change (2 ^ 54) with 18014398509481984 in *. nia. }
  destruct (fp64_of_uint_exact cs ltac:(lia)) as [Fc Vc].
  pose proof pow2_1074_pos as HU.
  assert (HP : 0 < 2 ^ 1067) by pow2_pos.
  assert (EU : 2 ^ 1074 = 128 * 2 ^ 1067) by reflexivity.
  assert (Hov1 : Z.abs (fval (delay_to_second e1) + fval (fp64_of_uint cs)) < 2 ^ 2097).
  { apply small_no_overflow. rewrite Vc. apply Z.abs_le. nia. }
  assert (Hov2 : Z.abs (fval (delay_to_second e2) + fval (fp64_of_uint cs)) < 2 ^ 2097).
  { apply small_no_overflow. rewrite Vc. apply Z.abs_le. nia. }
  destruct (add_faithful _ _ F1 Fc Hov1) as [_ A1].
  destruct (add_faithful _ _ F2 Fc Hov2) as [_ A2].
  rewrite Vc in A1, A2.
  assert (L1 : fval (delay_to_second e1 + fp64_of_uint cs) <= (a1 + 1 + 128 * cs) * 2 ^ 1067).
  { assert (Fm : fmt ((a1 + 1 + 128 * cs) * 2 ^ 1067)) by (apply fmt_dyadic; lia).
    apply (faithful_le _ _ _ _ A1 Fm). lia. }
  assert (L2 : (a2 + 128 * cs) * 2 ^ 1067 <= fval (delay_to_second e2 + fp64_of_uint cs)).
  { assert (Fm : fmt ((a2 + 128 * cs) * 2 ^ 1067)) by (apply fmt_dyadic; lia).
    apply (faithful_ge _ _ _ _ A2 Fm). lia. }
  nia.
Qed.

(** ** The boot time before the loop *)

Lemma calc_boot_time_spec (ts : Z) (lt : float) :
  ui8_range ts -> finite lt = true -> 0 <= fval lt <= 2 ^ 28 * 2 ^ 1074 ->
  let x := (fp64_of_uint ts - lt)%float in
  finite x = true /\ faithful (ts * 2 ^ 1074 - fval lt) 1 (fval x) /\
  finite (fmod x S_PER_MIN) = true /\
  fval (fmod x S_PER_MIN) = Z.rem (fval x) (60 * 2 ^ 1074) /\
  finite (calc_boot_time ts lt) = true /\
  faithful (fval (fmod x S_PER_MIN) + 7205759403792794 * 2 ^ 1019) 1
           (fval (calc_boot_time ts lt)) /\
  - (60 * 2 ^ 1074) <= fval (calc_boot_time ts lt) <= 61 * 2 ^ 1074.
Proof.
  intros Hts Fl Bl x. unfold ui8_range in Hts.
  pose proof pow2_1074_pos as HU.
  destruct (fp64_of_uint_exact ts ltac:(lia)) as [Ft Vt].
  destruct fval_S_PER_MIN as [F60 V60]. destruct fval_fudge as [F02 V02].
  assert (Hovx : Z.abs (fval (fp64_of_uint ts) - fval lt) < 2 ^ 2097).
  { apply small_no_overflow. rewrite Vt. apply Z.abs_le. nia. }
  destruct (sub_faithful _ _ Ft Fl Hovx) as [Fx Hx]. fold x in Fx, Hx. rewrite Vt in Hx.
  destruct (fmod_spec x S_PER_MIN Fx F60) as [Fr Vr].
  { rewrite V60. lia. }
  { apply small_no_overflow. rewrite V60. rewrite Z.abs_eq by lia. nia. }
  rewrite V60 in Vr.
  assert (Br : - (60 * 2 ^ 1074) < fval (fmod x S_PER_MIN) < 60 * 2 ^ 1074).
  { rewrite Vr. pose proof (Z.rem_bound_abs (fval x) (60 * 2 ^ 1074) ltac:(lia)) as H.
    rewrite (Z.abs_eq (60 * 2 ^ 1074)) in H by lia. lia. }
  assert (H02 : 0 < 7205759403792794 * 2 ^ 1019 < 2 ^ 1074).
  { split; [apply Z.mul_pos_pos; [lia|apply Z.pow_pos_nonneg; lia]|].
    apply Z.ltb_lt. vm_compute. reflexivity. }
  assert (Hovb : Z.abs (fval (fmod x S_PER_MIN) + fval 0.2%float) < 2 ^ 2097).
  { apply small_no_overflow. rewrite V02. apply Z.abs_le. nia. }
  destruct (add_faithful _ _ Fr F02 Hovb) as [Fb Hb]. rewrite V02 in Hb.
  repeat (split; [assumption|]).
  unfold calc_boot_time. fold x. split.
  - replace (- (60 * 2 ^ 1074)) with ((-60) * 2 ^ 1074) by lia.
    apply (faithful_ge _ _ _ _ Hb (fmt_int (-60) ltac:(lia))). lia.
  - apply (faithful_le _ _ _ _ Hb (fmt_int 61 ltac:(lia))). lia.
Qed.

(** ** The loop *)

Lemma adjust_boot_time_fuel (fuel : nat) : forall (b : float) (n : nat) (r : float * nat),
  adjust_boot_time fuel b n = Some r ->
  forall fuel', (fuel <= fuel')%nat -> adjust_boot_time fuel' b n = Some r.
Proof.
  induction fuel as [|fuel IH]; intros b n r E fuel' Hle.
  - cbn [adjust_boot_time] in E.
    destruct fuel'; cbn [adjust_boot_time]; destruct (b <? MIN_BOOT_TIME)%float;
      congruence.
  - destruct fuel' as [|fuel']; [lia|].
    cbn [adjust_boot_time] in E |- *. destruct (b <? MIN_BOOT_TIME)%float; [|assumption].
    apply IH; [assumption|lia].
Qed.

Lemma add_minute (b : float) (lo hi : Z) :
  finite b = true -> -2 ^ 20 <= lo -> hi <= 2 ^ 20 -> lo <= hi ->
  lo * 2 ^ 1074 <= fval b <= hi * 2 ^ 1074 ->
  finite (b + S_PER_MIN) = true /\
  faithful (fval b + 60 * 2 ^ 1074) 1 (fval (b + S_PER_MIN)) /\
  (lo + 60) * 2 ^ 1074 <= fval (b + S_PER_MIN) <= (hi + 60) * 2 ^ 1074.
Proof.
  intros Fb Hlo Hhi Hle Hb. pose proof pow2_1074_pos as HU.
  destruct fval_S_PER_MIN as [F60 V60].
  assert (Hov : Z.abs (fval b + fval S_PER_MIN) < 2 ^ 2097).
  { apply small_no_overflow. rewrite V60. apply Z.abs_le. nia. }
  destruct (add_faithful _ _ Fb F60 Hov) as [F H]. rewrite V60 in H.
  split; [assumption|]. split; [assumption|]. split.
  - apply (faithful_ge _ _ _ _ H (fmt_int (lo + 60) ltac:(lia))). lia.
  - apply (faithful_le _ _ _ _ H (fmt_int (hi + 60) ltac:(lia))). lia.
Qed.

Lemma adjust_boot_time_spec (b0 : float) :
  finite b0 = true -> - (60 * 2 ^ 1074) <= fval b0 <= 61 * 2 ^ 1074 ->
  exists (b : float) (n : nat),
    adjust_boot_time 2 b0 O = Some (b, n) /\ (n <= 2)%nat /\
    finite b = true /\ 14 * 2 ^ 1074 <= fval b <= 74 * 2 ^ 1074 /\
    (b <? MIN_BOOT_TIME)%float = false /\
    match n with
    | O => b = b0
    | S O => (b0 <? MIN_BOOT_TIME)%float = true /\ b = (b0 + S_PER_MIN)%float /\
             fval b0 < fval b
    | _ => (b0 <? MIN_BOOT_TIME)%float = true /\
           (b0 + S_PER_MIN <? MIN_BOOT_TIME)%float = true /\
           b = (b0 + S_PER_MIN + S_PER_MIN)%float /\
           fval b0 < fval (b0 + S_PER_MIN) < fval b
    end.
Proof.
  intros F0 B0. pose proof pow2_1074_pos as HU.
  destruct fval_MIN_BOOT_TIME as [F14 V14].
  cbn [adjust_boot_time].
  destruct (b0 <? MIN_BOOT_TIME)%float eqn:E0.
  - apply ltb_true in E0; [|assumption..]. rewrite V14 in E0.
    destruct (add_minute b0 (-60) 14 F0) as (F1 & H1 & B1); try lia.
    assert (Hup : fval b0 < fval (b0 + S_PER_MIN)).
    { destruct (Z_lt_le_dec (fval b0) 0) as [|Hge]; [lia|].
      pose proof (faithful_ge _ _ _ _ H1 (fmt_int 14 ltac:(lia)) ltac:(lia)). lia. }
    destruct (b0 + S_PER_MIN <? MIN_BOOT_TIME)%float eqn:E1.
    + apply ltb_true in E1; [|assumption..]. rewrite V14 in E1.
      destruct (add_minute (b0 + S_PER_MIN) 0 14 F1) as (F2 & _ & B2); try lia.
      assert (E2 : (b0 + S_PER_MIN + S_PER_MIN <? MIN_BOOT_TIME)%float = false).
      { apply ltb_false; [assumption..|]. rewrite V14. lia. }
      rewrite E2. eexists _, _. split; [reflexivity|].
      repeat split; try assumption; try lia.
    + eexists _, _. split; [reflexivity|].
      pose proof E1 as E1'. apply ltb_false in E1'; [|assumption..]. rewrite V14 in E1'.
      repeat split; try assumption; try lia.
  - eexists _, _. split; [reflexivity|].
    pose proof E0 as E0'. apply ltb_false in E0'; [|assumption..]. rewrite V14 in E0'.
    repeat split; try assumption; try lia.
Qed.

(** ** The offset *)

Lemma calc_offset_spec (b lt : float) :
  finite b = true -> 14 * 2 ^ 1074 <= fval b <= 74 * 2 ^ 1074 ->
  finite lt = true -> 0 <= fval lt <= 2 ^ 28 * 2 ^ 1074 ->
  let q := ((b + lt) / S_PER_MIN)%float in
  finite q = true /\ 0 <= fval q /\
  calc_offset b lt = if (q <? 256)%float then Some (fval q / 2 ^ 1074) else None.
Proof.
  intros Fb Bb Fl Bl q. pose proof pow2_1074_pos as HU.
  destruct fval_S_PER_MIN as [F60 V60].
  assert (Hov : Z.abs (fval b + fval lt) < 2 ^ 2097).
  { apply small_no_overflow. apply Z.abs_le. nia. }
  destruct (add_bounds b lt (14 * 2 ^ 1074) ((74 + 2 ^ 28) * 2 ^ 1074) Fb Fl Hov)
    as [Fs Bs]; [apply fmt_int; lia | apply fmt_int; lia | lia |].
  assert (E53 : 2 ^ 53 <= 2 ^ 1074) by (apply Z.pow_le_mono_r; lia).
  destruct (div_faithful (b + lt) S_PER_MIN Fs F60) as [Fq Hq].
  - rewrite V60. lia.
  - right. rewrite V60, Z.abs_eq by lia. split; [lia|]. split; [lia|].
    apply Z.le_trans with (14 * 2 ^ 1074 * 2 ^ 1074); [|nia].
    replace (2 ^ 54 * (60 * 2 ^ 1074)) with (2 ^ 54 * 60 * 2 ^ 1074) by ring.
    apply Z.mul_le_mono_nonneg_r; [lia|].
    apply Z.le_trans with (14 * 2 ^ 60); [vm_compute; discriminate|].
    apply Z.mul_le_mono_nonneg_l; [lia|]. apply Z.pow_le_mono_r; lia.
  - rewrite V60, Z.abs_eq by lia.
    apply Z.lt_le_trans with (2 ^ 30 * 2 ^ 1074 * 2 ^ 1074).
    + apply Z.mul_lt_mono_pos_r; [lia|]. nia.
    + apply Z.leb_le. vm_compute. reflexivity.
  - fold q in Fq, Hq. split; [assumption|].
    assert (H0 : 0 <= fval q).
    { apply (faithful_ge _ _ _ 0 Hq fmt_0). nia. }
    split; [assumption|].
    unfold calc_offset. fold q. rewrite fp64_to_uint_nonneg by assumption.
    assert (F256 : finite 256%float = true /\ fval 256%float = 256 * 2 ^ 1074).
    { replace 256%float with (fp64_of_uint 256) by reflexivity.
      apply fp64_of_uint_exact. lia. }
    destruct F256 as [F256 V256].
    rewrite ltb_fval by assumption. rewrite V256.
    destruct (Z.ltb_spec (fval q) (256 * 2 ^ 1074)) as [Hlt|Hge].
    + replace (fval q / 2 ^ 1074 <? 2 ^ 8) with true; [reflexivity|].
      symmetry. apply Z.ltb_lt. apply Z.div_lt_upper_bound; lia.
    + replace (fval q / 2 ^ 1074 <? 2 ^ 8) with false; [reflexivity|].
      symmetry. apply Z.ltb_ge. apply Z.div_le_lower_bound; lia.
Qed.

(** ** [get_time_data] *)

Lemma get_time_data_Ret (debug : bool) (fuel : nat) (cd cs td ts : Z) (r : TimeData) :
  get_time_data debug fuel cd cs td ts = Ret r ->
  load_time r = calc_load_time cd cs td /\
  (exists n, adjust_boot_time fuel (calc_boot_time ts (calc_load_time cd cs td)) O
             = Some (boot_time r, n)) /\
  offset r = calc_offset (boot_time r) (load_time r).
Proof.
  unfold get_time_data.
  destruct (ASSERT_load_time debug (calc_load_time cd cs td)); cbn [bind]; try discriminate.
  destruct (adjust_boot_time fuel _ O) as [[bt n]|]; cbn [bind]; try discriminate.
  intros E. injection E as <-. cbn [load_time boot_time offset]. eauto.
Qed.

Lemma get_time_data_Trap (debug : bool) (fuel : nat) (cd cs td ts : Z) :
  get_time_data debug fuel cd cs td ts = Trap <->
  ASSERT_load_time debug (calc_load_time cd cs td) = Trap.
Proof.
  unfold get_time_data.
  destruct (ASSERT_load_time debug (calc_load_time cd cs td)); cbn [bind];
    try (split; (reflexivity || discriminate)).
  destruct (adjust_boot_time fuel _ O) as [[bt n]|]; cbn [bind]; split; discriminate.
Qed.

Lemma get_time_data_fuel (debug : bool) (fuel fuel' : nat) (cd cs td ts : Z) (r : TimeData) :
  (fuel <= fuel')%nat ->
  get_time_data debug fuel cd cs td ts = Ret r ->
  get_time_data debug fuel' cd cs td ts = Ret r.
Proof.
  intros Hle. unfold get_time_data.
  destruct (ASSERT_load_time debug (calc_load_time cd cs td)); cbn [bind]; try discriminate.
  destruct (adjust_boot_time fuel _ O) as [[bt n]|] eqn:E; cbn [bind]; try discriminate.
  rewrite (adjust_boot_time_fuel _ _ _ _ E fuel' Hle). cbn [bind]. trivial.
Qed.

Lemma ASSERT_load_time_Trap (lt : float) :
  finite lt = true ->
  (ASSERT_load_time true lt = Trap <-> fval lt = 0).
Proof.
  intros F. unfold ASSERT_load_time, lnot_fp64.
  destruct fval_zero as [F0 V0].
  destruct (lt =? 0)%float eqn:E; cbn [fp64_of_bool].
  - apply eqb_true in E; [|assumption..]. rewrite V0 in E.
    replace (0 <? 1)%float with true by reflexivity. tauto.
  - replace (0 <? 0)%float with false by reflexivity.
    split; [discriminate|]. intros H.
    assert ((lt =? 0)%float = true) by (apply eqb_true; [assumption..|]; rewrite V0; exact H).
    congruence.
Qed.

Lemma forallb_range (P : Z -> bool) (n : nat) :
  forallb P (map Z.of_nat (seq 0 n)) = true ->
  forall z, 0 <= z < Z.of_nat n -> P z = true.
Proof.
  intros H z Hz. rewrite forallb_forall in H. apply H.
  apply in_map_iff. exists (Z.to_nat z). split; [lia|].
  apply in_seq. lia.
Qed.

(** ** The load time stays away from [j + 0.2]

    The boot time reaches [74] only if the value before the last addition is
    within [2^-46] of [14].  That needs a load time within a few [2^-40] of
    an integer plus [0.2], or a difference [target_second - load_time] of
    128 and more in magnitude; neither occurs. *)

Lemma delay_far_from_fifth_all (j : Z) : 0 <= j <= 400 -> delay_far_from_fifth j = true.
Proof.
  intros Hj. apply (forallb_range delay_far_from_fifth 401); [|lia].
  vm_compute. reflexivity.
Qed.

Lemma delay_not_near_fifth (d j : Z) :
  ui32_range d -> 0 <= j <= 400 ->
  ~ (j * 2 ^ 1074 + (fifth - 9) * 2 ^ 1034 <= fval (delay_to_second d)
     <= j * 2 ^ 1074 + (fifth + 9) * 2 ^ 1034).
Proof.
  intros Hd Hj [H1 H2].
  destruct (delay_to_second_faithful d Hd) as [_ H].
  pose proof (delay_far_from_fifth_all j Hj) as Hc.
  unfold delay_far_from_fifth in Hc. apply Z.leb_le in Hc.
  unfold fifth in *.
  assert (Hg : 0 < 2 ^ 1034) by pow2_pos.
  assert (EU : 2 ^ 1074 = 2 ^ 40 * 2 ^ 1034) by reflexivity.
  rewrite EU in H, H1, H2.
  assert (Flo : fmt ((j * 2 ^ 40 + 219902325555 - 10) * 2 ^ 1034)) by (apply fmt_dyadic; lia).
  assert (Fhi : fmt ((j * 2 ^ 40 + 219902325555 + 10) * 2 ^ 1034)) by (apply fmt_dyadic; lia).
  pose proof (faithful_gt_inv _ _ _ _ H Flo ltac:(lia)) as G1.
  pose proof (faithful_lt_inv _ _ _ _ H Fhi ltac:(lia)) as G2.
  set (lo := (j * 2 ^ 40 + 219902325555 - 10) * NDS_FPS_mantissa) in *.
  set (hi := (j * 2 ^ 40 + 219902325555 + 10) * NDS_FPS_mantissa) in *.
  assert (G1' : lo < d * 2 ^ 87).
  { apply Z.mul_lt_mono_pos_r with (p := 2 ^ 1034); [assumption|].
    replace (d * 2 ^ 87 * 2 ^ 1034) with (d * 2 ^ 47 * (2 ^ 40 * 2 ^ 1034))
      by (change (2 ^ 87) with (2 ^ 47 * 2 ^ 40); ring).
    unfold lo. lia. }
  assert (G2' : d * 2 ^ 87 < hi).
  { apply Z.mul_lt_mono_pos_r with (p := 2 ^ 1034); [assumption|].
    replace (d * 2 ^ 87 * 2 ^ 1034) with (d * 2 ^ 47 * (2 ^ 40 * 2 ^ 1034))
      by (change (2 ^ 87) with (2 ^ 47 * 2 ^ 40); ring).
    unfold hi. lia. }
  assert (Hdm : lo / 2 ^ 87 + 1 <= d).
  { assert (lo / 2 ^ 87 < d); [|lia].
    apply Z.div_lt_upper_bound; lia. }
  assert (P87 : 0 < 2 ^ 87) by lia.
  clearbody lo hi. nia.
Qed.

Lemma load_not_near_fifth (cd cs td J : Z) :
  ui32_range cd -> ui8_range cs -> ui32_range td -> -1000 <= J <= 400 ->
  ~ (J * 2 ^ 1074 + (fifth - 8) * 2 ^ 1034 <= fval (calc_load_time cd cs td)
     <= J * 2 ^ 1074 + (fifth + 8) * 2 ^ 1034).
Proof.
  intros Hcd Hcs Htd HJ [H1 H2].
  destruct (calc_load_time_spec cd cs td Hcd Hcs Htd) as (_ & H & _).
  destruct (delay_to_second_bounds _ (sub_ui32_range td cd)) as [_ Bs].
  apply (delay_not_near_fifth (sub_ui32 td cd) (J - cs) (sub_ui32_range td cd)).
  - unfold fifth in *. unfold ui8_range in Hcs.
    assert (Hg : 0 < 2 ^ 1034) by pow2_pos.
    assert (EU : 2 ^ 1074 = 2 ^ 40 * 2 ^ 1034) by reflexivity.
    rewrite EU in *.
    assert (Fhi : fmt ((J * 2 ^ 40 + 219902325555 + 9) * 2 ^ 1034)) by (apply fmt_dyadic; lia).
    pose proof (faithful_lt_inv _ _ _ _ H Fhi ltac:(lia)) as G2.
    set (g := 2 ^ 1034) in *. clearbody g.
    assert (0 <= J - cs); [|lia].
    destruct (Z_le_gt_dec 0 (J - cs)) as [|Hneg]; [assumption|exfalso].
    assert ((J - cs + 1) * (2 ^ 40 * g) <= 0) by nia.
    lia.
  - unfold fifth in *. unfold ui8_range in Hcs.
    assert (Hg : 0 < 2 ^ 1034) by pow2_pos.
    assert (EU : 2 ^ 1074 = 2 ^ 40 * 2 ^ 1034) by reflexivity.
    rewrite EU in *.
    assert (Flo : fmt ((J * 2 ^ 40 + 219902325555 - 9) * 2 ^ 1034)) by (apply fmt_dyadic; lia).
    assert (Fhi : fmt ((J * 2 ^ 40 + 219902325555 + 9) * 2 ^ 1034)) by (apply fmt_dyadic; lia).
    pose proof (faithful_gt_inv _ _ _ _ H Flo ltac:(lia)) as G1.
    pose proof (faithful_lt_inv _ _ _ _ H Fhi ltac:(lia)) as G2.
    lia.
Qed.

(** The difference [target_second - load_time] stays away from [J - 0.2]. *)
Lemma difference_not_near_fifth (cd cs td ts J : Z) :
  ui32_range cd -> ui8_range cs -> ui32_range td -> ui8_range ts -> -145 <= J <= 1000 ->
  ~ (J * 2 ^ 1074 - (fifth + 7) * 2 ^ 1034
     <= fval (fp64_of_uint ts - calc_load_time cd cs td)
     <= J * 2 ^ 1074 - (fifth - 7) * 2 ^ 1034).
Proof.
  intros Hcd Hcs Htd Hts HJ [H1 H2].
  destruct (load_time_in_range cd cs td Hcd Hcs Htd) as [Fl Bl].
  destruct (calc_boot_time_spec ts _ Hts Fl Bl) as (_ & H & _).
  apply (load_not_near_fifth cd cs td (ts - J) Hcd Hcs Htd).
  - unfold ui8_range in Hts. lia.
  - unfold fifth in *. unfold ui8_range in Hts.
    assert (Hg : 0 < 2 ^ 1034) by pow2_pos.
    assert (EU : 2 ^ 1074 = 2 ^ 40 * 2 ^ 1034) by reflexivity.
    rewrite EU in *.
    assert (Flo : fmt ((J * 2 ^ 40 - 219902325555 - 8) * 2 ^ 1034)) by (apply fmt_dyadic; lia).
    assert (Fhi : fmt ((J * 2 ^ 40 - 219902325555 + 8) * 2 ^ 1034)) by (apply fmt_dyadic; lia).
    pose proof (faithful_gt_inv _ _ _ _ H Flo ltac:(lia)) as G1.
    pose proof (faithful_lt_inv _ _ _ _ H Fhi ltac:(lia)) as G2.
    lia.
Qed.

(** Adding a minute only reaches [74] from just below [14]. *)
Lemma near_74 (v : float) :
  finite v = true -> - (60 * 2 ^ 1074) <= fval v <= 14 * 2 ^ 1074 ->
  74 * 2 ^ 1074 <= fval (v + S_PER_MIN) ->
  14 * 2 ^ 1074 - 2 ^ 1028 < fval v.
Proof.
  intros Fv Bv H74. pose proof pow2_1074_pos as HU.
  destruct (add_minute v (-60) 14 Fv) as (_ & H & _); try lia.
  assert (E : 2 ^ 1074 = 2 ^ 46 * 2 ^ 1028) by reflexivity.
  assert (HP : 0 < 2 ^ 1028) by pow2_pos.
  assert (FA : fmt ((74 * 2 ^ 46 - 1) * 2 ^ 1028)) by (apply fmt_dyadic; lia).
  pose proof (faithful_gt_inv _ _ _ _ H FA) as G. rewrite E in *. lia.
Qed.

Lemma boot_time_not_74_once (cd cs td ts : Z) :
  ui32_range cd -> ui8_range cs -> ui32_range td -> ui8_range ts ->
  let b0 := calc_boot_time ts (calc_load_time cd cs td) in
  fval b0 < 14 * 2 ^ 1074 -> fval (b0 + S_PER_MIN) < 74 * 2 ^ 1074.
Proof.
  intros Hcd Hcs Htd Hts b0 E0.
  destruct (Z_lt_le_dec (fval (b0 + S_PER_MIN)) (74 * 2 ^ 1074)) as [|H74]; [assumption|exfalso].
  destruct (load_time_in_range cd cs td Hcd Hcs Htd) as [Fl Bl].
  destruct (calc_boot_time_spec ts _ Hts Fl Bl) as (Fx & Hx & Fr & Vr & Fb & Hb & Bb).
  fold b0 in Fb, Hb, Bb.
  set (x := (fp64_of_uint ts - calc_load_time cd cs td)%float) in *.
  set (r := fmod x S_PER_MIN) in *.
  pose proof (near_74 b0 Fb ltac:(lia) H74) as N0.
  pose proof fudge_units as [C1 C2]. unfold fifth in C1, C2.
  pose proof (Z.quot_rem' (fval x) (60 * 2 ^ 1074)) as Eq. rewrite <- Vr in Eq.
  set (q := Z.quot (fval x) (60 * 2 ^ 1074)) in *. clearbody q.
  (* everything in units of [2^1019] *)
  assert (EU : 2 ^ 1074 = 2 ^ 55 * 2 ^ 1019) by reflexivity.
  assert (E34 : 2 ^ 1034 = 2 ^ 15 * 2 ^ 1019) by reflexivity.
  assert (E28 : 2 ^ 1028 = 2 ^ 9 * 2 ^ 1019) by reflexivity.
  assert (Hw : 0 < 2 ^ 1019) by pow2_pos.
  assert (FA1 : fmt ((14 * 2 ^ 40 - 1) * 2 ^ 1034)) by (apply fmt_dyadic; lia).
  assert (FA2 : fmt (14 * 2 ^ 1074)) by (apply fmt_int; lia).
  pose proof (faithful_gt_inv _ _ _ _ Hb FA1) as G1.
  pose proof (faithful_lt_inv _ _ _ _ Hb FA2 E0) as G2.
  assert (Fx255 : fmt (255 * 2 ^ 1074)) by (apply fmt_int; lia).
  pose proof (faithful_le _ _ _ _ Hx Fx255) as X255.
  unfold ui8_range in Hts.
  assert (Hxpos : 0 < fval x).
  { destruct (Z_lt_le_dec 0 (fval x)) as [|Hle]; [assumption|exfalso].
    pose proof (Z.rem_nonpos (fval x) (60 * 2 ^ 1074) ltac:(lia) Hle) as Hr.
    rewrite <- Vr in Hr. rewrite EU, E34, E28 in *. lia. }
  apply (difference_not_near_fifth cd cs td ts (14 + 60 * q) Hcd Hcs Htd
           (conj (proj1 Hts) (proj2 Hts))).
  - rewrite EU, E34, E28 in *. set (w := 2 ^ 1019) in *. clearbody w.
    assert (0 <= q) by nia. assert (q <= 4) by nia. lia.
  - unfold fifth. fold x. rewrite EU, E34, E28 in *.
    set (w := 2 ^ 1019) in *. clearbody w. lia.
Qed.

Lemma boot_time_not_74_twice (cd cs td ts : Z) :
  ui32_range cd -> ui8_range cs -> ui32_range td -> ui8_range ts ->
  let b0 := calc_boot_time ts (calc_load_time cd cs td) in
  fval b0 < 14 * 2 ^ 1074 -> fval (b0 + S_PER_MIN) < 14 * 2 ^ 1074 ->
  fval (b0 + S_PER_MIN + S_PER_MIN) < 74 * 2 ^ 1074.
Proof.
  intros Hcd Hcs Htd Hts b0 E0 E1.
  destruct (Z_lt_le_dec (fval (b0 + S_PER_MIN + S_PER_MIN)) (74 * 2 ^ 1074)) as [|H74];
    [assumption|exfalso].
  destruct (load_time_in_range cd cs td Hcd Hcs Htd) as [Fl Bl].
  destruct (calc_boot_time_spec ts _ Hts Fl Bl) as (Fx & Hx & Fr & Vr & Fb & Hb & Bb).
  fold b0 in Fb, Hb, Bb.
  set (x := (fp64_of_uint ts - calc_load_time cd cs td)%float) in *.
  set (r := fmod x S_PER_MIN) in *.
  pose proof pow2_1074_pos as HU.
  destruct (add_minute b0 (-60) 14 Fb) as (F1 & H1 & B1); try lia.
  pose proof (near_74 (b0 + S_PER_MIN) F1 ltac:(lia) H74) as N1.
  pose proof fudge_units as [C1 C2]. unfold fifth in C1, C2.
  pose proof (Z.quot_rem' (fval x) (60 * 2 ^ 1074)) as Eq. rewrite <- Vr in Eq.
  set (q := Z.quot (fval x) (60 * 2 ^ 1074)) in *. clearbody q.
  assert (EU : 2 ^ 1074 = 2 ^ 55 * 2 ^ 1019) by reflexivity.
  assert (E34 : 2 ^ 1034 = 2 ^ 15 * 2 ^ 1019) by reflexivity.
  assert (E28 : 2 ^ 1028 = 2 ^ 9 * 2 ^ 1019) by reflexivity.
  assert (E27 : 2 ^ 1027 = 2 ^ 8 * 2 ^ 1019) by reflexivity.
  assert (E29 : 2 ^ 1029 = 2 ^ 10 * 2 ^ 1019) by reflexivity.
  assert (E81 : 2 ^ 1081 = 2 ^ 62 * 2 ^ 1019) by reflexivity.
  assert (Hw : 0 < 2 ^ 1019) by pow2_pos.
  (* the value before the first addition is just below [-46] *)
  assert (FB1 : fmt ((14 * 2 ^ 46 - 1) * 2 ^ 1028)) by (apply fmt_dyadic; lia).
  assert (FB2 : fmt (14 * 2 ^ 1074)) by (apply fmt_int; lia).
  pose proof (faithful_gt_inv _ _ _ _ H1 FB1) as G1.
  pose proof (faithful_lt_inv _ _ _ _ H1 FB2 E1) as G2.
  assert (B0 : - (46 * 2 ^ 1074) - 2 ^ 1028 < fval b0 < - (46 * 2 ^ 1074)).
  { rewrite EU, E28 in *. lia. }
  (* so is the remainder, shifted by the fudge constant *)
  assert (FC1 : fmt ((- (46 * 2 ^ 46) - 1) * 2 ^ 1028)) by (apply fmt_dyadic; lia).
  assert (FC2 : fmt ((-46) * 2 ^ 1074)) by (apply fmt_int; lia).
  pose proof (faithful_gt_inv _ _ _ _ Hb FC1) as G3.
  pose proof (faithful_lt_inv _ _ _ _ Hb FC2) as G4.
  assert (R0 : - (46 * 2 ^ 1074) - 2 ^ 1028 - 7205759403792794 * 2 ^ 1019 < fval r
               < - (46 * 2 ^ 1074) - 7205759403792794 * 2 ^ 1019).
  { rewrite EU, E28 in *. lia. }
  assert (Hxneg : fval x < 0).
  { destruct (Z_lt_le_dec (fval x) 0) as [|Hge]; [assumption|exfalso].
    pose proof (Z.rem_nonneg (fval x) (60 * 2 ^ 1074) ltac:(lia) Hge) as Hr.
    rewrite <- Vr in Hr. rewrite EU, E28 in *. lia. }
  (* the remainder is a multiple of [2^1027] but not of [2^1029] *)
  assert (Dr : (2 ^ 1027 | fval r)).
  { apply fmt_multiple; [apply fval_fmt|lia|].
    change (2 ^ (1027 + 52)) with (2 ^ 5 * 2 ^ 1074). lia. }
  assert (Hx128 : - 2 ^ 1081 < fval x).
  { destruct (Z_lt_le_dec (- 2 ^ 1081) (fval x)) as [|Hle]; [assumption|exfalso].
    assert (Dx : (2 ^ 1029 | fval x)).
    { apply fmt_multiple; [apply fval_fmt|lia|].
      change (2 ^ (1029 + 52)) with (2 ^ 1081). lia. }
    assert (Dr' : (2 ^ 1029 | fval r)).
    { replace (fval r) with (fval x - 60 * 2 ^ 1074 * q) by lia.
      apply Z.divide_sub_r; [assumption|].
      apply Z.divide_mul_l, Z.divide_mul_r.
      exists (2 ^ 45). reflexivity. }
    destruct Dr' as [t Et]. rewrite Et in R0.
    rewrite EU, E28, E29 in R0. set (w := 2 ^ 1019) in *. clearbody w.
    assert (T1 : - (46 * 2 ^ 55) - 2 ^ 9 - 7205759403792794 < t * 2 ^ 10)
      by (apply (lt_cancel_r _ _ w Hw); lia).
    assert (T2 : t * 2 ^ 10 < - (46 * 2 ^ 55) - 7205759403792794)
      by (apply (lt_cancel_r _ _ w Hw); lia).
    lia. }
  unfold ui8_range in Hts.
  apply (difference_not_near_fifth cd cs td ts (-46 + 60 * q) Hcd Hcs Htd
           (conj (proj1 Hts) (proj2 Hts))).
  - rewrite EU, E34, E28, E81 in *. set (w := 2 ^ 1019) in *. clearbody w.
    assert (-1 <= q) by nia. assert (q <= 0) by nia. lia.
  - unfold fifth. fold x. rewrite EU, E34, E28, E81 in *.
    set (w := 2 ^ 1019) in *. clearbody w. lia.
Qed.

(** ** Conversions at large *)

(** The truncation of a finite value is the quotient of its scaled value,
    rounded toward zero. *)
Lemma SFtrunc_quot (x : spec_float) :
  valid_binary x = true -> SFfinite x = true ->
  SFtrunc x = Some (Z.quot (SFval x) (2 ^ 1074)).
Proof.
  intros V F. pose proof pow2_1074_pos as HU.
  destruct x as [s|s| |s m e]; try discriminate.
  - reflexivity.
  - apply valid_finite_inv in V. destruct V as (He & _).
    pose proof (SFtrunc_nonneg m e ltac:(lia)) as E.
    assert (Hp : 0 < 2 ^ (e + 1074)) by pow2_pos.
    apply (f_equal (fun o => match o with Some z => z | None => 0 end)) in E.
    unfold SFtrunc in E |- *. unfold cond_Zopp at 1 in E. cbv beta iota in E.
    unfold SFval. rewrite E. f_equal.
    destruct s; cbn [cond_Zopp].
    + rewrite Z.quot_opp_l by lia. rewrite Z.quot_div_nonneg by nia. reflexivity.
    + rewrite Z.quot_div_nonneg by nia. reflexivity.
Qed.

Lemma quot_range (v U n : Z) :
  0 < U -> 0 < n -> (0 <= Z.quot v U < n <-> - U < v < n * U).
Proof.
  intros HU Hn. destruct (Z_lt_le_dec v 0) as [Hv|Hv].
  - replace v with (- (- v)) by lia. rewrite Z.quot_opp_l by lia.
    rewrite Z.quot_div_nonneg by lia.
    pose proof (Z.div_pos (- v) U ltac:(lia) HU) as H0.
    split.
    + intros [H _]. assert (E : - v / U = 0) by lia.
      apply Z.div_small_iff in E; [|lia]. nia.
    + intros [H _]. rewrite Z.div_small by lia. lia.
  - rewrite Z.quot_div_nonneg by lia.
    pose proof (Z.div_pos v U Hv HU) as H0. split.
    + intros [_ H]. split; [lia|].
      destruct (Z_lt_le_dec v (n * U)) as [|Hge]; [assumption|].
      assert (n <= v / U) by (apply Z.div_le_lower_bound; lia). lia.
    + intros [_ H]. split; [assumption|]. apply Z.div_lt_upper_bound; lia.
Qed.

Lemma fp64_to_uint_spec (bits : Z) (x : float) (z : Z) :
  0 <= bits ->
  (fp64_to_uint bits x = Some z <->
   finite x = true /\ - 2 ^ 1074 < fval x < 2 ^ bits * 2 ^ 1074 /\
   z = Z.quot (fval x) (2 ^ 1074)).
Proof.
  intros Hb. pose proof pow2_1074_pos as HU.
  assert (Hn : 0 < 2 ^ bits) by pow2_pos.
  unfold fp64_to_uint, finite, fval.
  pose proof (Prim2SF_valid x) as V.
  destruct (SFfinite (Prim2SF x)) eqn:F.
  - rewrite (SFtrunc_quot _ V F).
    set (q := Z.quot (SFval (Prim2SF x)) (2 ^ 1074)).
    pose proof (quot_range (SFval (Prim2SF x)) (2 ^ 1074) (2 ^ bits) HU Hn) as Q.
    fold q in Q.
    destruct ((0 <=? q) && (q <? 2 ^ bits)) eqn:E.
    + apply andb_true_iff in E. destruct E as [E1 E2].
      apply Z.leb_le in E1. apply Z.ltb_lt in E2.
      split.
      * intros H. injection H as <-. split; [reflexivity|]. split; [|reflexivity].
        apply Q. lia.
      * intros (_ & _ & ->). reflexivity.
    + split; [discriminate|]. intros (_ & H & _). apply Q in H.
      apply andb_false_iff in E. destruct E as [E|E].
      * apply Z.leb_gt in E. lia.
      * apply Z.ltb_ge in E. lia.
  - split; [|intros (H & _); discriminate].
    destruct (Prim2SF x); try discriminate; cbn [SFtrunc]; discriminate.
Qed.

(** ** [delay_to_second] is increasing *)

Lemma delay_to_second_increasing (d1 d2 : Z) :
  ui32_range d1 -> ui32_range d2 -> d1 < d2 ->
  fval (delay_to_second d1) < fval (delay_to_second d2).
Proof.
  intros H1 H2 Hlt.
  pose proof (delay_to_second_bracket d1 H1) as [_ B1].
  pose proof (delay_to_second_bracket d2 H2) as [B2 _].
  unfold ui32_range in H1, H2.
  destruct (delay_quotient d1 ltac:(lia)) as [[Q1 Q2] Q3].
  destruct (delay_quotient d2 ltac:(lia)) as [[Q4 Q5] Q6].
  set (a1 := d1 * 2 ^ 54 / NDS_FPS_mantissa) in *.
  set (a2 := d2 * 2 ^ 54 / NDS_FPS_mantissa) in *.
  assert (Ha : a1 + 2 <= a2).
  { unfold NDS_FPS_mantissa in *. change (2 ^ 54) with 18014398509481984 in *. nia. }
  assert (HP : 0 < 2 ^ 1067) by pow2_pos.
  nia.
Qed.


(** ** The error of one rounding *)

(** A faithfully rounded value is within one unit of the last place. *)
Lemma faithful_within (N R j : Z) :
  faithful N 1 R -> 0 <= j -> Z.abs N <= 2 ^ 52 * 2 ^ j -> Z.abs (R - N) <= 2 ^ j.
Proof.
  intros H Hj HN. assert (Hg : 0 < 2 ^ j) by pow2_pos.
  set (g := 2 ^ j) in *.
  pose proof (Z.mul_div_le N g Hg) as L1.
  pose proof (Z.mul_succ_div_gt N g Hg) as L2.
  set (n := N / g) in *.
  assert (Hn : - 2 ^ 52 <= n <= 2 ^ 52).
  { apply Z.abs_le in HN. unfold n. split.
    - apply Z.div_le_lower_bound; lia.
    - apply Z.div_le_upper_bound; lia. }
  assert (F1 : fmt (n * 2 ^ j)) by (apply fmt_dyadic; lia).
  assert (F2 : fmt ((n + 1) * 2 ^ j)) by (apply fmt_dyadic; lia).
  fold g in F1, F2.
  pose proof (faithful_ge _ _ _ _ H F1 ltac:(lia)) as G1.
  pose proof (faithful_le _ _ _ _ H F2 ltac:(lia)) as G2.
  apply Z.abs_le. lia.
Qed.

(** ** The steps of the offset *)

Lemma calc_offset_steps (b lt : float) :
  finite b = true -> 14 * 2 ^ 1074 <= fval b <= 74 * 2 ^ 1074 ->
  finite lt = true -> 0 <= fval lt <= 2 ^ 28 * 2 ^ 1074 ->
  let s := (b + lt)%float in
  let q := (s / S_PER_MIN)%float in
  finite s = true /\ faithful (fval b + fval lt) 1 (fval s) /\
  finite q = true /\ faithful (fval s * 2 ^ 1074) (60 * 2 ^ 1074) (fval q).
Proof.
  intros Fb Bb Fl Bl s q. pose proof pow2_1074_pos as HU.
  destruct fval_S_PER_MIN as [F60 V60].
  assert (Hov : Z.abs (fval b + fval lt) < 2 ^ 2097).
  { apply small_no_overflow. apply Z.abs_le. nia. }
  destruct (add_faithful b lt Fb Fl Hov) as [Fs Hs]. fold s in Fs, Hs.
  assert (Bs : 14 * 2 ^ 1074 <= fval s <= (74 + 2 ^ 28) * 2 ^ 1074).
  { split.
    - apply (faithful_ge _ _ _ _ Hs (fmt_int 14 ltac:(lia))). lia.
    - apply (faithful_le _ _ _ _ Hs (fmt_int (74 + 2 ^ 28) ltac:(lia))). lia. }
  assert (E53 : 2 ^ 53 <= 2 ^ 1074) by (apply Z.pow_le_mono_r; lia).
  destruct (div_faithful s S_PER_MIN Fs F60) as [Fq Hq].
  - rewrite V60. lia.
  - right. rewrite V60, Z.abs_eq by lia. split; [lia|]. split; [lia|].
    apply Z.le_trans with (14 * 2 ^ 1074 * 2 ^ 1074); [|nia].
    replace (2 ^ 54 * (60 * 2 ^ 1074)) with (2 ^ 54 * 60 * 2 ^ 1074) by ring.
    apply Z.mul_le_mono_nonneg_r; [lia|].
    apply Z.le_trans with (14 * 2 ^ 60); [vm_compute; discriminate|].
    apply Z.mul_le_mono_nonneg_l; [lia|]. apply Z.pow_le_mono_r; lia.
  - rewrite V60, Z.abs_eq by lia.
    apply Z.lt_le_trans with (2 ^ 30 * 2 ^ 1074 * 2 ^ 1074).
    + apply Z.mul_lt_mono_pos_r; [lia|]. nia.
    + apply Z.leb_le. vm_compute. reflexivity.
  - rewrite V60 in Hq. fold q in Fq, Hq. auto.
Qed.

(** ** The total time

    [boot_time + load_time] is a whole number [k] of minutes plus
    [target_second mod 60] seconds plus the constant [0.2], up to the four
    roundings on the way, and [k] is the offset. *)

Lemma total_time_spec (cd cs td ts : Z) :
  ui32_range cd -> ui8_range cs -> ui32_range td -> ui8_range ts ->
  let lt := calc_load_time cd cs td in
  exists (b : float) (n : nat) (k : Z),
    adjust_boot_time 2 (calc_boot_time ts lt) O = Some (b, n) /\
    finite b = true /\ 14 * 2 ^ 1074 <= fval b <= 74 * 2 ^ 1074 /\
    0 <= k /\
    Z.abs (fval b + fval lt - ((60 * k + ts mod 60) * 2 ^ 1074 + fval 0.2%float))
    <= 2 ^ 1051 /\
    calc_offset b lt = (if k <? 256 then Some k else None).
Proof.
  intros Hcd Hcs Htd Hts lt.
  destruct (calc_load_time_spec cd cs td Hcd Hcs Htd) as (Fl & _ & Bl). fold lt in Fl, Bl.
  pose proof pow2_1074_pos as HU.
  assert (Hcs' := Hcs). assert (Hts' := Hts). unfold ui8_range in Hcs', Hts'.
  assert (Bl0 : 0 <= fval lt <= (2 ^ 27 + 255) * 2 ^ 1074) by (split; [nia|lia]).
  assert (Bl' : 0 <= fval lt <= 2 ^ 28 * 2 ^ 1074) by lia.
  destruct (calc_boot_time_spec ts lt Hts Fl Bl') as (Fx & Hx & Fr & Vr & Fb0 & Hb0 & Bb0).
  set (x := (fp64_of_uint ts - lt)%float) in *.
  set (r := fmod x S_PER_MIN) in *.
  set (b0 := calc_boot_time ts lt) in *.
  destruct (adjust_boot_time_spec b0 Fb0 Bb0) as (b & n & E & Hn & Fb & Bb & _ & Hm).
  destruct fval_fudge as [F02 V02]. destruct fval_MIN_BOOT_TIME as [F14 V14].
  assert (Br : - (60 * 2 ^ 1074) < fval r < 60 * 2 ^ 1074).
  { rewrite Vr. pose proof (Z.rem_bound_abs (fval x) (60 * 2 ^ 1074) ltac:(lia)) as H.
    rewrite (Z.abs_eq (60 * 2 ^ 1074)) in H by lia. lia. }
  pose proof (Z.quot_rem' (fval x) (60 * 2 ^ 1074)) as Eq. rewrite <- Vr in Eq.
  set (Q := Z.quot (fval x) (60 * 2 ^ 1074)) in *. clearbody Q.
  (* powers of two in units of [2^1019] *)
  assert (EU : 2 ^ 1074 = 2 ^ 55 * 2 ^ 1019) by reflexivity.
  assert (E67 : 2 ^ 1067 = 2 ^ 48 * 2 ^ 1019) by reflexivity.
  assert (E51 : 2 ^ 1051 = 2 ^ 32 * 2 ^ 1019) by reflexivity.
  assert (E50 : 2 ^ 1050 = 2 ^ 31 * 2 ^ 1019) by reflexivity.
  assert (E30 : 2 ^ 1030 = 2 ^ 11 * 2 ^ 1019) by reflexivity.
  assert (E29 : 2 ^ 1029 = 2 ^ 10 * 2 ^ 1019) by reflexivity.
  assert (E28 : 2 ^ 1028 = 2 ^ 9 * 2 ^ 1019) by reflexivity.
  assert (Hw : 0 < 2 ^ 1019) by pow2_pos.
  (* the roundings *)
  assert (R1 : Z.abs (fval x - (ts * 2 ^ 1074 - fval lt)) <= 2 ^ 1050).
  { apply faithful_within; [assumption|lia|].
    change (2 ^ 52 * 2 ^ 1050) with (2 ^ 28 * 2 ^ 1074). apply Z.abs_le. nia. }
  assert (R2 : Z.abs (fval b0 - (fval r + 7205759403792794 * 2 ^ 1019)) <= 2 ^ 1028).
  { apply faithful_within; [assumption|lia|].
    change (2 ^ 52 * 2 ^ 1028) with (2 ^ 61 * 2 ^ 1019). apply Z.abs_le.
    rewrite EU in Br. lia. }
  assert (R3 : Z.abs (fval b - (fval b0 + Z.of_nat n * (60 * 2 ^ 1074))) <= 2 ^ 1030).
  { assert (A : forall v : float, finite v = true ->
                - (60 * 2 ^ 1074) <= fval v <= 14 * 2 ^ 1074 ->
                finite (v + S_PER_MIN) = true /\
                Z.abs (fval (v + S_PER_MIN) - (fval v + 60 * 2 ^ 1074)) <= 2 ^ 1029 /\
                0 <= fval (v + S_PER_MIN)).
    { intros v Fv Bv. destruct (add_minute v (-60) 14 Fv) as (F1 & H1 & B1); try lia.
      split; [assumption|]. split; [|lia].
      apply faithful_within; [assumption|lia|].
      change (2 ^ 52 * 2 ^ 1029) with (2 ^ 62 * 2 ^ 1019). apply Z.abs_le.
      rewrite EU in Bv. lia. }
    destruct n as [|[|[|n]]]; [| | |lia].
    - subst b. apply Z.abs_le. cbn [Z.of_nat]. lia.
    - destruct Hm as (H0 & -> & _). apply ltb_true in H0; [|assumption..].
      rewrite V14 in H0. destruct (A b0 Fb0 ltac:(lia)) as (_ & A1 & _).
      change (Z.of_nat 1) with 1. apply Z.abs_le in A1. apply Z.abs_le.
      rewrite E29, E30 in *. lia.
    - destruct Hm as (H0 & H1 & -> & _). apply ltb_true in H0; [|assumption..].
      rewrite V14 in H0. destruct (A b0 Fb0 ltac:(lia)) as (F1 & A1 & P1).
      apply ltb_true in H1; [|assumption..]. rewrite V14 in H1.
      destruct (A (b0 + S_PER_MIN)%float F1 ltac:(lia)) as (_ & A2 & _).
      change (Z.of_nat 2) with 2. apply Z.abs_le in A1. apply Z.abs_le in A2.
      apply Z.abs_le. rewrite E29, E30 in *. lia. }
  set (k := Z.of_nat n - Q + ts / 60).
  assert (EK : (60 * k + ts mod 60) * 2 ^ 1074
               = ts * 2 ^ 1074 + Z.of_nat n * (60 * 2 ^ 1074) - 60 * 2 ^ 1074 * Q).
  { unfold k. pose proof (Z.div_mod ts 60 ltac:(lia)) as D.
    replace (ts * 2 ^ 1074) with ((60 * (ts / 60) + ts mod 60) * 2 ^ 1074)
      by (f_equal; lia).
    ring. }
  assert (Hi : 0 <= (ts mod 60) * 2 ^ 1074 <= 59 * 2 ^ 1074).
  { pose proof (Z.mod_pos_bound ts 60 ltac:(lia)). nia. }
  assert (ET : Z.abs (fval b + fval lt
                      - ((60 * k + ts mod 60) * 2 ^ 1074 + 7205759403792794 * 2 ^ 1019))
               <= 2 ^ 1051).
  { rewrite EK. apply Z.abs_le in R1. apply Z.abs_le in R2. apply Z.abs_le in R3.
    apply Z.abs_le. clear - R1 R2 R3 Eq E51 E50 E30 E28 Hw.
    rewrite E51, E50, E30, E28 in *. lia. }
  (* the offset *)
  destruct (calc_offset_spec b lt Fb Bb Fl Bl') as (_ & Hq0 & Eoff).
  destruct (calc_offset_steps b lt Fb Bb Fl Bl') as (Fs & Hs & Fq & Hq).
  set (s := (b + lt)%float) in *. set (q := (s / S_PER_MIN)%float) in *.
  assert (R5 : Z.abs (fval s - (fval b + fval lt)) <= 2 ^ 1050).
  { apply faithful_within; [assumption|lia|].
    change (2 ^ 52 * 2 ^ 1050) with (2 ^ 28 * 2 ^ 1074). apply Z.abs_le. lia. }
  assert (EKU : (60 * k + ts mod 60) * 2 ^ 1074 = 60 * (k * 2 ^ 1074) + ts mod 60 * 2 ^ 1074)
    by ring.
  assert (BK : 60 * (k * 2 ^ 1074) + 2 ^ 1067 <= fval s
               <= 60 * (k * 2 ^ 1074) + 60 * (127 * 2 ^ 1067)).
  { apply Z.abs_le in ET. apply Z.abs_le in R5. rewrite EKU in ET.
    clear - ET R5 Hi EU E67 E51 E50 Hw.
    set (KU := k * 2 ^ 1074) in *. set (IU := ts mod 60 * 2 ^ 1074) in *.
    clearbody KU IU. rewrite EU, E67, E51, E50 in *. lia. }
  assert (Bk : - 2 ^ 40 < k < 2 ^ 40).
  { assert (B1 : 0 <= fval s <= 2 ^ 29 * 2 ^ 1074).
    { apply Z.abs_le in R5. rewrite E50, EU in *. lia. }
    assert (HP : 0 < 2 ^ 1067) by pow2_pos.
    assert (EU' : 2 ^ 1074 = 128 * 2 ^ 1067) by reflexivity.
    split; apply (lt_cancel_r _ _ (2 ^ 1074) HU); lia. }
  assert (L : k * 2 ^ 1074 <= fval q).
  { apply (faithful_ge _ _ _ _ Hq (fmt_int k ltac:(lia))).
    replace (k * 2 ^ 1074 * (60 * 2 ^ 1074)) with (60 * (k * 2 ^ 1074) * 2 ^ 1074) by ring.
    apply Z.mul_le_mono_nonneg_r; [lia|].
    assert (HP : 0 < 2 ^ 1067) by pow2_pos. lia. }
  assert (G : fval q <= (128 * k + 127) * 2 ^ 1067).
  { apply (faithful_le _ _ _ _ Hq (fmt_dyadic (128 * k + 127) 1067 ltac:(lia) ltac:(lia))).
    replace ((128 * k + 127) * 2 ^ 1067 * (60 * 2 ^ 1074))
      with ((60 * (k * (128 * 2 ^ 1067)) + 60 * (127 * 2 ^ 1067)) * 2 ^ 1074) by ring.
    apply Z.mul_le_mono_nonneg_r; [lia|].
    change (128 * 2 ^ 1067) with (2 ^ 1074). lia. }
  assert (G' : fval q < (k + 1) * 2 ^ 1074).
  { assert (HP : 0 < 2 ^ 1067) by pow2_pos.
    change (2 ^ 1074) with (128 * 2 ^ 1067). lia. }
  assert (Hk0 : 0 <= k).
  { assert (0 < k + 1); [|lia]. apply (lt_cancel_r _ _ (2 ^ 1074) HU). lia. }
  assert (Ediv : fval q / 2 ^ 1074 = k).
  { symmetry. apply Z.div_unique with (fval q - k * 2 ^ 1074); lia. }
  exists b, n, k. split; [assumption|]. split; [assumption|]. split; [assumption|].
  split; [assumption|]. split.
  { rewrite V02. exact ET. }
  fold s q in Eoff. rewrite Eoff, Ediv.
  assert (F256 : finite 256%float = true /\ fval 256%float = 256 * 2 ^ 1074).
  { replace 256%float with (fp64_of_uint 256) by reflexivity.
    apply fp64_of_uint_exact. lia. }
  destruct F256 as [F256 V256].
  rewrite ltb_fval by assumption. rewrite V256.
  destruct (Z.ltb_spec k 256) as [Hlt|Hge].
  - replace (fval q <? 256 * 2 ^ 1074) with true; [reflexivity|].
    symmetry. apply Z.ltb_lt.
    apply Z.lt_le_trans with ((k + 1) * 2 ^ 1074); [assumption|].
    apply Z.mul_le_mono_nonneg_r; lia.
  - replace (fval q <? 256 * 2 ^ 1074) with false; [reflexivity|].
    symmetry. apply Z.ltb_ge.
    apply Z.le_trans with (k * 2 ^ 1074); [|assumption].
    apply Z.mul_le_mono_nonneg_r; lia.
Qed.

(** ** Finite values *)

Lemma finite_is_finite (x : float) : finite x = true -> PrimFloat.is_finite x = true.
Proof.
  intros F. unfold PrimFloat.is_finite, PrimFloat.is_nan, PrimFloat.is_infinity.
  rewrite (eqb_fval x x F F), Z.eqb_refl. cbn [negb orb].
  rewrite FloatAxioms.eqb_spec, FloatAxioms.abs_spec.
  unfold finite in F. destruct (Prim2SF x) as [s|s| |s m e]; try discriminate; reflexivity.
Qed.

(** ** The release build returns *)

Lemma get_time_data_release (fuel : nat) (cd cs td ts : Z) (b : float) (n : nat) :
  adjust_boot_time 2 (calc_boot_time ts (calc_load_time cd cs td)) O = Some (b, n) ->
  (2 <= fuel)%nat ->
  get_time_data false fuel cd cs td ts
  = Ret (mkTimeData b (calc_load_time cd cs td) (calc_offset b (calc_load_time cd cs td))).
Proof.
  intros E Hfuel. unfold get_time_data. cbn [ASSERT_load_time bind].
  rewrite (adjust_boot_time_fuel _ _ _ _ E fuel Hfuel). reflexivity.
Qed.

(** A conversion that has a value is within the range of its type. *)
Lemma fp64_to_uint_range (bits : Z) (x : float) (z : Z) :
  fp64_to_uint bits x = Some z -> 0 <= z < 2 ^ bits.
Proof.
  unfold fp64_to_uint. destruct (SFtrunc (Prim2SF x)) as [t|]; [|discriminate].
  destruct ((0 <=? t) && (t <? 2 ^ bits)) eqn:E; [|discriminate].
  intros H. injection H as <-. apply andb_true_iff in E. lia.
Qed.

(** ** The load time between bounds *)

Lemma load_time_upper (cd cs td D : Z) :
  ui32_range cd -> ui8_range cs -> ui32_range td -> ui32_range D ->
  sub_ui32 td cd <= D ->
  fval (calc_load_time cd cs td)
  <= (D * 2 ^ 54 / NDS_FPS_mantissa + 1 + 128 * 255) * 2 ^ 1067.
Proof.
  intros Hcd Hcs Htd HD Hle.
  destruct (calc_load_time_spec cd cs td Hcd Hcs Htd) as (_ & H & _).
  pose proof (sub_ui32_range td cd) as Hd. set (d := sub_ui32 td cd) in *.
  assert (M : fval (delay_to_second d) <= fval (delay_to_second D)).
  { destruct (Z.eq_dec d D) as [->|]; [lia|].
    apply Z.lt_le_incl, delay_to_second_increasing; (assumption || lia). }
  pose proof (delay_to_second_bracket D HD) as [_ B].
  unfold ui32_range in HD. unfold ui8_range in Hcs.
  destruct (delay_quotient D ltac:(lia)) as [_ Q].
  set (a := D * 2 ^ 54 / NDS_FPS_mantissa) in *.
  assert (HP : 0 < 2 ^ 1067) by pow2_pos.
  assert (Fm : fmt ((a + 1 + 128 * 255) * 2 ^ 1067)) by (apply fmt_dyadic; lia).
  apply (faithful_le _ _ _ _ H Fm).
  change (2 ^ 1074) with (128 * 2 ^ 1067). nia.
Qed.

Lemma load_time_lower (cd cs td D : Z) :
  ui32_range cd -> ui8_range cs -> ui32_range td -> ui32_range D ->
  D <= sub_ui32 td cd ->
  D * 2 ^ 54 / NDS_FPS_mantissa * 2 ^ 1067 <= fval (calc_load_time cd cs td).
Proof.
  intros Hcd Hcs Htd HD Hle.
  destruct (calc_load_time_spec cd cs td Hcd Hcs Htd) as (_ & H & _).
  pose proof (sub_ui32_range td cd) as Hd. set (d := sub_ui32 td cd) in *.
  assert (M : fval (delay_to_second D) <= fval (delay_to_second d)).
  { destruct (Z.eq_dec d D) as [->|]; [lia|].
    apply Z.lt_le_incl, delay_to_second_increasing; (assumption || lia). }
  pose proof (delay_to_second_bracket D HD) as [B _].
  unfold ui8_range in Hcs. pose proof pow2_1074_pos as HU.
  apply Z.le_trans with (fval (delay_to_second d)); [lia|].
  apply (faithful_ge _ _ _ _ H (fval_fmt _)). nia.
Qed.

(** * The claims *)

(** ** C1: the invalid-input scenario *)

(** C1 fails: for [calibrated_delay = 2000], [calibrated_second = 10],
    [target_delay = 1000] the computed load time is not negative. *)
Lemma load_time_scenario_not_negative :
  (calc_load_time 2000 10 1000 <? 0)%float = false.
Proof. vm_compute. reflexivity. Qed.

(** C1, amended: for these inputs the difference wraps to [4294966296], the
    load time is [4294966296 / 59.8261 + 10], about [71790855.4] seconds and
    positive; the debug assertion does not fire. *)
Theorem load_time_scenario_wraps :
  sub_ui32 1000 2000 = 4294966296 /\
  calc_load_time 2000 10 1000 = (fp64_of_uint 4294966296 / NDS_FPS + fp64_of_uint 10)%float /\
  (0 <? calc_load_time 2000 10 1000)%float = true /\
  (71790855.4 <? calc_load_time 2000 10 1000)%float = true /\
  (calc_load_time 2000 10 1000 <? 71790855.5)%float = true /\
  ASSERT_load_time true (calc_load_time 2000 10 1000) = Ret tt.
Proof. repeat split; vm_compute; reflexivity. Qed.

(** ** C2: the load time is never negative *)

(** C2: for all inputs the load time is at least [(fp64) calibrated_second],
    hence not negative; it is [0.0] exactly when
    [target_delay == calibrated_delay] and [calibrated_second == 0], so
    [load_time <= 0.0] only holds as an equality. *)
Theorem load_time_ge_calibrated_second (cd cs td : Z) :
  ui32_range cd -> ui8_range cs -> ui32_range td ->
  (fp64_of_uint cs <=? calc_load_time cd cs td)%float = true /\
  (calc_load_time cd cs td <? 0)%float = false /\
  ((calc_load_time cd cs td =? 0)%float = true <-> td = cd /\ cs = 0) /\
  ((calc_load_time cd cs td <=? 0)%float = true ->
   (calc_load_time cd cs td =? 0)%float = true) /\
  (forall debug fuel ts r,
      get_time_data debug fuel cd cs td ts = Ret r ->
      load_time r = calc_load_time cd cs td).
Proof.
  intros Hcd Hcs Htd.
  destruct (calc_load_time_spec cd cs td Hcd Hcs Htd) as (F & H & B).
  destruct fval_zero as [F0 V0].
  destruct (fp64_of_uint_exact cs ltac:(unfold ui8_range in Hcs; lia)) as [Fc Vc].
  pose proof pow2_1074_pos as HU. unfold ui8_range in Hcs.
  split; [|split; [|split; [|split]]].
  - apply leb_true; [assumption..|]. rewrite Vc. lia.
  - apply ltb_false; [assumption..|]. rewrite V0. nia.
  - rewrite eqb_true by assumption. rewrite V0. apply calc_load_time_zero; assumption.
  - rewrite leb_true, eqb_true by assumption. rewrite V0. nia.
  - intros debug fuel ts r E. apply get_time_data_Ret in E. apply E.
Qed.

Lemma load_time_ge_calibrated_second_witness :
  (fp64_of_uint 30 <=? calc_load_time 1000 30 1598)%float = true /\
  (calc_load_time 1000 30 1598 <? 0)%float = false.
Proof.
  assert (Hcd : ui32_range 1000) by (unfold ui32_range; lia).
  assert (Hcs : ui8_range 30) by (unfold ui8_range; lia).
  assert (Htd : ui32_range 1598) by (unfold ui32_range; lia).
  destruct (load_time_ge_calibrated_second 1000 30 1598 Hcd Hcs Htd) as (H1 & H2 & _).
  split; assumption.
Defined.

(** ** C3: the window of the boot time *)

(** C3: for every input the loop ends with a boot time [b] such that
    [14.0 <= b] and [b < 74.0 = MIN_BOOT_TIME + 60.0]; [get_time_data]
    returns a [TimeData] whose [boot_time] field is this [b], in every run
    that does not trap. *)
Theorem boot_time_window (cd cs td ts : Z) (fuel : nat) :
  ui32_range cd -> ui8_range cs -> ui32_range td -> ui8_range ts -> (2 <= fuel)%nat ->
  exists (b : float) (n : nat),
    adjust_boot_time fuel (calc_boot_time ts (calc_load_time cd cs td)) O = Some (b, n) /\
    (MIN_BOOT_TIME <=? b)%float = true /\
    (b <? 74)%float = true /\
    (b <? MIN_BOOT_TIME + S_PER_MIN)%float = true /\
    (exists r, get_time_data false fuel cd cs td ts = Ret r /\ boot_time r = b) /\
    (forall debug r,
        get_time_data debug fuel cd cs td ts = Ret r ->
        boot_time r = b /\
        (MIN_BOOT_TIME <=? boot_time r)%float = true /\
        (boot_time r <? 74)%float = true).
Proof.
  intros Hcd Hcs Htd Hts Hfuel.
  destruct (load_time_in_range cd cs td Hcd Hcs Htd) as [Fl Bl].
  destruct (calc_boot_time_spec ts _ Hts Fl Bl) as (_ & _ & _ & _ & Fb0 & _ & Bb0).
  destruct (adjust_boot_time_spec _ Fb0 Bb0) as (b & n & E & Hn & Fb & Bb & _ & Hm).
  pose proof (adjust_boot_time_fuel _ _ _ _ E fuel Hfuel) as E'.
  destruct fval_MIN_BOOT_TIME as [F14 V14]. destruct fval_74 as [F74 V74].
  pose proof pow2_1074_pos as HU.
  assert (H74 : fval b < 74 * 2 ^ 1074).
  { destruct n as [|[|[|n]]]; [| | |lia].
    - subst b. lia.
    - destruct Hm as (H0 & -> & _). apply ltb_true in H0; [|assumption..]. rewrite V14 in H0.
      apply boot_time_not_74_once; assumption.
    - destruct Hm as (H0 & H1 & -> & _).
      apply ltb_true in H0; [|assumption..]. rewrite V14 in H0.
      destruct (add_minute _ (-60) 14 Fb0) as (F1 & _ & _); try lia.
      apply ltb_true in H1; [|assumption..]. rewrite V14 in H1.
      apply boot_time_not_74_twice; assumption. }
  assert (L14 : (MIN_BOOT_TIME <=? b)%float = true).
  { apply leb_true; [assumption..|]. rewrite V14. lia. }
  assert (L74 : (b <? 74)%float = true).
  { apply ltb_true; [assumption..|]. rewrite V74. assumption. }
  exists b, n. split; [assumption|]. split; [assumption|]. split; [assumption|].
  split; [exact L74|]. split.
  { eexists. unfold get_time_data. cbn [ASSERT_load_time bind]. rewrite E'.
    split; reflexivity. }
  intros debug r Er. apply get_time_data_Ret in Er. destruct Er as (_ & [n' En'] & _).
  rewrite E' in En'. injection En' as <- _. auto.
Qed.

Lemma boot_time_window_witness :
  exists (b : float) (n : nat),
    adjust_boot_time 2 (calc_boot_time 45 (calc_load_time 1000 30 1598)) O = Some (b, n) /\
    (MIN_BOOT_TIME <=? b)%float = true /\
    (b <? 74)%float = true.
Proof.
  assert (Hcd : ui32_range 1000) by (unfold ui32_range; lia).
  assert (Hcs : ui8_range 30) by (unfold ui8_range; lia).
  assert (Htd : ui32_range 1598) by (unfold ui32_range; lia).
  assert (Hts : ui8_range 45) by (unfold ui8_range; lia).
  destruct (boot_time_window 1000 30 1598 45 2 Hcd Hcs Htd Hts (le_n 2))
    as (b & n & E & H1 & H2 & _).
  exists b, n. repeat split; assumption.
Defined.

(** ** C4: monotonicity of the load time *)

(** C4 fails as stated: with [calibrated_delay = 5] the target delays
    [4 < 5] give load times in the opposite order, because the difference
    wraps for [4]. *)
Lemma load_time_not_monotone :
  (calc_load_time 5 0 4 <? calc_load_time 5 0 5)%float = false.
Proof. vm_compute. reflexivity. Qed.

(** C4, amended: with the other inputs fixed, for target delays [d1 < d2]
    that lie on the same side of [calibrated_delay] (so that the unsigned
    difference does not wrap between them), the load time for [d2] is
    strictly greater than the load time for [d1]. *)
Theorem load_time_strictly_monotone (cd cs d1 d2 : Z) :
  ui32_range cd -> ui8_range cs -> ui32_range d1 -> ui32_range d2 ->
  d1 < d2 -> ~ (d1 < cd <= d2) ->
  (calc_load_time cd cs d1 <? calc_load_time cd cs d2)%float = true.
Proof.
  intros Hcd Hcs H1 H2 Hlt Hside.
  destruct (calc_load_time_spec cd cs d1 Hcd Hcs H1) as (F1 & _).
  destruct (calc_load_time_spec cd cs d2 Hcd Hcs H2) as (F2 & _).
  apply ltb_true; [assumption..|]. unfold calc_load_time.
  apply load_time_increasing; [assumption|apply sub_ui32_range..|].
  destruct (Z_le_gt_dec cd d1).
  - rewrite !sub_ui32_ge by (assumption || lia). lia.
  - rewrite !sub_ui32_lt by (assumption || lia). lia.
Qed.

Lemma load_time_strictly_monotone_witness :
  (calc_load_time 1000 30 1598 <? calc_load_time 1000 30 1599)%float = true.
Proof.
  assert (Hcd : ui32_range 1000) by (unfold ui32_range; lia).
  assert (Hcs : ui8_range 30) by (unfold ui8_range; lia).
  assert (H1 : ui32_range 1598) by (unfold ui32_range; lia).
  assert (H2 : ui32_range 1599) by (unfold ui32_range; lia).
  apply (load_time_strictly_monotone 1000 30 1598 1599 Hcd Hcs H1 H2); lia.
Defined.

(** ** C5: the debug assertion *)

(** C5: in a debug build [get_time_data] traps exactly when
    [load_time <= 0.0], that is when the checked condition [load_time > 0.0]
    fails.  Outside a debug build the check is a no-op and [get_time_data]
    returns a [TimeData] for every input; a debug build returns the same
    [TimeData] when it does not trap.  The [offset] of this [TimeData] is the
    minute total when that is below [256], and has no value otherwise. *)
Theorem assertion_semantics (cd cs td ts : Z) (fuel : nat) :
  ui32_range cd -> ui8_range cs -> ui32_range td -> ui8_range ts -> (2 <= fuel)%nat ->
  let lt := calc_load_time cd cs td in
  (get_time_data true fuel cd cs td ts = Trap <-> (lt <=? 0)%float = true) /\
  ((lt <=? 0)%float = true <-> (0 <? lt)%float = false) /\
  ASSERT_load_time false lt = Ret tt /\
  exists r : TimeData,
    get_time_data false fuel cd cs td ts = Ret r /\
    returns (get_time_data false fuel cd cs td ts) = true /\
    load_time r = lt /\
    ((lt <=? 0)%float = false -> get_time_data true fuel cd cs td ts = Ret r) /\
    offset r = (if ((boot_time r + lt) / S_PER_MIN <? 256)%float
                then Some (fval ((boot_time r + lt) / S_PER_MIN) / 2 ^ 1074)
                else None).
Proof.
  intros Hcd Hcs Htd Hts Hfuel lt.
  destruct (load_time_in_range cd cs td Hcd Hcs Htd) as [Fl Bl]. fold lt in Fl, Bl.
  destruct fval_zero as [F0 V0].
  assert (Hle : (lt <=? 0)%float = true <-> fval lt = 0).
  { rewrite leb_true by assumption. rewrite V0. lia. }
  assert (HT : get_time_data true fuel cd cs td ts = Trap <-> (lt <=? 0)%float = true).
  { rewrite get_time_data_Trap. fold lt. rewrite ASSERT_load_time_Trap by assumption.
    symmetry. exact Hle. }
  split; [exact HT|]. split; [|split; [reflexivity|]].
  - rewrite Hle, ltb_false by assumption. rewrite V0. lia.
  - destruct (calc_boot_time_spec ts lt Hts Fl Bl) as (_ & _ & _ & _ & Fb & _ & Bb).
    destruct (adjust_boot_time_spec _ Fb Bb) as (b & n & E & _ & Fb' & Bb' & _).
    pose proof (adjust_boot_time_fuel _ _ _ _ E fuel Hfuel) as E'.
    assert (ER : forall debug, ASSERT_load_time debug lt = Ret tt ->
                 get_time_data debug fuel cd cs td ts = Ret (mkTimeData b lt (calc_offset b lt))).
    { intros debug Ea. unfold get_time_data. fold lt. rewrite Ea. cbn [bind].
      rewrite E'. reflexivity. }
    exists (mkTimeData b lt (calc_offset b lt)).
    split; [apply ER; reflexivity|]. split; [rewrite ER; reflexivity|].
    split; [reflexivity|]. split.
    + intros Hpos. apply ER.
      destruct (ASSERT_load_time true lt) as [[]| |] eqn:Ea; [reflexivity| |].
      * apply ASSERT_load_time_Trap in Ea; [|assumption]. apply Hle in Ea. congruence.
      * unfold ASSERT_load_time in Ea. destruct (_ <? _)%float; discriminate.
    + cbn [offset boot_time]. apply calc_offset_spec; assumption.
Qed.

(** The run with [calibrated_delay = 2000], [calibrated_second = 10],
    [target_delay = 1000], [target_second = 5] returns too; its minute total
    does not fit [ui8], and the [offset] has no value. *)
Example wrapped_scenario_returns :
  exists b : float,
    get_time_data false 2 2000 10 1000 5
    = Ret (mkTimeData b (calc_load_time 2000 10 1000) None).
Proof. eexists. vm_compute. reflexivity. Qed.

Lemma assertion_semantics_witness :
  get_time_data true 2 7 0 7 5 = Trap <-> (calc_load_time 7 0 7 <=? 0)%float = true.
Proof.
  assert (Hcd : ui32_range 7) by (unfold ui32_range; lia).
  assert (Hcs : ui8_range 0) by (unfold ui8_range; lia).
  assert (Hts : ui8_range 5) by (unfold ui8_range; lia).
  exact (proj1 (assertion_semantics 7 0 7 5 2 Hcd Hcs Hcd Hts (le_n 2))).
Defined.

(** ** C6: the normalisation loop terminates *)

(** C6: for every input the loop [while (boot_time < 14.0) boot_time += 60.0]
    terminates after at most two iterations: the value before the loop is
    [fmod(target_second - load_time, 60.0) + 0.2], whose [fmod] part lies
    strictly between [-60] and [60], and every iteration adds [60.0], which
    strictly increases the boot time. *)
Theorem boot_time_loop_terminates (cd cs td ts : Z) (fuel : nat) :
  ui32_range cd -> ui8_range cs -> ui32_range td -> ui8_range ts -> (2 <= fuel)%nat ->
  let lt := calc_load_time cd cs td in
  - (60 * 2 ^ 1074) < fval (fmod (fp64_of_uint ts - lt) S_PER_MIN) < 60 * 2 ^ 1074 /\
  - (60 * 2 ^ 1074) <= fval (calc_boot_time ts lt) <= 61 * 2 ^ 1074 /\
  exists (b : float) (n : nat),
    adjust_boot_time fuel (calc_boot_time ts lt) O = Some (b, n) /\
    (n <= 2)%nat /\
    (b <? MIN_BOOT_TIME)%float = false /\
    match n with
    | O => b = calc_boot_time ts lt
    | S O => b = (calc_boot_time ts lt + S_PER_MIN)%float /\
             fval (calc_boot_time ts lt) < fval b
    | _ => b = (calc_boot_time ts lt + S_PER_MIN + S_PER_MIN)%float /\
           fval (calc_boot_time ts lt) < fval (calc_boot_time ts lt + S_PER_MIN) < fval b
    end.
Proof.
  intros Hcd Hcs Htd Hts Hfuel lt.
  destruct (load_time_in_range cd cs td Hcd Hcs Htd) as [Fl Bl]. fold lt in Fl, Bl.
  destruct (calc_boot_time_spec ts lt Hts Fl Bl) as (_ & _ & _ & Vr & Fb & _ & Bb).
  pose proof pow2_1074_pos as HU.
  split.
  { rewrite Vr.
    pose proof (Z.rem_bound_abs (fval (fp64_of_uint ts - lt)) (60 * 2 ^ 1074) ltac:(lia)) as H.
    rewrite (Z.abs_eq (60 * 2 ^ 1074)) in H by lia. lia. }
  split; [assumption|].
  destruct (adjust_boot_time_spec _ Fb Bb) as (b & n & E & Hn & _ & _ & Hex & Hb).
  exists b, n. split; [apply (adjust_boot_time_fuel _ _ _ _ E); assumption|].
  split; [assumption|]. split; [assumption|].
  destruct n as [|[|n]]; [assumption|tauto|tauto].
Qed.

Lemma boot_time_loop_terminates_witness :
  exists (b : float) (n : nat),
    adjust_boot_time 2 (calc_boot_time 45 (calc_load_time 1000 30 1598)) O = Some (b, n) /\
    (n <= 2)%nat.
Proof.
  assert (Hcd : ui32_range 1000) by (unfold ui32_range; lia).
  assert (Hcs : ui8_range 30) by (unfold ui8_range; lia).
  assert (Htd : ui32_range 1598) by (unfold ui32_range; lia).
  assert (Hts : ui8_range 45) by (unfold ui8_range; lia).
  destruct (boot_time_loop_terminates 1000 30 1598 45 2 Hcd Hcs Htd Hts (le_n 2))
    as (_ & _ & b & n & E & Hn & _).
  exists b, n. split; assumption.
Defined.

(** Two iterations do occur. *)
Example two_iterations_occur :
  adjust_boot_time 2 (calc_boot_time 0 (calc_load_time 0 50 0)) O
  = Some ((calc_boot_time 0 (calc_load_time 0 50 0) + S_PER_MIN + S_PER_MIN)%float, 2%nat).
Proof. vm_compute. reflexivity. Qed.

(** ** C7: the round trip through seconds *)

(** C7: for every delay [d] from [0] to [10,000,000],
    [second_to_delay (delay_to_second d)] is [d] or [d - 1]. *)
Theorem delay_round_trip (d : Z) :
  0 <= d <= 10000000 ->
  second_to_delay (delay_to_second d) = Some d \/
  second_to_delay (delay_to_second d) = Some (d - 1).
Proof.
  intros Hd. apply round_trip_ui32. unfold ui32_range. lia.
Qed.

Lemma delay_round_trip_witness :
  second_to_delay (delay_to_second 598) = Some 598 \/
  second_to_delay (delay_to_second 598) = Some (598 - 1).
Proof. apply (delay_round_trip 598). lia. Defined.

(** Both outcomes occur. *)
Example round_trip_keeps_598 : second_to_delay (delay_to_second 598) = Some 598.
Proof. vm_compute. reflexivity. Qed.

Example round_trip_loses_a_frame : second_to_delay (delay_to_second 15) = Some 14.
Proof. vm_compute. reflexivity. Qed.

(** ** C8: the concrete scenario *)

(** C8: for [calibrated_delay = 1000], [calibrated_second = 30],
    [target_delay = 1598], [target_second = 45] the result has
    [load_time = (1598 - 1000) / 59.8261 + 30], within [0.003] of [39.993],
    [boot_time = fmod(45 - load_time, 60) + 0.2 + 60] after exactly one
    iteration of the loop, within [0.003] of [65.207], and [offset = 1]. *)
Theorem concrete_scenario (debug : bool) (fuel : nat) :
  (1 <= fuel)%nat ->
  let lt := (fp64_of_uint (1598 - 1000) / NDS_FPS + fp64_of_uint 30)%float in
  let bt := (fmod (fp64_of_uint 45 - lt) S_PER_MIN + 0.2 + S_PER_MIN)%float in
  get_time_data debug fuel 1000 30 1598 45 = Ret (mkTimeData bt lt (Some 1)) /\
  adjust_boot_time fuel (calc_boot_time 45 (calc_load_time 1000 30 1598)) O = Some (bt, 1%nat) /\
  (39.990 <? lt)%float = true /\ (lt <? 39.996)%float = true /\
  (65.204 <? bt)%float = true /\ (bt <? 65.210)%float = true.
Proof.
  intros Hfuel lt bt. split; [|split].
  - apply (get_time_data_fuel debug 1 fuel); [assumption|].
    destruct debug; vm_compute; reflexivity.
  - apply (adjust_boot_time_fuel 1); [|assumption]. vm_compute. reflexivity.
  - repeat split; vm_compute; reflexivity.
Qed.

Lemma concrete_scenario_witness :
  get_time_data false 2 1000 30 1598 45
  = Ret (mkTimeData
           (fmod (fp64_of_uint 45 - (fp64_of_uint (1598 - 1000) / NDS_FPS + fp64_of_uint 30))
                 S_PER_MIN + 0.2 + S_PER_MIN)%float
           (fp64_of_uint (1598 - 1000) / NDS_FPS + fp64_of_uint 30)%float (Some 1)).
Proof.
  apply (concrete_scenario false 2). lia.
Defined.

(** ** C9: the two conversion functions *)

(** C9: for a non-negative [s] whose product with [NDS_FPS] is below [2^32],
    [second_to_delay s] is the floor of the [fp64] product [s * 59.8261],
    which is its truncation toward zero; and [delay_to_second d] is the
    [fp64] quotient of [d], converted exactly, by [59.8261], for every
    [ui32] [d]. *)
Theorem conversion_functions :
  (forall s : float,
      (0 <=? s)%float = true -> (s * NDS_FPS <? 4294967296)%float = true ->
      0 <= fval (s * NDS_FPS) /\
      second_to_delay s = Some (fval (s * NDS_FPS) / 2 ^ 1074) /\
      SFtrunc (Prim2SF (s * NDS_FPS)) = Some (fval (s * NDS_FPS) / 2 ^ 1074)) /\
  (forall d : Z,
      ui32_range d ->
      delay_to_second d = (fp64_of_uint d / NDS_FPS)%float /\
      fval (fp64_of_uint d) = d * 2 ^ 1074 /\
      faithful (d * 2 ^ 47 * 2 ^ 1074) NDS_FPS_mantissa (fval (delay_to_second d))) /\
  NDS_FPS = (fp64_of_uint 598261 / fp64_of_uint 10000)%float /\
  fval NDS_FPS = NDS_FPS_mantissa * 2 ^ 1027.
Proof.
  split; [|split; [|split]].
  - intros s Hs Hlt.
    destruct (mul_nonneg s NDS_FPS Hs finite_NDS_FPS) as (F & H0 & H1); [|assumption|].
    { rewrite fval_NDS_FPS. reflexivity. }
    assert (HU : 0 < 2 ^ 1074) by pow2_pos.
    assert (Hq : fval (s * NDS_FPS) / 2 ^ 1074 < 2 ^ 32)
      by (apply Z.div_lt_upper_bound; lia).
    split; [assumption|]. split.
    + unfold second_to_delay. rewrite fp64_to_uint_nonneg by assumption.
      apply Z.ltb_lt in Hq. rewrite Hq. reflexivity.
    + pose proof (fp64_to_uint_nonneg 32 _ F H0) as E. unfold fp64_to_uint in E.
      destruct (SFtrunc (Prim2SF (s * NDS_FPS))) as [z|].
      * apply Z.ltb_lt in Hq. rewrite Hq in E.
        destruct ((0 <=? z) && (z <? 2 ^ 32)) eqn:Eb; congruence.
      * apply Z.ltb_lt in Hq. rewrite Hq in E. discriminate.
  - intros d Hd. split; [reflexivity|]. split.
    + apply fp64_of_uint_exact. unfold ui32_range in Hd.
      change (2 ^ 53) with (2 ^ 32 * 2 ^ 21). lia.
    + apply delay_to_second_faithful. assumption.
  - reflexivity.
  - apply fval_NDS_FPS.
Qed.

Lemma conversion_functions_witness :
  second_to_delay 10%float = Some (fval (10 * NDS_FPS) / 2 ^ 1074) /\
  delay_to_second 598 = (fp64_of_uint 598 / NDS_FPS)%float.
Proof.
  destruct conversion_functions as (H1 & H2 & _).
  split.
  - apply (H1 10%float); reflexivity.
  - apply (H2 598). unfold ui32_range. lia.
Defined.

(** ** C10: the frame difference wraps *)

(** C10: in [get_time_data] the difference [target_delay - calibrated_delay]
    is taken modulo [2^32]: the value converted to seconds is
    [(target_delay - calibrated_delay) mod 2^32], which is
    [target_delay - calibrated_delay + 2^32], a positive frame count, when
    [target_delay < calibrated_delay]. *)
Theorem frame_difference_wraps (cd cs td : Z) :
  ui32_range cd -> ui32_range td ->
  calc_load_time cd cs td
  = (delay_to_second ((td - cd) mod 2 ^ 32) + fp64_of_uint cs)%float /\
  (forall debug fuel ts r,
      get_time_data debug fuel cd cs td ts = Ret r ->
      load_time r = (delay_to_second ((td - cd) mod 2 ^ 32) + fp64_of_uint cs)%float) /\
  0 <= (td - cd) mod 2 ^ 32 < 2 ^ 32 /\
  (td < cd ->
   (td - cd) mod 2 ^ 32 = td - cd + 2 ^ 32 /\
   0 < (td - cd) mod 2 ^ 32 /\
   0 < fval (delay_to_second ((td - cd) mod 2 ^ 32))).
Proof.
  intros Hcd Htd. split; [reflexivity|]. split; [|split].
  - intros debug fuel ts r E. apply get_time_data_Ret in E. apply E.
  - apply Z.mod_pos_bound. lia.
  - intros Hlt. pose proof (sub_ui32_lt td cd Htd Hcd Hlt) as E. unfold sub_ui32 in E.
    rewrite E. unfold ui32_range in *. split; [reflexivity|]. split; [lia|].
    assert (R : ui32_range (td - cd + 2 ^ 32)) by (unfold ui32_range; lia).
    pose proof (delay_to_second_pos _ R ltac:(lia)).
    assert (0 < 2 ^ 1068) by pow2_pos. lia.
Qed.

Lemma frame_difference_wraps_witness :
  calc_load_time 2000 10 1000
  = (delay_to_second ((1000 - 2000) mod 2 ^ 32) + fp64_of_uint 10)%float /\
  (1000 - 2000) mod 2 ^ 32 = 1000 - 2000 + 2 ^ 32.
Proof.
  assert (Hcd : ui32_range 2000) by (unfold ui32_range; lia).
  assert (Htd : ui32_range 1000) by (unfold ui32_range; lia).
  destruct (frame_difference_wraps 2000 10 1000 Hcd Htd) as (H1 & _ & _ & H4).
  split; [exact H1|]. apply H4. lia.
Defined.

(** * Further properties *)

(** ** [delay_to_second] *)

(** X1: [delay_to_second] is strictly increasing on [ui32]: a larger delay
    gives a larger number of seconds, and every positive delay gives a
    positive one. *)
Theorem delay_to_second_strictly_increasing (d1 d2 : Z) :
  ui32_range d1 -> ui32_range d2 -> d1 < d2 ->
  (delay_to_second d1 <? delay_to_second d2)%float = true /\
  (0 <? delay_to_second d2)%float = true.
Proof.
  intros H1 H2 Hlt.
  destruct (delay_to_second_bounds d1 H1) as [F1 B1].
  destruct (delay_to_second_bounds d2 H2) as [F2 B2].
  destruct fval_zero as [F0 V0].
  pose proof (delay_to_second_increasing d1 d2 H1 H2 Hlt) as H.
  split; apply ltb_true; try assumption. rewrite V0. lia.
Qed.

Lemma delay_to_second_strictly_increasing_witness :
  (delay_to_second 598 <? delay_to_second 599)%float = true /\
  (0 <? delay_to_second 599)%float = true.
Proof.
  assert (H1 : ui32_range 598) by (unfold ui32_range; lia).
  assert (H2 : ui32_range 599) by (unfold ui32_range; lia).
  apply (delay_to_second_strictly_increasing 598 599 H1 H2). lia.
Defined.

(** ** [second_to_delay] *)

(** X2: [second_to_delay s] has a value exactly when the product [s * NDS_FPS]
    is a finite number above [-1] and below [2^32]; the value is the product
    with its fraction discarded. So a product above [-1] and up to [0] gives [0]; a
    NaN, an infinity, a product of [2^32] or more or of [-1] or less gives no
    value. *)
Theorem second_to_delay_defined (s : float) (z : Z) :
  second_to_delay s = Some z <->
  finite (s * NDS_FPS) = true /\
  - 2 ^ 1074 < fval (s * NDS_FPS) < 2 ^ 32 * 2 ^ 1074 /\
  z = Z.quot (fval (s * NDS_FPS)) (2 ^ 1074).
Proof. unfold second_to_delay. apply fp64_to_uint_spec. lia. Qed.

(** X3: the round trip of C7 holds on all of [ui32]: for every delay the
    second conversion has a value, which is the delay or, for a positive
    delay, one frame less. *)
Theorem round_trip_every_ui32 (d : Z) :
  ui32_range d ->
  second_to_delay (delay_to_second d) = Some d \/
  (0 < d /\ second_to_delay (delay_to_second d) = Some (d - 1)).
Proof.
  intros Hd. destruct (round_trip_ui32 d Hd) as [E|E]; [left; assumption|right].
  split; [|assumption]. apply fp64_to_uint_range in E. lia.
Qed.

Lemma round_trip_every_ui32_witness :
  second_to_delay (delay_to_second 4294967295) = Some 4294967295 \/
  (0 < 4294967295 /\
   second_to_delay (delay_to_second 4294967295) = Some (4294967295 - 1)).
Proof.
  apply (round_trip_every_ui32 4294967295). unfold ui32_range. lia.
Defined.

(** ** [get_time_data] *)

(** X4: the result depends on the two delays through their difference modulo
    [2^32] only: moving both by the same number of frames, with wrap-around,
    changes nothing. *)
Theorem get_time_data_shift (debug : bool) (fuel : nat) (cd cs td ts k : Z) :
  get_time_data debug fuel ((cd + k) mod 2 ^ 32) cs ((td + k) mod 2 ^ 32) ts
  = get_time_data debug fuel cd cs td ts.
Proof.
  unfold get_time_data, calc_load_time, sub_ui32.
  rewrite Zminus_mod_idemp_l, Zminus_mod_idemp_r.
  replace (td + k - (cd + k)) with (td - cd) by ring. reflexivity.
Qed.

(** X5: both times of a result are finite numbers, never a NaN or an infinity,
    and the load time is at most [71791127] seconds. *)
Theorem times_are_finite (debug : bool) (fuel : nat) (cd cs td ts : Z) (r : TimeData) :
  ui32_range cd -> ui8_range cs -> ui32_range td -> ui8_range ts ->
  get_time_data debug fuel cd cs td ts = Ret r ->
  PrimFloat.is_finite (load_time r) = true /\
  PrimFloat.is_finite (boot_time r) = true /\
  (load_time r <=? 71791127)%float = true.
Proof.
  intros Hcd Hcs Htd Hts E.
  apply get_time_data_Ret in E. destruct E as (El & [n En] & _).
  destruct (load_time_in_range cd cs td Hcd Hcs Htd) as [Fl Bl].
  destruct (calc_boot_time_spec ts _ Hts Fl Bl) as (_ & _ & _ & _ & Fb0 & _ & Bb0).
  destruct (adjust_boot_time_spec _ Fb0 Bb0) as (b & n' & E2 & Hn & Fb & _).
  assert (Eb : boot_time r = b).
  { destruct (le_ge_dec fuel 2) as [Hf|Hf].
    - rewrite (adjust_boot_time_fuel _ _ _ _ En 2 Hf) in E2. congruence.
    - rewrite (adjust_boot_time_fuel _ _ _ _ E2 fuel Hf) in En. congruence. }
  rewrite El, Eb. split; [apply finite_is_finite; assumption|].
  split; [apply finite_is_finite; assumption|].
  assert (F : finite 71791127%float = true /\ fval 71791127%float = 71791127 * 2 ^ 1074).
  { replace 71791127%float with (fp64_of_uint 71791127) by reflexivity.
    apply fp64_of_uint_exact. lia. }
  destruct F as [F V]. apply leb_true; [assumption..|]. rewrite V.
  assert (HD : ui32_range 4294967295) by (unfold ui32_range; lia).
  pose proof (load_time_upper cd cs td 4294967295 Hcd Hcs Htd HD) as L.
  pose proof (sub_ui32_range td cd) as Hd. unfold ui32_range in Hd.
  specialize (L ltac:(lia)).
  eapply Z.le_trans; [exact L|].
  change (2 ^ 1074) with (128 * 2 ^ 1067).
  assert (HP : 0 < 2 ^ 1067) by pow2_pos.
  assert (C : 4294967295 * 2 ^ 54 / NDS_FPS_mantissa + 1 + 128 * 255 <= 71791127 * 128).
  { apply Z.leb_le. vm_compute. reflexivity. }
  nia.
Qed.

Lemma times_are_finite_witness :
  let lt := (fp64_of_uint (1598 - 1000) / NDS_FPS + fp64_of_uint 30)%float in
  let bt := (fmod (fp64_of_uint 45 - lt) S_PER_MIN + 0.2 + S_PER_MIN)%float in
  PrimFloat.is_finite lt = true /\
  PrimFloat.is_finite bt = true /\
  (lt <=? 71791127)%float = true.
Proof.
  intros lt bt.
  assert (Hcd : ui32_range 1000) by (unfold ui32_range; lia).
  assert (Hcs : ui8_range 30) by (unfold ui8_range; lia).
  assert (Htd : ui32_range 1598) by (unfold ui32_range; lia).
  assert (Hts : ui8_range 45) by (unfold ui8_range; lia).
  apply (times_are_finite false 2 1000 30 1598 45 (mkTimeData bt lt (Some 1))
           Hcd Hcs Htd Hts).
  vm_compute. reflexivity.
Defined.

(** X6: the total time [boot_time + load_time] is a whole number [k] of
    minutes plus [target_second mod 60] seconds plus the constant [0.2],
    within [2^-23] seconds; the [offset] is this [k] when [k] is below [256],
    and has no value otherwise. Times are in units of [2^-1074] seconds. *)
Theorem total_time_decomposition (cd cs td ts : Z) (fuel : nat) :
  ui32_range cd -> ui8_range cs -> ui32_range td -> ui8_range ts -> (2 <= fuel)%nat ->
  exists (r : TimeData) (k : Z),
    get_time_data false fuel cd cs td ts = Ret r /\
    0 <= k /\
    Z.abs (fval (boot_time r) + fval (load_time r)
           - ((60 * k + ts mod 60) * 2 ^ 1074 + fval 0.2%float)) <= 2 ^ 1051 /\
    offset r = (if k <? 256 then Some k else None).
Proof.
  intros Hcd Hcs Htd Hts Hfuel.
  destruct (total_time_spec cd cs td ts Hcd Hcs Htd Hts) as (b & n & k & E & _ & _ & Hk & HT & Ho).
  eexists. exists k. split; [apply (get_time_data_release fuel _ _ _ _ b n E Hfuel)|].
  cbn [boot_time load_time offset]. auto.
Qed.

Lemma total_time_decomposition_witness :
  exists (r : TimeData) (k : Z),
    get_time_data false 2 1000 30 1598 45 = Ret r /\
    0 <= k /\
    Z.abs (fval (boot_time r) + fval (load_time r)
           - ((60 * k + 45 mod 60) * 2 ^ 1074 + fval 0.2%float)) <= 2 ^ 1051 /\
    offset r = (if k <? 256 then Some k else None).
Proof.
  assert (Hcd : ui32_range 1000) by (unfold ui32_range; lia).
  assert (Hcs : ui8_range 30) by (unfold ui8_range; lia).
  assert (Htd : ui32_range 1598) by (unfold ui32_range; lia).
  assert (Hts : ui8_range 45) by (unfold ui8_range; lia).
  exact (total_time_decomposition 1000 30 1598 45 2 Hcd Hcs Htd Hts (le_n 2)).
Defined.

(** X7: when the frame difference [(target_delay - calibrated_delay) mod 2^32]
    is at most [899000] (a little over four hours), the [offset] has a value,
    whatever the seconds are. *)
Theorem offset_defined_below (cd cs td ts : Z) (fuel : nat) :
  ui32_range cd -> ui8_range cs -> ui32_range td -> ui8_range ts -> (2 <= fuel)%nat ->
  sub_ui32 td cd <= 899000 ->
  exists (r : TimeData) (k : Z),
    get_time_data false fuel cd cs td ts = Ret r /\
    offset r = Some k /\ 0 <= k <= 255.
Proof.
  intros Hcd Hcs Htd Hts Hfuel Hd.
  destruct (total_time_spec cd cs td ts Hcd Hcs Htd Hts)
    as (b & n & k & E & _ & Bb & Hk & HT & Ho).
  assert (HD : ui32_range 899000) by (unfold ui32_range; lia).
  pose proof (load_time_upper cd cs td 899000 Hcd Hcs Htd HD Hd) as L.
  assert (C : 899000 * 2 ^ 54 / NDS_FPS_mantissa + 1 + 128 * 255 <= 1956082).
  { apply Z.leb_le. vm_compute. reflexivity. }
  assert (K : k <= 255).
  { destruct (Z_le_gt_dec k 255) as [|Hgt]; [assumption|exfalso].
    destruct fval_fudge as [_ V02]. rewrite V02 in HT. apply Z.abs_le in HT.
    pose proof (Z.mod_pos_bound ts 60 ltac:(lia)) as Hi.
    assert (HP : 0 < 2 ^ 1019) by pow2_pos.
    assert (L' : fval (calc_load_time cd cs td) <= 1956082 * 2 ^ 1067).
    { eapply Z.le_trans; [exact L|]. apply Z.mul_le_mono_nonneg_r; [|assumption].
      apply Z.pow_nonneg. lia. }
    assert (K1 : 256 * 2 ^ 1074 <= k * 2 ^ 1074).
    { apply Z.mul_le_mono_nonneg_r; [apply Z.pow_nonneg|]; lia. }
    assert (K2 : 0 <= ts mod 60 * 2 ^ 1074).
    { apply Z.mul_nonneg_nonneg; [|apply Z.pow_nonneg]; lia. }
    replace ((60 * k + ts mod 60) * 2 ^ 1074)
      with (60 * (k * 2 ^ 1074) + ts mod 60 * 2 ^ 1074) in HT by ring.
    clear - HT Bb L' K1 K2 HP.
    set (KU := k * 2 ^ 1074) in *. set (IU := ts mod 60 * 2 ^ 1074) in *. clearbody KU IU.
    change (2 ^ 1074) with (2 ^ 55 * 2 ^ 1019) in *.
    change (2 ^ 1067) with (2 ^ 48 * 2 ^ 1019) in *.
    change (2 ^ 1051) with (2 ^ 32 * 2 ^ 1019) in *.
    set (w := 2 ^ 1019) in *. clearbody w. lia. }
  eexists. exists k. split; [apply (get_time_data_release fuel _ _ _ _ b n E Hfuel)|].
  cbn [offset]. rewrite Ho.
  replace (k <? 256) with true by (symmetry; apply Z.ltb_lt; lia).
  split; [reflexivity|lia].
Qed.

Lemma offset_defined_below_witness :
  exists (r : TimeData) (k : Z),
    get_time_data false 2 1000 30 1598 45 = Ret r /\
    offset r = Some k /\ 0 <= k <= 255.
Proof.
  assert (Hcd : ui32_range 1000) by (unfold ui32_range; lia).
  assert (Hcs : ui8_range 30) by (unfold ui8_range; lia).
  assert (Htd : ui32_range 1598) by (unfold ui32_range; lia).
  assert (Hts : ui8_range 45) by (unfold ui8_range; lia).
  apply (offset_defined_below 1000 30 1598 45 2 Hcd Hcs Htd Hts (le_n 2)).
  vm_compute. discriminate.
Defined.

(** X8: when the frame difference [(target_delay - calibrated_delay) mod 2^32]
    is [919000] or more, the minute total does not fit [ui8] and the [offset]
    has no value. Every [target_delay] below [calibrated_delay] by at most
    [4294048296] frames is such an input. *)
Theorem offset_undefined_above (cd cs td ts : Z) (fuel : nat) :
  ui32_range cd -> ui8_range cs -> ui32_range td -> ui8_range ts -> (2 <= fuel)%nat ->
  919000 <= sub_ui32 td cd ->
  exists r : TimeData,
    get_time_data false fuel cd cs td ts = Ret r /\ offset r = None.
Proof.
  intros Hcd Hcs Htd Hts Hfuel Hd.
  destruct (total_time_spec cd cs td ts Hcd Hcs Htd Hts)
    as (b & n & k & E & _ & Bb & Hk & HT & Ho).
  assert (HD : ui32_range 919000) by (unfold ui32_range; lia).
  pose proof (load_time_lower cd cs td 919000 Hcd Hcs Htd HD Hd) as L.
  assert (C : 1966232 <= 919000 * 2 ^ 54 / NDS_FPS_mantissa).
  { apply Z.leb_le. vm_compute. reflexivity. }
  assert (K : 256 <= k).
  { destruct (Z_le_gt_dec 256 k) as [|Hgt]; [assumption|exfalso].
    destruct fval_fudge as [_ V02]. rewrite V02 in HT. apply Z.abs_le in HT.
    pose proof (Z.mod_pos_bound ts 60 ltac:(lia)) as Hi.
    assert (HP : 0 < 2 ^ 1019) by pow2_pos.
    assert (L' : 1966232 * 2 ^ 1067 <= fval (calc_load_time cd cs td)).
    { eapply Z.le_trans; [|exact L]. apply Z.mul_le_mono_nonneg_r; [|assumption].
      apply Z.pow_nonneg. lia. }
    assert (K1 : k * 2 ^ 1074 <= 255 * 2 ^ 1074).
    { apply Z.mul_le_mono_nonneg_r; [apply Z.pow_nonneg|]; lia. }
    assert (K2 : ts mod 60 * 2 ^ 1074 <= 59 * 2 ^ 1074).
    { apply Z.mul_le_mono_nonneg_r; [apply Z.pow_nonneg|]; lia. }
    replace ((60 * k + ts mod 60) * 2 ^ 1074)
      with (60 * (k * 2 ^ 1074) + ts mod 60 * 2 ^ 1074) in HT by ring.
    clear - HT Bb L' K1 K2 HP.
    set (KU := k * 2 ^ 1074) in *. set (IU := ts mod 60 * 2 ^ 1074) in *. clearbody KU IU.
    change (2 ^ 1074) with (2 ^ 55 * 2 ^ 1019) in *.
    change (2 ^ 1067) with (2 ^ 48 * 2 ^ 1019) in *.
    change (2 ^ 1051) with (2 ^ 32 * 2 ^ 1019) in *.
    set (w := 2 ^ 1019) in *. clearbody w. lia. }
  eexists. split; [apply (get_time_data_release fuel _ _ _ _ b n E Hfuel)|].
  cbn [offset]. rewrite Ho.
  replace (k <? 256) with false by (symmetry; apply Z.ltb_ge; lia).
  reflexivity.
Qed.

Lemma offset_undefined_above_witness :
  exists r : TimeData,
    get_time_data false 2 2000 10 1000 5 = Ret r /\ offset r = None.
Proof.
  assert (Hcd : ui32_range 2000) by (unfold ui32_range; lia).
  assert (Hcs : ui8_range 10) by (unfold ui8_range; lia).
  assert (Htd : ui32_range 1000) by (unfold ui32_range; lia).
  assert (Hts : ui8_range 5) by (unfold ui8_range; lia).
  apply (offset_undefined_above 2000 10 1000 5 2 Hcd Hcs Htd Hts (le_n 2)).
  vm_compute. discriminate.
Defined.

(** X9: in a debug build the inputs that trap are exactly those with
    [target_delay = calibrated_delay] and [calibrated_second = 0]; a
    [target_delay] below [calibrated_delay] does not trap. *)
Theorem debug_trap_inputs (cd cs td ts : Z) (fuel : nat) :
  ui32_range cd -> ui8_range cs -> ui32_range td ->
  (get_time_data true fuel cd cs td ts = Trap <-> td = cd /\ cs = 0).
Proof.
  intros Hcd Hcs Htd.
  destruct (load_time_in_range cd cs td Hcd Hcs Htd) as [Fl _].
  rewrite get_time_data_Trap, ASSERT_load_time_Trap by assumption.
  apply calc_load_time_zero; assumption.
Qed.

Lemma debug_trap_inputs_witness :
  get_time_data true 2 7 0 7 5 = Trap <-> 7 = 7 /\ 0 = 0.
Proof.
  assert (Hcd : ui32_range 7) by (unfold ui32_range; lia).
  assert (Hcs : ui8_range 0) by (unfold ui8_range; lia).
  exact (debug_trap_inputs 7 0 7 5 2 Hcd Hcs Hcd).
Defined.
